(** * Lightweight PostgreSQL client: SQL text rewriting, row-change
      reconciliation and query execution

    A shallow embedding of the TypeScript sources

    - [commands/executeQuery] (statement splitter, comment stripper,
      classifier, LIMIT detection and injection),
    - [services/dataModificationService.ts] (row-change reconciler, value
      coercion, audit formatting),
    - [services/queryExecutor.ts] (execution, cancellation, history),

    followed by the properties proved about them.

    JavaScript strings are modelled as [string] over 8-bit characters, read
    as the code units U+0000 to U+00FF.  Numbers that the code only counts
    with (row indices, affected-row counts, the row cap, parameter indices)
    are integers; numbers that travel as cell values are kept abstract. *)

From stdpp Require Import gmap strings list.
From Stdlib Require Import ZArith NArith Lia Ascii String.
From Stdlib Require Import DecimalString DecimalN DecimalPos.
From Stdlib Require Import Permutation Sorted.

Open Scope string_scope.

(* ===================================================================== *)
(** * Part I.  Definitions                                                *)
(* ===================================================================== *)

(** ** Characters *)

Definition code (c : ascii) : N := N_of_ascii c.

(** The characters matched by [\s] and removed by [String.prototype.trim]:
    TAB, LF, VT, FF, CR, SPACE and NO-BREAK SPACE (the members of
    WhiteSpace and LineTerminator below U+0100). *)
Definition isWhiteSpace (c : ascii) : bool :=
  let n := code c in
  ((9 <=? n) && (n <=? 13) || (n =? 32) || (n =? 160))%N.

(** [\d] *)
Definition isDigit (c : ascii) : bool :=
  let n := code c in ((48 <=? n) && (n <=? 57))%N.

(** [\w], the word characters that [\b] looks at. *)
Definition isWordChar (c : ascii) : bool :=
  let n := code c in
  (isDigit c || ((65 <=? n) && (n <=? 90)) || ((97 <=? n) && (n <=? 122))
   || (n =? 95))%N.

(** Upper-casing of one code unit.  ASCII and Latin-1 small letters move to
    their capitals.  U+00DF (capital form SS), U+00B5 and U+00FF (capital
    forms above U+00FF) are left as they are: the texts compared against
    below are ASCII keywords none of which contains SS or ends in S, so no
    comparison made in this file is affected. *)
Definition upperChar (c : ascii) : ascii :=
  let n := code c in
  if ((97 <=? n) && (n <=? 122)
      || (224 <=? n) && (n <=? 254) && negb (n =? 247))%N
  then ascii_of_N (n - 32) else c.

Definition lowerChar (c : ascii) : ascii :=
  let n := code c in
  if ((65 <=? n) && (n <=? 90)
      || (192 <=? n) && (n <=? 222) && negb (n =? 215))%N
  then ascii_of_N (n + 32) else c.

(** ** String primitives of the host language *)

Fixpoint mapString (f : ascii -> ascii) (s : string) : string :=
  match s with
  | EmptyString => EmptyString
  | String c r => String (f c) (mapString f r)
  end.

Definition toUpperCase : string -> string := mapString upperChar.
Definition toLowerCase : string -> string := mapString lowerChar.

Fixpoint trimStart (s : string) : string :=
  match s with
  | EmptyString => EmptyString
  | String c r => if isWhiteSpace c then trimStart r else s
  end.

Fixpoint trimEnd (s : string) : string :=
  match s with
  | EmptyString => EmptyString
  | String c r =>
      match trimEnd r with
      | EmptyString => if isWhiteSpace c then EmptyString else String c EmptyString
      | r' => String c r'
      end
  end.

Definition trim (s : string) : string := trimEnd (trimStart s).

(** Truthiness of a string: non-empty. *)
Definition truthy (s : string) : bool :=
  match s with EmptyString => false | _ => true end.

Definition startsWith (s p : string) : bool := prefix p s.

Definition endsWith (s p : string) : bool :=
  let n := String.length s in
  let m := String.length p in
  (m <=? n)%nat && (substring (n - m) m s =? p).

(** [s.slice(0, -1)] *)
Definition sliceButLast (s : string) : string :=
  substring 0 (String.length s - 1) s.

(** [s.includes(p)] *)
Fixpoint includes (s p : string) : bool :=
  prefix p s ||
  match s with
  | EmptyString => false
  | String _ r => includes r p
  end.

Definition headChar (s : string) : option ascii :=
  match s with EmptyString => None | String c _ => Some c end.

Definition charIs (c : ascii) (o : option ascii) : bool :=
  match o with Some d => Ascii.eqb c d | None => false end.

(** [s + c] *)
Definition snoc (s : string) (c : ascii) : string := s ++ String c EmptyString.

(** Decimal rendering of the integers the code interpolates into text
    ([String(n)] prints an integer below 10^21 in plain decimal). *)
Definition showN (n : N) : string := NilEmpty.string_of_uint (N.to_uint n).
Definition showZ (z : Z) : string := NilZero.string_of_int (Z.to_int z).

(** ** Regular expressions

    The fragment of the regular-expression language that the sources use:
    literals, the classes [\s] and [\d], greedy repetition of a class,
    [\b], [$], sequence, alternation and the optional group.  The matcher
    is the usual backtracking one, in continuation-passing style; it
    returns the text left after the match. *)

Inductive regex : Type :=
| Empty
| Lit (c : ascii)
| Class (p : ascii -> bool)
| Many (p : ascii -> bool) (min : nat)
| WordBoundary
| EndOfInput
| Seq (a b : regex)
| Alt (a b : regex)
| Opt (a : regex).

(** Character comparison; under the [i] flag both sides are canonicalised
    by upper-casing. *)
Definition charEq (ignoreCase : bool) (c d : ascii) : bool :=
  if ignoreCase then Ascii.eqb (upperChar c) (upperChar d) else Ascii.eqb c d.

Definition isWordOpt (o : option ascii) : bool :=
  match o with Some c => isWordChar c | None => false end.

Definition orElse {A} (x y : option A) : option A :=
  match x with Some _ => x | None => y end.

Fixpoint many (p : ascii -> bool) (min : nat) (prev : option ascii)
    (s : string) (k : option ascii -> string -> option string)
    : option string :=
  let stop := match min with O => k prev s | S _ => None end in
  match s with
  | EmptyString => stop
  | String c r =>
      if p c then orElse (many p (Nat.pred min) (Some c) r k) stop else stop
  end.

Fixpoint rmatch (ic : bool) (re : regex) (prev : option ascii) (s : string)
    (k : option ascii -> string -> option string) : option string :=
  match re with
  | Empty => k prev s
  | Lit c =>
      match s with
      | String d r => if charEq ic c d then k (Some d) r else None
      | EmptyString => None
      end
  | Class p =>
      match s with
      | String d r => if p d then k (Some d) r else None
      | EmptyString => None
      end
  | Many p min => many p min prev s k
  | WordBoundary =>
      if xorb (isWordOpt prev) (isWordOpt (headChar s)) then k prev s else None
  | EndOfInput =>
      match s with EmptyString => k prev s | String _ _ => None end
  | Seq a b => rmatch ic a prev s (fun prev' s' => rmatch ic b prev' s' k)
  | Alt a b => orElse (rmatch ic a prev s k) (rmatch ic b prev s k)
  | Opt a => orElse (rmatch ic a prev s k) (k prev s)
  end.

(** One match attempt at the current position. *)
Definition matchHere (ic : bool) (re : regex) (prev : option ascii)
    (s : string) : option string :=
  rmatch ic re prev s (fun _ rest => Some rest).

(** [re.test(s)]: is there a position at which the expression matches. *)
Fixpoint searchFrom (ic : bool) (re : regex) (prev : option ascii)
    (s : string) : bool :=
  match matchHere ic re prev s with
  | Some _ => true
  | None =>
      match s with
      | EmptyString => false
      | String c r => searchFrom ic re (Some c) r
      end
  end.

Definition test (ic : bool) (re : regex) (s : string) : bool :=
  searchFrom ic re None s.

(** Expansion of a replacement text (GetSubstitution) for an expression
    without capture groups: [$$], [$&], [$`] and [$'] are special, any
    other [$] is literal. *)
Fixpoint expand (template matched before after : string) : string :=
  match template with
  | EmptyString => EmptyString
  | String c r =>
      if Ascii.eqb c "$" then
        match r with
        | String d r' =>
            if Ascii.eqb d "$" then String "$" (expand r' matched before after)
            else if Ascii.eqb d "&" then matched ++ expand r' matched before after
            else if Ascii.eqb d "`" then before ++ expand r' matched before after
            else if Ascii.eqb d "'" then after ++ expand r' matched before after
            else String c (expand r matched before after)
        | EmptyString => String c EmptyString
        end
      else String c (expand r matched before after)
  end.

(** [s.replace(re, template)] for a global expression.  [skip] counts the
    characters of the current match that are still to be passed over;
    [before] is the text already scanned. *)
Fixpoint replaceLoop (ic : bool) (re : regex) (template : string)
    (before : string) (prev : option ascii) (s : string) (skip : nat)
    : string :=
  match skip with
  | S k =>
      match s with
      | EmptyString => EmptyString
      | String c r => replaceLoop ic re template (snoc before c) (Some c) r k
      end
  | O =>
      match matchHere ic re prev s with
      | Some rest =>
          let n := String.length s - String.length rest in
          expand template (substring 0 n s) before rest ++
          match s with
          | EmptyString => EmptyString
          | String c r =>
              match n with
              | O => String c (replaceLoop ic re template (snoc before c) (Some c) r 0)
              | S k => replaceLoop ic re template (snoc before c) (Some c) r k
              end
          end
      | None =>
          match s with
          | EmptyString => EmptyString
          | String c r =>
              String c (replaceLoop ic re template (snoc before c) (Some c) r 0)
          end
      end
  end.

Definition replaceAll (ic : bool) (re : regex) (template s : string) : string :=
  replaceLoop ic re template EmptyString None s 0.

Fixpoint lits (s : string) : regex :=
  match s with
  | EmptyString => Empty
  | String c r => Seq (Lit c) (lits r)
  end.

Fixpoint seqs (l : list regex) : regex :=
  match l with
  | [] => Empty
  | a :: r => Seq a (seqs r)
  end.

Definition ws1 : regex := Many isWhiteSpace 1.
Definition ws0 : regex := Many isWhiteSpace 0.
Definition digits1 : regex := Many isDigit 1.

(** ** The statement splitter ([splitSqlStatements])

    The scanner state is the set of local variables of the loop.  The loop
    index is the position in the text; [i++] inside the body is the
    recursive call on the text after the next character. *)

Record SplitState : Type := mkSplit {
  statements : list string;
  current : string;
  inString : bool;
  stringChar : option ascii;
  inLineComment : bool;
  inBlockComment : bool
}.

Definition splitInit : SplitState :=
  mkSplit [] EmptyString false None false false.

(** [current += char], with the new values of the three context flags. *)
Definition advance (st : SplitState) (c : ascii)
    (str : bool) (q : option ascii) (line block : bool) : SplitState :=
  mkSplit (statements st) (snoc (current st) c) str q line block.

Definition keep (st : SplitState) (c : ascii) : SplitState :=
  advance st c (inString st) (stringChar st) (inLineComment st)
    (inBlockComment st).

(** [if (current.trim()) statements.push(current)] *)
Definition pushCurrent (st : SplitState) : list string :=
  if truthy (trim (current st))
  then (statements st ++ [current st])%list
  else statements st.

Definition doubleQuote : ascii := ascii_of_N 34.

Definition isQuote (c : ascii) : bool :=
  Ascii.eqb c "'" || Ascii.eqb c doubleQuote.

Definition LF : ascii := ascii_of_N 10.

Fixpoint splitLoop (text : string) (st : SplitState) : SplitState :=
  match text with
  | EmptyString => st
  | String char rest =>
      let nextChar := headChar rest in
      (* line comments *)
      if negb (inString st) && negb (inBlockComment st)
         && Ascii.eqb char "-" && charIs "-" nextChar
      then splitLoop rest
             (advance st char (inString st) (stringChar st) true
                (inBlockComment st))
      else if inLineComment st
      then splitLoop rest
             (advance st char (inString st) (stringChar st)
                (negb (Ascii.eqb char LF)) (inBlockComment st))
      (* block comments *)
      else if negb (inString st) && negb (inLineComment st)
              && Ascii.eqb char "/" && charIs "*" nextChar
      then splitLoop rest
             (advance st char (inString st) (stringChar st)
                (inLineComment st) true)
      else if inBlockComment st
      then
        if Ascii.eqb char "*" && charIs "/" nextChar
        then
          match rest with
          | String next rest' =>
              splitLoop rest'
                (advance (keep st char) next (inString st) (stringChar st)
                   (inLineComment st) false)
          | EmptyString => keep st char
          end
        else splitLoop rest (keep st char)
      (* strings *)
      else if negb (inString st) && isQuote char
      then splitLoop rest
             (advance st char true (Some char) (inLineComment st)
                (inBlockComment st))
      else if inString st
      then
        if charIs char (stringChar st)
        then
          match rest with
          | String next rest' =>
              if charIs next (stringChar st)
              then splitLoop rest' (keep (keep st char) next)
              else splitLoop rest
                     (advance st char false (stringChar st)
                        (inLineComment st) (inBlockComment st))
          | EmptyString =>
              advance st char false (stringChar st) (inLineComment st)
                (inBlockComment st)
          end
        else splitLoop rest (keep st char)
      (* statement separator *)
      else if Ascii.eqb char ";"
      then splitLoop rest
             (mkSplit (pushCurrent st) EmptyString (inString st)
                (stringChar st) (inLineComment st) (inBlockComment st))
      else splitLoop rest (keep st char)
  end.

Definition splitSqlStatements (text : string) : list string :=
  pushCurrent (splitLoop text splitInit).

(** ** The comment stripper ([stripSqlComments]) *)

Record StripState : Type := mkStrip {
  result : string;
  sInString : bool;
  sStringChar : option ascii;
  sInLineComment : bool;
  sInBlockComment : bool
}.

Definition stripInit : StripState :=
  mkStrip EmptyString false None false false.

Definition emit (st : StripState) (c : ascii) : StripState :=
  mkStrip (snoc (result st) c) (sInString st) (sStringChar st)
    (sInLineComment st) (sInBlockComment st).

Definition tailString (s : string) : string :=
  match s with EmptyString => EmptyString | String _ r => r end.

Fixpoint stripLoop (sql : string) (st : StripState) : StripState :=
  match sql with
  | EmptyString => st
  | String char rest =>
      let nextChar := headChar rest in
      if negb (sInString st) && negb (sInBlockComment st)
         && Ascii.eqb char "-" && charIs "-" nextChar
      then
        match rest with
        | String _ rest' =>
            stripLoop rest'
              (mkStrip (result st) (sInString st) (sStringChar st) true
                 (sInBlockComment st))
        | EmptyString => st
        end
      else if sInLineComment st
      then
        if Ascii.eqb char LF
        then stripLoop rest
               (mkStrip (snoc (result st) char) (sInString st)
                  (sStringChar st) false (sInBlockComment st))
        else stripLoop rest st
      else if negb (sInString st) && negb (sInLineComment st)
              && Ascii.eqb char "/" && charIs "*" nextChar
      then
        match rest with
        | String _ rest' =>
            stripLoop rest'
              (mkStrip (result st) (sInString st) (sStringChar st)
                 (sInLineComment st) true)
        | EmptyString => st
        end
      else if sInBlockComment st
      then
        if Ascii.eqb char "*" && charIs "/" nextChar
        then
          match rest with
          | String _ rest' =>
              stripLoop rest'
                (mkStrip (result st) (sInString st) (sStringChar st)
                   (sInLineComment st) false)
          | EmptyString => st
          end
        else stripLoop rest st
      else if negb (sInString st) && isQuote char
      then stripLoop rest
             (mkStrip (snoc (result st) char) true (Some char)
                (sInLineComment st) (sInBlockComment st))
      else if sInString st
      then
        if charIs char (sStringChar st)
        then
          match rest with
          | String next rest' =>
              if charIs next (sStringChar st)
              then stripLoop rest' (emit (emit st char) next)
              else stripLoop rest
                     (mkStrip (snoc (result st) char) false (sStringChar st)
                        (sInLineComment st) (sInBlockComment st))
          | EmptyString =>
              mkStrip (snoc (result st) char) false (sStringChar st)
                (sInLineComment st) (sInBlockComment st)
          end
        else stripLoop rest (emit st char)
      else stripLoop rest (emit st char)
  end.

Definition stripSqlComments (sql : string) : string :=
  result (stripLoop sql stripInit).

(** ** Classification and the row cap *)

(** [sql.replace(/\s+/g, ' ').trim().toUpperCase()] *)
Definition normalizeSql (sql : string) : string :=
  toUpperCase (trim (replaceAll false ws1 " " sql)).

Definition modificationKeywords : list string :=
  [ "INSERT"; "UPDATE"; "DELETE"; "TRUNCATE"; "DROP"; "ALTER"; "CREATE";
    "GRANT"; "REVOKE"; "VACUUM"; "REINDEX"; "CLUSTER";
    "REFRESH MATERIALIZED VIEW"; "COPY" ].

Definition isModificationQuery (sql : string) : bool :=
  let normalizedSql := normalizeSql sql in
  existsb
    (fun keyword =>
       startsWith normalizedSql (keyword ++ " ") || (normalizedSql =? keyword))
    modificationKeywords.

Definition isSelectQuery (sql : string) : bool :=
  let normalizedSql := normalizeSql sql in
  startsWith normalizedSql "SELECT " || startsWith normalizedSql "WITH ".

(** [/\bLIMIT\s+\d+\s*(OFFSET\s+\d+)?\s*$/i] *)
Definition reLimitOffset : regex :=
  seqs [ WordBoundary; lits "LIMIT"; ws1; digits1; ws0;
         Opt (seqs [ lits "OFFSET"; ws1; digits1 ]); ws0; EndOfInput ].

(** [/\bLIMIT\s+\d+\s*$/i] *)
Definition reLimit : regex :=
  seqs [ WordBoundary; lits "LIMIT"; ws1; digits1; ws0; EndOfInput ].

(** [/\bFETCH\s+(FIRST|NEXT)\s+\d+\s+ROW(S)?\s+ONLY\s*$/i] *)
Definition reFetch : regex :=
  seqs [ WordBoundary; lits "FETCH"; ws1; Alt (lits "FIRST") (lits "NEXT");
         ws1; digits1; ws1; lits "ROW"; Opt (Lit "S"); ws1; lits "ONLY";
         ws0; EndOfInput ].

Definition hasLimitClause (sql : string) : bool :=
  test true reLimitOffset (trim sql)
  || test true reLimit (trim sql)
  || test true reFetch (trim sql).

(** [Number.MAX_SAFE_INTEGER], 2^53 - 1. *)
Definition maxSafeInteger : N := 9007199254740991.

(** [limit] stands for a number that is a non-negative integer; up to
    [maxSafeInteger] every such number is a value of the host and
    [`${limit}`] is its decimal numeral, [showN limit].  Larger numbers are
    not covered: the host prints them rounded, and from 10^21 on with an
    exponent.  The one call passes 100. *)
Definition addLimitClause (sql : string) (limit : N) : string :=
  let trimmedSql := trim sql in
  let hadSemicolon := endsWith trimmedSql ";" in
  let trimmedSql := if hadSemicolon then trim (sliceButLast trimmedSql)
                    else trimmedSql in
  trimmedSql ++ " LIMIT " ++ showN limit ++ (if hadSemicolon then ";" else "").

(** The rewriting step of [executeQueryCommand]: a SELECT or WITH statement
    without a LIMIT gets the default cap of 100.  Returns the statement to
    run and the [isLimited] flag. *)
Definition capRows (sql : string) : string * bool :=
  if isSelectQuery sql && negb (hasLimitClause sql)
  then (addLimitClause sql 100, true)
  else (sql, false).

(** ** Values, rows and the host's conversions

    A cell value is one of the values that travel between the result view,
    the service and the driver.  Numbers and objects are kept abstract,
    together with the four built-in conversions the service calls on them. *)

Inductive JsValue (Num Obj : Type) : Type :=
| VUndefined
| VNull
| VBool (b : bool)
| VNumber (n : Num)
| VString (s : string)
| VObject (o : Obj).

Arguments VUndefined {Num Obj}.
Arguments VNull {Num Obj}.
Arguments VBool {Num Obj} b.
Arguments VNumber {Num Obj} n.
Arguments VString {Num Obj} s.
Arguments VObject {Num Obj} o.

Class Host : Type := {
  Num : Type;
  Obj : Type;
  (** [String(n)] *)
  numberToString : Num -> string;
  (** [Number(s)]; [None] stands for NaN *)
  numberOfString : string -> option Num;
  (** [JSON.parse(s)]; [None] when it throws *)
  jsonParse : string -> option (JsValue Num Obj);
  (** [JSON.stringify(o)] *)
  jsonStringify : Obj -> string
}.

(** The database behind a connection pool: [pool.query(sql, params)] either
    resolves with a reported row count (possibly null) or rejects with an
    error, whose message is what the service reads. *)
Inductive QueryOutcome : Type :=
| Resolved (rowCount : option N)
| Rejected (message : string).

Class Server `{Host} : Type := {
  Db : Type;
  poolQuery : Db -> string -> string -> list (JsValue Num Obj)
              -> Db * QueryOutcome
}.

Record ColumnInfo : Type := mkColumn {
  name : string;
  dataType : string;
  dataTypeId : Z
}.

Record Connection : Type := mkConnection {
  id : string;
  configName : string;
  pool : string;
  isConnected : bool
}.

(** The connection manager: the map of open connections.
    Modelled from the spec: [getActiveConnection], which the services call
    when no connection id is given, has no body in the sources; its result
    is the field [activeConnection], absent when no connection resolves. *)
Record ConnectionManager : Type := mkManager {
  connections : gmap string Connection;
  activeConnection : option Connection
}.

Definition getConnection (m : ConnectionManager) (cid : string)
    : option Connection :=
  connections m !! cid.

Definition getActiveConnection (m : ConnectionManager) : option Connection :=
  activeConnection m.

(** [connectionId ? getConnection(connectionId) : getActiveConnection()] *)
Definition resolveConnection (m : ConnectionManager)
    (connectionId : option string) : option Connection :=
  match connectionId with
  | Some cid => if truthy cid then getConnection m cid else getActiveConnection m
  | None => getActiveConnection m
  end.

Inductive ChangeType : Type := update | insert | delete.

Definition typeName (t : ChangeType) : string :=
  match t with update => "update" | insert => "insert" | delete => "delete" end.

Record ModificationResult : Type := mkResult {
  success : bool;
  affectedRows : N;
  errors : list string;
  executedSql : list string
}.

Fixpoint join (sep : string) (l : list string) : string :=
  match l with
  | [] => EmptyString
  | [x] => x
  | x :: r => x ++ sep ++ join sep r
  end.

(** [new RegExp(`\\$${i}\\b`, 'g')] *)
Definition placeholder (i : nat) : regex :=
  Seq (Lit "$") (Seq (lits (showN (N.of_nat i))) WordBoundary).

(** [/'/g] *)
Definition reQuote : regex := Lit "'".

Section DataModificationService.
Context `{Server}.

Definition Value : Type := JsValue Num Obj.

(** A row, [Record<string, unknown>]: its entries in the order
    [Object.entries] yields them. *)
Definition Row : Type := list (string * Value).

(** [row[col]] *)
Definition getField (row : Row) (col : string) : Value :=
  match List.find (fun e => fst e =? col) row with
  | Some e => snd e
  | None => VUndefined
  end.

(** A row change.  Each constructor carries the fields that the branch of
    the [switch] for its [type] asserts to be present. *)
Inductive RowChange : Type :=
| Update (rowIndex : Z) (originalData newData : Row)
         (modifiedColumns : list string)
| Insert (rowIndex : Z) (newData : Row)
| Delete (rowIndex : Z) (originalData : Row).

Definition type (c : RowChange) : ChangeType :=
  match c with
  | Update _ _ _ _ => update
  | Insert _ _ => insert
  | Delete _ _ => delete
  end.

Definition rowIndex (c : RowChange) : Z :=
  match c with
  | Update i _ _ _ => i
  | Insert i _ => i
  | Delete i _ => i
  end.

Definition isNullish (v : Value) : bool :=
  match v with VUndefined | VNull => true | _ => false end.

Definition numericTypes : list string :=
  [ "integer"; "bigint"; "smallint"; "real"; "double precision"; "numeric";
    "decimal" ].

Definition hasType (column : option ColumnInfo) (t : string) : bool :=
  match column with Some c => dataType c =? t | None => false end.

Definition convertValue (value : Value) (column : option ColumnInfo) : Value :=
  match value with
  | VUndefined | VNull => VNull
  | VString s =>
      if s =? "" then VNull
      else if hasType column "json" || hasType column "jsonb" then
        match jsonParse s with
        | Some v => v
        | None => value
        end
      else
        let asBool :=
          if hasType column "boolean" then
            if toLowerCase s =? "true" then Some true
            else if toLowerCase s =? "false" then Some false
            else None
          else None in
        match asBool with
        | Some b => VBool b
        | None =>
            match column with
            | Some c =>
                if existsb (String.eqb (dataType c)) numericTypes then
                  match numberOfString s with
                  | Some num => VNumber num
                  | None => value
                  end
                else value
            | None => value
            end
        end
  | _ => value
  end.

Definition quoteLiteral (s : string) : string :=
  "'" ++ replaceAll false reQuote "''" s ++ "'".

Definition formatValueForSql (value : Value) : string :=
  match value with
  | VUndefined | VNull => "NULL"
  | VBool b => if b then "TRUE" else "FALSE"
  | VNumber n => numberToString n
  | VObject o => quoteLiteral (jsonStringify o)
  | VString s => quoteLiteral s
  end.

(** The loop [for (let i = params.length; i >= 1; i--)]. *)
Fixpoint formatLoop (i : nat) (params : list Value) (formattedSql : string)
    : string :=
  match i with
  | O => formattedSql
  | S j =>
      formatLoop j params
        (replaceAll false (placeholder i)
           (formatValueForSql (nth j params VUndefined)) formattedSql)
  end.

Definition formatSqlWithParams (sql : string) (params : list Value) : string :=
  formatLoop (List.length params) params sql.

Definition findColumn (columns : list ColumnInfo) (col : string)
    : option ColumnInfo :=
  List.find (fun c => name c =? col) columns.

(** The state that the clause builders thread through their callbacks:
    the clauses produced so far, [params] and [paramIndex]. *)
Definition Clauses : Type := (list string * list Value * nat)%type.

Definition quoted (col : string) : string :=
  String doubleQuote (col ++ String doubleQuote EmptyString).

Definition equalsParam (col : string) (paramIndex : nat) : string :=
  quoted col ++ " = $" ++ showN (N.of_nat paramIndex).

Definition setClause (columns : list ColumnInfo) (newData : Row)
    (acc : Clauses) (col : string) : Clauses :=
  let '(clauses, params, paramIndex) := acc in
  ((clauses ++ [equalsParam col paramIndex])%list,
   (params ++ [convertValue (getField newData col) (findColumn columns col)])%list,
   S paramIndex).

Definition whereClause (columns : list ColumnInfo) (originalData : Row)
    (acc : Clauses) (col : string) : Clauses :=
  let '(clauses, params, paramIndex) := acc in
  let value := getField originalData col in
  if isNullish value
  then ((clauses ++ [(quoted col ++ " IS NULL")%string])%list, params, paramIndex)
  else ((clauses ++ [equalsParam col paramIndex])%list,
        (params ++ [convertValue value (findColumn columns col)])%list,
        S paramIndex).

Definition buildUpdateSql (tableName : string) (originalData newData : Row)
    (modifiedColumns primaryKeyColumns : list string)
    (columns : list ColumnInfo) : string * list Value :=
  let '(setClauses, params, paramIndex) :=
    fold_left (setClause columns newData) modifiedColumns ([], [], 1%nat) in
  let '(whereClauses, params, _) :=
    fold_left (whereClause columns originalData) primaryKeyColumns
      ([], params, paramIndex) in
  ("UPDATE " ++ tableName ++ " SET " ++ join ", " setClauses
     ++ " WHERE " ++ join " AND " whereClauses,
   params).

Definition isEmptyString (v : Value) : bool :=
  match v with VString s => s =? "" | _ => false end.

Definition insertEntry (columns : list ColumnInfo)
    (acc : list string * list string * list Value * nat)
    (entry : string * Value) : list string * list string * list Value * nat :=
  let '(columnNames, placeholders, params, paramIndex) := acc in
  let '(key, value) := entry in
  match value with
  | VUndefined => acc
  | _ =>
      if isEmptyString value then acc
      else ((columnNames ++ [quoted key])%list,
            (placeholders ++ [("$" ++ showN (N.of_nat paramIndex))%string])%list,
            (params ++ [convertValue value (findColumn columns key)])%list,
            S paramIndex)
  end.

Definition buildInsertSql (tableName : string) (newData : Row)
    (columns : list ColumnInfo) : string * list Value :=
  let '(columnNames, placeholders, params, _) :=
    fold_left (insertEntry columns) newData ([], [], [], 1%nat) in
  ("INSERT INTO " ++ tableName ++ " (" ++ join ", " columnNames
     ++ ") VALUES (" ++ join ", " placeholders ++ ")",
   params).

Definition buildDeleteSql (tableName : string) (originalData : Row)
    (primaryKeyColumns : list string) (columns : list ColumnInfo)
    : string * list Value :=
  let '(whereClauses, params, _) :=
    fold_left (whereClause columns originalData) primaryKeyColumns
      ([], [], 1%nat) in
  ("DELETE FROM " ++ tableName ++ " WHERE " ++ join " AND " whereClauses,
   params).

(** The [switch (change.type)] of the loop body. *)
Definition buildSql (tableName : string) (primaryKeyColumns : list string)
    (columns : list ColumnInfo) (change : RowChange) : string * list Value :=
  match change with
  | Update _ originalData newData modifiedColumns =>
      buildUpdateSql tableName originalData newData modifiedColumns
        primaryKeyColumns columns
  | Insert _ newData => buildInsertSql tableName newData columns
  | Delete _ originalData =>
      buildDeleteSql tableName originalData primaryKeyColumns columns
  end.

(** The comparator handed to [sort]. *)
Definition order (t : ChangeType) : Z :=
  match t with delete => 0 | update => 1 | insert => 2 end.

Definition isDelete (c : RowChange) : bool :=
  match c with Delete _ _ => true | _ => false end.

Definition isUpdate (c : RowChange) : bool :=
  match c with Update _ _ _ _ => true | _ => false end.

Definition isInsert (c : RowChange) : bool :=
  match c with Insert _ _ => true | _ => false end.

Definition compareChanges (a b : RowChange) : Z :=
  if negb (order (type a) =? order (type b))%Z
  then order (type a) - order (type b)
  else if isDelete a then rowIndex b - rowIndex a
  else rowIndex a - rowIndex b.

End DataModificationService.

(** [Array.prototype.sort] with a comparator.  The sort is stable, so for a
    consistent comparator its result is the one a stable insertion sort
    produces. *)
Fixpoint insertBy {A} (cmp : A -> A -> Z) (x : A) (l : list A) : list A :=
  match l with
  | [] => [x]
  | y :: r => if (cmp x y <=? 0)%Z then x :: l else y :: insertBy cmp x r
  end.

Definition sortBy {A} (cmp : A -> A -> Z) (l : list A) : list A :=
  fold_right (insertBy cmp) [] l.

(** [a] may stand before [b] in a list sorted with the comparator. *)
Definition before {A} (cmp : A -> A -> Z) (a b : A) : Prop :=
  (cmp a b <= 0)%Z.

Section ApplyChanges.
Context `{Server}.

(** What a run observes of the outside: the database, and the statements
    sent to it so far, each with its pool, text and bound parameters. *)
Record World : Type := mkWorld {
  db : Db;
  issued : list (string * string * list Value)
}.

(** [await connection.pool.query(sql, params)] *)
Definition query (w : World) (connection : Connection) (sql : string)
    (params : list Value) : World * QueryOutcome :=
  let '(db', outcome) := poolQuery (db w) (pool connection) sql params in
  (mkWorld db' (issued w ++ [(pool connection, sql, params)])%list, outcome).

Definition failure (message : string) : ModificationResult :=
  mkResult false 0 [message] [].

Definition emptyResult : ModificationResult := mkResult true 0 [] [].

(** [rowCount ?? 0] *)
Definition orZero (rowCount : option N) : N :=
  match rowCount with Some n => n | None => 0%N end.

(** [`${change.type} row ${change.rowIndex}: ${message}`] *)
Definition errorLine (change : RowChange) (message : string) : string :=
  typeName (type change) ++ " row " ++ showZ (rowIndex change) ++ ": "
    ++ message.

(** One iteration of [for (const change of sortedChanges)]. *)
Definition applyChange (connection : Connection) (tableName : string)
    (primaryKeyColumns : list string) (columns : list ColumnInfo)
    (acc : ModificationResult * World) (change : RowChange)
    : ModificationResult * World :=
  let '(result, w) := acc in
  let '(sql, params) := buildSql tableName primaryKeyColumns columns change in
  let executed := (executedSql result ++ [formatSqlWithParams sql params])%list in
  match query w connection sql params with
  | (w', Resolved rowCount) =>
      (mkResult (success result) (affectedRows result + orZero rowCount)
         (errors result) executed, w')
  | (w', Rejected message) =>
      (mkResult false (affectedRows result)
         (errors result ++ [errorLine change message])%list executed, w')
  end.

Definition sortedChanges (changes : list RowChange) : list RowChange :=
  sortBy compareChanges changes.

Definition applyChanges (manager : ConnectionManager)
    (changes : list RowChange) (columns : list ColumnInfo)
    (tableName : string) (primaryKeyColumns : list string)
    (connectionId : option string) (w : World)
    : ModificationResult * World :=
  match resolveConnection manager connectionId with
  | None => (failure "No active database connection", w)
  | Some connection =>
      if (List.length primaryKeyColumns =? 0)%nat
      then (failure "Cannot modify data without primary key columns defined", w)
      else
        fold_left (applyChange connection tableName primaryKeyColumns columns)
          (sortedChanges changes) (emptyResult, w)
  end.

End ApplyChanges.

(** The display literal of parameter [$i]. *)
Definition literalOf `{Host} (params : list Value) (i : nat) : string :=
  formatValueForSql (nth (i - 1) params VUndefined).

(** ** The query executor ([QueryExecutor]) *)

Record QueryHistoryItem : Type := mkHistoryItem {
  hId : string;
  hSql : string;
  hConnectionId : string;
  hTimestamp : Z;
  hDuration : Z;
  hRowCount : N;
  hError : option string
}.

(** A client checked out of a pool. *)
Record PoolClient : Type := mkClient {
  clientPool : string;
  clientNo : nat
}.

Record ActiveQuery : Type := mkActive {
  client : PoolClient;
  pid : Z;
  connectionId : string;
  cancelled : bool
}.

(** A column description as the driver reports it. *)
Record Field : Type := mkField {
  fieldName : string;
  dataTypeID : Z
}.

Definition getDataTypeName (oid : Z) : string :=
  if (oid =? 16)%Z then "boolean"
  else if (oid =? 20)%Z then "bigint"
  else if (oid =? 21)%Z then "smallint"
  else if (oid =? 23)%Z then "integer"
  else if (oid =? 25)%Z then "text"
  else if (oid =? 700)%Z then "real"
  else if (oid =? 701)%Z then "double precision"
  else if (oid =? 1043)%Z then "varchar"
  else if (oid =? 1082)%Z then "date"
  else if (oid =? 1083)%Z then "time"
  else if (oid =? 1114)%Z then "timestamp"
  else if (oid =? 1184)%Z then "timestamptz"
  else if (oid =? 2950)%Z then "uuid"
  else if (oid =? 3802)%Z then "jsonb"
  else if (oid =? 114)%Z then "json"
  else "unknown".

(** [max: 5] in the pool configuration of [ConnectionManager.connect]. *)
Definition poolMax : nat := 5.

Definition maxHistoryItems : nat := 100.

Section QueryExecutor.
Context `{Host}.

Record QueryResult : Type := mkQueryResult {
  columns : list ColumnInfo;
  rows : list Row;
  rowCount : N;
  duration : Z;
  error : option string
}.

(** What the driver resolves a statement with. *)
Record PgQueryResult : Type := mkPgResult {
  fields : option (list Field);
  pgRows : option (list Row);
  pgRowCount : option N
}.

(** The executor: its fields, the [pgsql.queryRunning] context key, the
    history events fired, the number of clients checked out of each pool
    and the backend pids for which a cancel request was sent. *)
Record Executor : Type := mkExecutor {
  queryHistory : list QueryHistoryItem;
  activeQuery : option ActiveQuery;
  queryRunning : bool;
  fired : list QueryHistoryItem;
  checkedOut : gmap string nat;
  cancelSent : list Z
}.

(** What happens at the points where one call of [execute] waits: the two
    readings of the clock, the driver's answers to [connect], to the pid
    query and to the statement (a rejection is given by its message), the
    cancellation requests that arrive while the statement is running (each
    with whether its [pg_cancel_backend] call resolved) and the id
    generated for the history item. *)
Record Run : Type := mkRun {
  startTime : Z;
  connectOutcome : option string;
  pidOutcome : Z + string;
  cancelRequests : list bool;
  statementOutcome : PgQueryResult + string;
  endTime : Z;
  newId : string
}.

Inductive Outcome : Type :=
| Returned (r : QueryResult)
| Threw (message : string).

Definition inUse (e : Executor) (p : string) : nat :=
  default 0%nat (checkedOut e !! p).

Definition addToHistory (e : Executor) (item : QueryHistoryItem) : Executor :=
  let unshifted := item :: queryHistory e in
  let history :=
    if (maxHistoryItems <? List.length unshifted)%nat
    then removelast unshifted else unshifted in
  mkExecutor history (activeQuery e) (queryRunning e)
    (fired e ++ [item])%list (checkedOut e) (cancelSent e).

(** [await connection.pool.connect()]: a pool with all its clients checked
    out does not hand out another one; otherwise the driver's answer
    decides. *)
Definition connect (e : Executor) (connection : Connection)
    (answer : option string) : Executor * (PoolClient + string) :=
  let p := pool connection in
  if (inUse e p <? poolMax)%nat then
    match answer with
    | None =>
        (mkExecutor (queryHistory e) (activeQuery e) (queryRunning e)
           (fired e) (<[p := S (inUse e p)]> (checkedOut e)) (cancelSent e),
         inl (mkClient p (inUse e p)))
    | Some message => (e, inr message)
    end
  else (e, inr "timeout exceeded when trying to connect").

(** [client.release()] *)
Definition release (e : Executor) (c : option PoolClient) : gmap string nat :=
  match c with
  | Some cl => <[clientPool cl := Nat.pred (inUse e (clientPool cl))]> (checkedOut e)
  | None => checkedOut e
  end.

Definition cancelCurrentQuery (manager : ConnectionManager) (e : Executor)
    (sendResolved : bool) : Executor * bool :=
  match activeQuery e with
  | None => (e, false)
  | Some aq =>
      if cancelled aq then (e, false)
      else
        let marked := Some (mkActive (client aq) (pid aq) (connectionId aq) true) in
        match getConnection manager (connectionId aq) with
        | Some _ =>
            if sendResolved
            then (mkExecutor (queryHistory e) marked (queryRunning e) (fired e)
                    (checkedOut e) (cancelSent e ++ [pid aq])%list, true)
            else (mkExecutor (queryHistory e) marked (queryRunning e) (fired e)
                    (checkedOut e) (cancelSent e), false)
        | None =>
            (mkExecutor (queryHistory e) marked (queryRunning e) (fired e)
               (checkedOut e) (cancelSent e), false)
        end
  end.

(** The outer [finally]. *)
Definition finish (e : Executor) (c : option PoolClient) : Executor :=
  mkExecutor (queryHistory e) None false (fired e) (release e c) (cancelSent e).

Definition cancellationMessage : string := "Query cancelled by user".

(** [this.activeQuery?.cancelled] *)
Definition markedCancelled (e : Executor) : bool :=
  match activeQuery e with Some aq => cancelled aq | None => false end.

Definition wasCancelled (e : Executor) (errorMessage : string) : bool :=
  markedCancelled e
  || includes errorMessage "canceling statement due to user request"
  || includes errorMessage "57014".

(** The [catch] block followed by the outer [finally]. *)
Definition failed (e : Executor) (c : option PoolClient) (sql : string)
    (connection : Connection) (run : Run) (errorMessage : string)
    : Executor * Outcome :=
  let duration := (endTime run - startTime run)%Z in
  if wasCancelled e errorMessage
  then (finish e c,
        Returned (mkQueryResult [] [] 0 duration (Some cancellationMessage)))
  else (finish
          (addToHistory e
             (mkHistoryItem (newId run) sql (id connection) (endTime run)
                duration 0 (Some errorMessage))) c,
        Threw errorMessage).

(** The statement resolved: build the result and record it. *)
Definition succeeded (e : Executor) (c : option PoolClient) (sql : string)
    (connection : Connection) (run : Run) (pgResult : PgQueryResult)
    : Executor * Outcome :=
  let duration := (endTime run - startTime run)%Z in
  let columns :=
    match fields pgResult with
    | Some fs =>
        List.map (fun f => mkColumn (fieldName f)
                             (getDataTypeName (dataTypeID f)) (dataTypeID f)) fs
    | None => []
    end in
  let result :=
    mkQueryResult columns (default [] (pgRows pgResult))
      (default 0%N (pgRowCount pgResult)) duration None in
  (finish
     (addToHistory e
        (mkHistoryItem (newId run) sql (id connection) (endTime run) duration
           (rowCount result) None)) c,
   Returned result).

(** The statement is about to run: [this.activeQuery = {...}] and the
    context key is set. *)
Definition started (e : Executor) (c : PoolClient) (p : Z)
    (connection : Connection) : Executor :=
  mkExecutor (queryHistory e) (Some (mkActive c p (id connection) false)) true
    (fired e) (checkedOut e) (cancelSent e).

(** The cancellation requests that arrive while the statement runs, from
    the cancel command or the cancellation token. *)
Definition whileRunning (manager : ConnectionManager) (requests : list bool)
    (e : Executor) : Executor :=
  fold_left (fun e' sent => fst (cancelCurrentQuery manager e' sent)) requests e.

Definition execute (manager : ConnectionManager) (sql : string)
    (connectionId : option string) (run : Run) (e : Executor)
    : Executor * Outcome :=
  match resolveConnection manager connectionId with
  | None => (e, Threw "No active database connection")
  | Some connection =>
      match connect e connection (connectOutcome run) with
      | (e1, inr message) => failed e1 None sql connection run message
      | (e1, inl c) =>
          match pidOutcome run with
          | inr message => failed e1 (Some c) sql connection run message
          | inl p =>
              let e2 := started e1 c p connection in
              let e3 := whileRunning manager (cancelRequests run) e2 in
              match statementOutcome run with
              | inl pgResult => succeeded e3 (Some c) sql connection run pgResult
              | inr message => failed e3 (Some c) sql connection run message
              end
          end
      end
  end.

End QueryExecutor.

(** ** Auxiliary functions used in the proofs about matching *)

(** No atom of the expression matches the character [x]. *)
Fixpoint avoids (ic : bool) (x : ascii) (re : regex) : bool :=
  match re with
  | Empty | WordBoundary | EndOfInput => true
  | Lit c => negb (charEq ic c x)
  | Class p | Many p _ => negb (p x)
  | Seq a b | Alt a b => avoids ic x a && avoids ic x b
  | Opt a => avoids ic x a
  end.

(** Every match of the expression ends at the end of the input. *)
Fixpoint anchored (re : regex) : bool :=
  match re with
  | EndOfInput => true
  | Seq a b => anchored a || anchored b
  | Alt a b => anchored a && anchored b
  | _ => false
  end.

(** The expression may match without consuming a character. *)
Fixpoint nullable (re : regex) : bool :=
  match re with
  | Empty | WordBoundary | EndOfInput | Opt _ => true
  | Lit _ | Class _ => false
  | Many _ min => (min =? 0)%nat
  | Seq a b => nullable a && nullable b
  | Alt a b => nullable a || nullable b
  end.

Fixpoint occurs (x : ascii) (s : string) : bool :=
  match s with
  | EmptyString => false
  | String c r => Ascii.eqb x c || occurs x r
  end.

Fixpoint lastChar (prev : option ascii) (s : string) : option ascii :=
  match s with
  | EmptyString => prev
  | String c r => lastChar (Some c) r
  end.

Fixpoint allChars (p : ascii -> bool) (s : string) : bool :=
  match s with
  | EmptyString => true
  | String c r => p c && allChars p r
  end.

(** A non-empty run of characters of a class. *)
Definition isRun (p : ascii -> bool) (s : string) : bool :=
  truthy s && allChars p s.

(** ** Statement texts with placeholders

    The shape of the statements the builders produce: some text, then
    placeholders [$i], each followed by some text. *)

Definition Template : Type := (string * list (nat * string))%type.

Definition placeholderText (i : nat) : string := "$" ++ showN (N.of_nat i).

Fixpoint slots (f : nat -> string) (l : list (nat * string)) : string :=
  match l with
  | [] => EmptyString
  | (i, t) :: r => f i ++ t ++ slots f r
  end.

(** The statement text. *)
Definition render (tpl : Template) : string :=
  fst tpl ++ slots placeholderText (snd tpl).

(** The text in which the placeholders above [k] have been replaced. *)
Definition partly (literal : nat -> string) (k i : nat) : string :=
  if (k <? i)%nat then literal i else placeholderText i.

Definition filledAbove (literal : nat -> string) (k : nat) (tpl : Template)
    : string :=
  fst tpl ++ slots (partly literal k) (snd tpl).

(** The text in which every placeholder has been replaced. *)
Definition filled (literal : nat -> string) (tpl : Template) : string :=
  fst tpl ++ slots literal (snd tpl).

(** The texts hold no dollar sign, the indices are within [1..n], and a
    placeholder is followed by a character that is not a word character,
    or by nothing when it ends the statement. *)
Fixpoint slotsOk (n : nat) (l : list (nat * string)) : bool :=
  match l with
  | [] => true
  | (i, t) :: r =>
      (1 <=? i)%nat && (i <=? n)%nat && negb (occurs "$" t)
      && negb (isWordOpt (headChar t))
      && (truthy t || match r with [] => true | _ => false end)
      && slotsOk n r
  end.

Definition templateOk (n : nat) (tpl : Template) : bool :=
  negb (occurs "$" (fst tpl)) && slotsOk n (snd tpl).

(** ** Auxiliary functions used in the proofs about normalisation *)

(** Whitespace runs replaced by one space, written as a direct recursion;
    [inRun] tells whether the previous character was whitespace. *)
Fixpoint collapse (inRun : bool) (s : string) : string :=
  match s with
  | EmptyString => EmptyString
  | String c r =>
      if isWhiteSpace c
      then if inRun then collapse true r else String " " (collapse true r)
      else String c (collapse false r)
  end.

(** Is the last character whitespace ([b] for the empty string). *)
Fixpoint lastWs (b : bool) (s : string) : bool :=
  match s with
  | EmptyString => b
  | String c r => lastWs (isWhiteSpace c) r
  end.

(** The number of whitespace characters a string starts with. *)
Fixpoint leadingWs (s : string) : nat :=
  match s with
  | EmptyString => O
  | String c r => if isWhiteSpace c then S (leadingWs r) else O
  end.

Definition startsWs (s : string) : bool :=
  match s with EmptyString => false | String c _ => isWhiteSpace c end.

(** A keyword as the normalised text shows it: it starts and ends with a
    character that is not whitespace. *)
Definition tidy (s : string) : bool :=
  truthy s && negb (startsWs s) && negb (lastWs false s).

(** ** A host and a server to run the definitions on examples

    Numbers are integers, objects are carried as their JSON text, and the
    server answers the statements it receives from a script.  The general
    theorems below hold for every host and server. *)

Definition sampleHost : Host := {|
  Num := Z;
  Obj := string;
  numberToString := showZ;
  numberOfString := fun s => option_map Z.of_int (NilZero.int_of_string s);
  jsonParse := fun s => if s =? "null" then Some VNull else None;
  jsonStringify := fun o => o
|}.

Definition scriptedServer : @Server sampleHost := {|
  Db := list QueryOutcome;
  poolQuery := fun script _ _ _ =>
    match script with
    | answer :: later => (later, answer)
    | [] => ([], Resolved (Some 1%N))
    end
|}.

(** ** Readings of the specification used to state the claims *)

(** "Starts with the keyword as a whole word", after whitespace
    normalisation and case folding: the normalised text begins with the
    keyword, and what follows the keyword is not a word character. *)
Fixpoint dropChars (n : nat) (s : string) : string :=
  match n, s with
  | S k, String _ r => dropChars k r
  | _, _ => s
  end.

Definition startsWithWord (keyword sql : string) : bool :=
  let normalizedSql := normalizeSql sql in
  prefix keyword normalizedSql
  && negb (isWordOpt (headChar (dropChars (String.length keyword) normalizedSql))).

(** Does the text hold a character that is not whitespace. *)
Fixpoint hasText (s : string) : bool :=
  match s with
  | EmptyString => false
  | String c r => negb (isWhiteSpace c) || hasText r
  end.

Definition allWhiteSpace (s : string) : Prop := hasText s = false.

Definition someText (s : string) : Prop := hasText s = true.

(** The text reads as the keyword: once its whitespace runs are collapsed
    to single spaces and its letters upper-cased, it is the keyword. *)
Definition reads (keyword kw : string) : Prop :=
  toUpperCase (collapse false kw) = keyword.

(** The statement begins, after leading whitespace, with the keyword,
    followed by a whitespace character and further text. *)
Definition leadsWith (keyword sql : string) : Prop :=
  exists pre kw w rest,
    sql = pre ++ kw ++ String w rest /\ allWhiteSpace pre
    /\ reads keyword kw /\ isWhiteSpace w = true /\ someText rest.

(** The statement is the keyword alone, up to surrounding whitespace. *)
Definition isOnly (keyword sql : string) : Prop :=
  exists pre kw post,
    sql = pre ++ kw ++ post /\ allWhiteSpace pre /\ reads keyword kw
    /\ allWhiteSpace post.

Definition num (z : Z) : @Value sampleHost := VNumber (z : @Num sampleHost).
Definition str (s : string) : @Value sampleHost := VString s.

Definition sampleColumns : list ColumnInfo :=
  [ mkColumn "id" "integer" 23; mkColumn "name" "text" 25;
    mkColumn "active" "boolean" 16 ].

Definition sampleConnection : Connection :=
  mkConnection "c1" "local" "pool-c1" true.

Definition sampleManager : ConnectionManager :=
  mkManager {[ "c1" := sampleConnection ]} None.

Section ReconcilerReadings.
Context `{Server}.

(** The statement sent to the pool for one change. *)
Definition statementOf (connection : Connection) (tableName : string)
    (primaryKeyColumns : list string) (columns : list ColumnInfo)
    (change : RowChange) : string * string * list Value :=
  let '(sql, params) := buildSql tableName primaryKeyColumns columns change in
  (pool connection, sql, params).

(** The answers of the server when the statements of the given changes are
    sent one after the other, starting in world [w]. *)
Fixpoint answers (connection : Connection) (tableName : string)
    (primaryKeyColumns : list string) (columns : list ColumnInfo)
    (changes : list RowChange) (w : World)
    : list (RowChange * QueryOutcome) :=
  match changes with
  | [] => []
  | change :: later =>
      let '(sql, params) :=
        buildSql tableName primaryKeyColumns columns change in
      let '(w', outcome) := query w connection sql params in
      (change, outcome)
        :: answers connection tableName primaryKeyColumns columns later w'
  end.

(** The three kinds of change as the specification names them. *)
Definition kindName (change : RowChange) : string :=
  match change with
  | Update _ _ _ _ => "update"
  | Insert _ _ => "insert"
  | Delete _ _ => "delete"
  end.

(** The error line the specification asks for when a statement is
    rejected: the kind of the change, its row index and the message of
    the server; a resolved statement contributes no line. *)
Definition errorOf (answer : RowChange * QueryOutcome) : list string :=
  match answer with
  | (change, Rejected message) =>
      [kindName change ++ " row " ++ showZ (rowIndex change) ++ ": "
         ++ message]
  | (_, Resolved _) => []
  end.

(** The affected-row count reported for a statement: the count the server
    gave for a resolved statement; a statement resolved without a count,
    or rejected, contributes no rows. *)
Definition rowsOf (answer : RowChange * QueryOutcome) : N :=
  match answer with
  | (_, Resolved (Some reported)) => reported
  | (_, Resolved None) => 0%N
  | (_, Rejected _) => 0%N
  end.

Definition resolved (answer : RowChange * QueryOutcome) : Prop :=
  exists rowCount, snd answer = Resolved rowCount.

Definition total (l : list N) : N := fold_right N.add 0%N l.

(** Changes of one kind with one row index. *)
Definition sameKey (t : ChangeType) (i : Z) (c : RowChange) : bool :=
  (order (type c) =? order t)%Z && (rowIndex c =? i)%Z.

Definition descending (a b : RowChange) : Prop := (rowIndex b <= rowIndex a)%Z.
Definition ascending (a b : RowChange) : Prop := (rowIndex a <= rowIndex b)%Z.

(** The order as the specification words it: deletes by descending row
    index, updates by ascending row index, inserts as supplied. *)
Definition claimedOrder (changes : list RowChange) : list RowChange :=
  (sortBy (fun a b => rowIndex b - rowIndex a)%Z (List.filter isDelete changes)
   ++ sortBy (fun a b => rowIndex a - rowIndex b)%Z (List.filter isUpdate changes)
   ++ List.filter isInsert changes)%list.

End ReconcilerReadings.

Definition sampleWorld (script : list QueryOutcome) : @World sampleHost scriptedServer :=
  @mkWorld sampleHost scriptedServer script [].

(** The scenario of the specification: an update of row 0, an insert and a
    delete of row 5. *)
Definition sampleChanges : list (@RowChange sampleHost) :=
  [ Update 0 [("id", num 1); ("name", str "A")]
      [("id", num 1); ("name", str "B")] ["name"];
    Insert (-1) [("name", str "C")];
    Delete 5 [("id", num 6); ("name", str "F")] ].

(** Two new rows, in the order in which the result view creates and
    supplies them: its temporary row ids count down from -1. *)
Definition sampleInserts : list (@RowChange sampleHost) :=
  [ Insert (-1) [("name", str "A")]; Insert (-2) [("name", str "B")] ].

Definition idleExecutor : @Executor :=
  mkExecutor [] None false [] ∅ [].

(** A run in which the user asks for cancellation while the statement is
    running, the cancel request is sent, and the statement nevertheless
    resolves. *)
Definition lateCancelRun : @Run sampleHost :=
  mkRun 1000 None (inl 4242%Z) [true]
    (inl (mkPgResult (Some [mkField "n" 23]) (Some [[("n", num 1)]])
            (Some 1%N)))
    1005 "query_1".

(** A run in which the statement is rejected after such a request. *)
Definition cancelledRun : @Run sampleHost :=
  mkRun 1000 None (inl 4242%Z) [true]
    (inr "canceling statement due to user request") 1005 "query_1".

Definition plainRun : @Run sampleHost :=
  mkRun 2000 None (inl 4243%Z) []
    (inl (mkPgResult (Some [mkField "n" 23]) (Some [[("n", num 1)]])
            (Some 1%N)))
    2005 "query_2".

(** ** Auxiliary functions used in the proofs about scanning *)

(** Every occurrence of the character [x] replaced by the text [repl]. *)
Fixpoint substChar (x : ascii) (repl : string) (s : string) : string :=
  match s with
  | EmptyString => EmptyString
  | String c r => (if Ascii.eqb x c then repl else String c EmptyString)
                    ++ substChar x repl r
  end.

(** A character that neither opens a string nor can be part of a comment
    marker. *)
Definition isPlainChar (c : ascii) : bool :=
  negb (isQuote c) && negb (Ascii.eqb c "-") && negb (Ascii.eqb c "/").

(** ** The statement at the cursor ([findSqlAtCursor]) *)

(** [while (currentOffset < text.length && /\s/.test(text[currentOffset]))
    currentOffset++], where [rest] is the text from [currentOffset] on. *)
Fixpoint skipWhiteSpace (rest : string) (currentOffset : nat) : nat :=
  match rest with
  | String c r =>
      if isWhiteSpace c then skipWhiteSpace r (S currentOffset)
      else currentOffset
  | EmptyString => currentOffset
  end.

(** The loop over the statements; [text] is [document.getText()] and
    [offset] is [document.offsetAt(position)]. *)
Fixpoint findLoop (text : string) (offset : nat) (statements : list string)
    (currentOffset : nat) : option string :=
  match statements with
  | [] => None
  | statement :: later =>
      let statementStart := currentOffset in
      let statementEnd := (currentOffset + String.length statement)%nat in
      if (statementStart <=? offset)%nat && (offset <=? statementEnd)%nat
      then Some (trim statement)
      else
        let currentOffset := statementEnd in
        let currentOffset :=
          if charIs ";" (String.get currentOffset text)
          then S currentOffset else currentOffset in
        findLoop text offset later
          (skipWhiteSpace (dropChars currentOffset text) currentOffset)
  end.

Definition findSqlAtCursor (text : string) (offset : nat) : string :=
  match findLoop text offset (splitSqlStatements text) 0 with
  | Some statement => statement
  | None => trim text
  end.

(** ** The statement handed to the executor ([executeQueryCommand])

    The steps of the command between reading the text from the editor
    (the selection, or the statement at the cursor) and calling the
    executor.  [confirm] is the answer of the user to the confirmation
    dialog for a statement; [None] stands for the early returns, in which
    nothing is executed. *)
Record Prepared : Type := mkPrepared {
  toExecute : string;
  originalSql : string;
  isLimited : bool;
  multipleStatements : bool
}.

Definition prepareSql (editorText : string) (confirm : string -> bool)
    : option Prepared :=
  let sql := trim (stripSqlComments editorText) in
  if negb (truthy sql) then None
  else
    let statements := splitSqlStatements sql in
    let multiple := (1 <? List.length statements)%nat in
    let sql := if multiple then trim (nth 0 statements EmptyString) else sql in
    if isModificationQuery sql && negb (confirm sql) then None
    else
      let originalSql := sql in
      let '(sql, isLimited) := capRows sql in
      Some (mkPrepared sql originalSql isLimited multiple).

(** [isLimited && result.rowCount >= 100] *)
Definition hasMoreData (p : Prepared) (rowCount : N) : bool :=
  isLimited p && (100 <=? rowCount)%N.

(** ** Primary key detection ([detectPrimaryKeyColumns]) *)

Definition pkCandidates : list string := ["id"; "pk"; "key"; "uuid"].

(** The callback handed to [columns.find] for one candidate. *)
Definition isCandidate (candidate : string) (c : ColumnInfo) : bool :=
  (toLowerCase (name c) =? candidate)
  || endsWith (toLowerCase (name c)) "_id".

(** [for (const candidate of pkCandidates)] *)
Fixpoint detectLoop (candidates : list string) (columns : list ColumnInfo)
    : list string :=
  match candidates with
  | [] => []
  | candidate :: later =>
      match List.find (isCandidate candidate) columns with
      | Some found => [name found]
      | None => detectLoop later columns
      end
  end.

(** The optional [tableName] is not used by the function. *)
Definition detectPrimaryKeyColumns (columns : list ColumnInfo)
    (tableName : option string) : list string :=
  detectLoop pkCandidates columns.

(** A column named [k], letter case apart. *)
Definition named (k : string) (c : ColumnInfo) : bool :=
  toLowerCase (name c) =? k.

(** A column named [id], or whose name ends in [_id], letter case apart. *)
Definition idLike (c : ColumnInfo) : bool :=
  named "id" c || endsWith (toLowerCase (name c)) "_id".

(** ** Auxiliary functions used in the proofs about the statement builders *)

(** A statement text cut at its placeholders. *)
Inductive Piece : Type :=
| Text (t : string)
| Slot (i : nat).

(** The text of the pieces, each placeholder [i] written as [f i]. *)
Fixpoint showPieces (f : nat -> string) (l : list Piece) : string :=
  match l with
  | [] => EmptyString
  | Text t :: r => t ++ showPieces f r
  | Slot i :: r => f i ++ showPieces f r
  end.

Fixpoint templateOf (l : list Piece) : Template :=
  match l with
  | [] => (EmptyString, [])
  | Text t :: r => let '(h, s) := templateOf r in (t ++ h, s)
  | Slot i :: r => let '(h, s) := templateOf r in (EmptyString, (i, h) :: s)
  end.

(** A text that may follow a placeholder: it is not empty and does not
    start with a word character. *)
Definition separates (t : string) : bool :=
  truthy t && negb (isWordOpt (headChar t)).

(** The texts hold no dollar sign, the placeholders are within [1..n] and
    each is followed by a separating text or by nothing. *)
Fixpoint piecesOk (n : nat) (l : list Piece) : bool :=
  match l with
  | [] => true
  | Text t :: r => negb (occurs "$" t) && piecesOk n r
  | Slot i :: r =>
      (1 <=? i)%nat && (i <=? n)%nat
      && match r with
         | [] => true
         | Text t :: _ => separates t
         | Slot _ :: _ => false
         end
      && piecesOk n r
  end.

(** What may stand after a placeholder. *)
Definition startsOk (l : list Piece) : bool :=
  match l with
  | [] => true
  | Text t :: _ => separates t
  | Slot _ :: _ => false
  end.

Fixpoint joinPieces (sep : string) (l : list (list Piece)) : list Piece :=
  match l with
  | [] => []
  | [x] => x
  | x :: r => (x ++ Text sep :: joinPieces sep r)%list
  end.

Definition equalsPieces (col : string) (k : nat) : list Piece :=
  [Text (quoted col ++ " = "); Slot k].

Fixpoint setPieces (k : nat) (cols : list string) : list (list Piece) :=
  match cols with
  | [] => []
  | col :: r => equalsPieces col k :: setPieces (S k) r
  end.

Section BuilderReadings.
Context `{Host}.

(** The value bound for a column of a row. *)
Definition bound (columns : list ColumnInfo) (row : Row) (col : string)
    : Value :=
  convertValue (getField row col) (findColumn columns col).

(** The key columns whose original value is neither null nor undefined. *)
Definition keyed (originalData : Row) (primaryKeyColumns : list string)
    : list string :=
  List.filter (fun col => negb (isNullish (getField originalData col)))
    primaryKeyColumns.

(** The entries of a new row that are inserted: those whose value is
    neither undefined nor the empty string. *)
Definition supplied (newData : Row) : Row :=
  List.filter
    (fun e => match snd e with
              | VUndefined => false
              | v => negb (isEmptyString v)
              end) newData.

Fixpoint wherePieces (originalData : Row) (k : nat) (cols : list string)
    : list (list Piece) :=
  match cols with
  | [] => []
  | col :: r =>
      if isNullish (getField originalData col)
      then [Text (quoted col ++ " IS NULL")] :: wherePieces originalData k r
      else equalsPieces col k :: wherePieces originalData (S k) r
  end.

(** The statement of a change, cut at its placeholders. *)
Definition piecesOf (tableName : string) (primaryKeyColumns : list string)
    (change : RowChange) : list Piece :=
  match change with
  | Update _ originalData _ modifiedColumns =>
      (Text ("UPDATE " ++ tableName ++ " SET ")
       :: joinPieces ", " (setPieces 1 modifiedColumns)
       ++ Text " WHERE "
       :: joinPieces " AND "
            (wherePieces originalData (1 + List.length modifiedColumns)
               primaryKeyColumns))%list
  | Insert _ newData =>
      (Text ("INSERT INTO " ++ tableName ++ " ("
             ++ join ", " (List.map (fun e => quoted (fst e)) (supplied newData))
             ++ ") VALUES (")
       :: joinPieces ", "
            (List.map (fun k => [Slot k])
               (List.seq 1 (List.length (supplied newData))))
       ++ [Text ")"])%list
  | Delete _ originalData =>
      Text ("DELETE FROM " ++ tableName ++ " WHERE ")
      :: joinPieces " AND " (wherePieces originalData 1 primaryKeyColumns)
  end.

(** The names that a change writes into its statement. *)
Definition namesOf (primaryKeyColumns : list string) (change : RowChange)
    : list string :=
  match change with
  | Update _ _ _ modifiedColumns => (modifiedColumns ++ primaryKeyColumns)%list
  | Insert _ newData => List.map fst (supplied newData)
  | Delete _ _ => primaryKeyColumns
  end.

End BuilderReadings.

(** The audit text of a change: its statement formatted with its
    parameters. *)
Definition auditOf `{Host} (tableName : string)
    (primaryKeyColumns : list string) (columns : list ColumnInfo)
    (change : RowChange) : string :=
  let '(sql, params) := buildSql tableName primaryKeyColumns columns change in
  formatSqlWithParams sql params.

(** ** The query executor: history and state queries *)

(** [isQueryRunning] *)
Definition isQueryRunning (e : Executor) : bool :=
  match activeQuery e with Some _ => true | None => false end.

(** [recordInHistory]; [newId] is the id generated for the item and
    [timestamp] the clock reading of [new Date()]. *)
Definition recordInHistory (e : Executor) (newId : string) (timestamp : Z)
    (sql connectionId : string) (duration : Z) (rowCount : N)
    (error : option string) : Executor :=
  addToHistory e
    (mkHistoryItem newId sql connectionId timestamp duration rowCount error).

(** [getHistory] *)
Definition getHistory (e : Executor) : list QueryHistoryItem :=
  queryHistory e.

(** [clearHistory] *)
Definition clearHistory (e : Executor) : Executor :=
  mkExecutor [] (activeQuery e) (queryRunning e) (fired e) (checkedOut e)
    (cancelSent e).

(** The history after an item has been put in front of [history]:
    [unshift], then [pop] when the list has grown beyond the maximum. *)
Definition pushed (item : QueryHistoryItem) (history : list QueryHistoryItem)
    : list QueryHistoryItem :=
  if (maxHistoryItems <? List.length (item :: history))%nat
  then removelast (item :: history) else item :: history.

(** An executor whose history is full: [maxHistoryItems] items, the
    newest, numbered 0, in front and the oldest, numbered 99, last. *)
Definition numberedItem (k : nat) : QueryHistoryItem :=
  mkHistoryItem ("query_" ++ showN (N.of_nat k)) "SELECT 1" "c1" (Z.of_nat k)
    1 1 None.

Definition fullExecutor : Executor :=
  mkExecutor (List.map numberedItem (seq 0 maxHistoryItems)) None false []
    ∅ [].

Section ExecutorReadings.
Context `{Host}.

(** The rejection that ends a run, if there is one: the failure to hand
    out a client, else the failure of the pid query, else that of the
    statement; with it, whether a cancellation was requested while the
    statement was running, which cannot be before the statement runs. *)
Definition rejection (e : Executor) (connection : Connection) (run : Run)
    : option (string * bool) :=
  match connect e connection (connectOutcome run) with
  | (_, inr message) => Some (message, false)
  | (_, inl _) =>
      match pidOutcome run with
      | inr message => Some (message, false)
      | inl _ =>
          match statementOutcome run with
          | inr message =>
              Some (message,
                    match cancelRequests run with [] => false | _ => true end)
          | inl _ => None
          end
      end
  end.

End ExecutorReadings.

(** The messages that the executor takes for a cancellation. *)
Definition cancellationText (message : string) : bool :=
  includes message "canceling statement due to user request"
  || includes message "57014".

(** A run in which the server rejects the statement. *)
Definition rejectedRun : @Run sampleHost :=
  mkRun 3000 None (inl 4244%Z) [] (inr "syntax error at or near SELEC") 3005
    "query_3".

(** ** The connection manager: opening and closing connections *)

Module ConnectionConfig.
Record t : Type := make {
  id : string;
  name : string;
  host : string;
  port : Z;
  database : string;
  user : string;
  password : option string;
  ssl : option bool
}.
End ConnectionConfig.

(** What the manager fires: [onConnectionsChanged] and
    [onConnectionStatusChanged] with a connection id. *)
Inductive ManagerEvent : Type :=
| ConnectionsChanged
| ConnectionStatusChanged (connectionId : string).

(** The manager together with the events it has fired. *)
Record Managed : Type := mkManaged {
  manager : ConnectionManager;
  emitted : list ManagerEvent
}.

(** Every connection of the map is stored under its own id and is
    connected. *)
Definition wellFormed (m : ConnectionManager) : Prop :=
  forall cid c, connections m !! cid = Some c ->
                id c = cid /\ isConnected c = true.

Module Manager.

(** [connection.isConnected] *)
Definition flag (c : Connection) : bool := isConnected c.

(** [isConnected(id)]: [connection?.isConnected ?? false] *)
Definition isConnected (s : Managed) (cid : string) : bool :=
  match getConnection (manager s) cid with
  | Some connection => flag connection
  | None => false
  end.

(** [disconnect(id)]; [ended] is the outcome of [pool.end()], a rejection
    given by its message.  The result is the error thrown, if any.  The
    connection object, whose flag is cleared, leaves the map. *)
Definition disconnect (s : Managed) (cid : string) (ended : option string)
    : Managed * option string :=
  match getConnection (manager s) cid with
  | Some connection =>
      match ended with
      | Some message => (s, Some message)
      | None =>
          (mkManaged
             (mkManager (base.delete cid (connections (manager s)))
                (activeConnection (manager s)))
             (emitted s ++ [ConnectionsChanged; ConnectionStatusChanged cid])%list,
           None)
      end
  | None => (s, None)
  end.

(** The second half of [connect]: a new pool, named [newPool], is created
    and tested; [tested] is the outcome of [pool.connect()]. *)
Definition open (s : Managed) (config : ConnectionConfig.t) (newPool : string)
    (tested : option string) : Managed * (Connection + string) :=
  match tested with
  | Some message => (s, inr message)
  | None =>
      let connection :=
        mkConnection (ConnectionConfig.id config) (ConnectionConfig.name config)
          newPool true in
      (mkManaged
         (mkManager
            (<[ConnectionConfig.id config := connection]>
               (connections (manager s)))
            (activeConnection (manager s)))
         (emitted s
          ++ [ConnectionsChanged;
              ConnectionStatusChanged (ConnectionConfig.id config)])%list,
       inl connection)
  end.

(** [connect(config)] *)
Definition connect (s : Managed) (config : ConnectionConfig.t)
    (newPool : string) (ended tested : option string)
    : Managed * (Connection + string) :=
  match getConnection (manager s) (ConnectionConfig.id config) with
  | Some existing =>
      if flag existing then (s, inl existing)
      else
        match disconnect s (ConnectionConfig.id config) ended with
        | (s', Some message) => (s', inr message)
        | (s', None) => open s' config newPool tested
        end
  | None => open s config newPool tested
  end.

End Manager.

(** ** The connection of a document ([DocumentConnectionTracker]) *)

Record Document : Type := mkDocument {
  uri : string;
  languageId : string
}.

(** [onDocumentConnectionChanged] events: the document and the connection
    id, absent when the connection was cleared. *)
Record Tracker : Type := mkTracker {
  documentConnections : gmap string string;
  changed : list (Document * option string)
}.

Definition isSqlDocument (document : Document) : bool :=
  (languageId document =? "sql") || (languageId document =? "pgsql").

Definition setDocumentConnection (t : Tracker) (document : Document)
    (connectionId : string) : Tracker :=
  if negb (isSqlDocument document) then t
  else mkTracker (<[uri document := connectionId]> (documentConnections t))
         (changed t ++ [(document, Some connectionId)])%list.

Definition getDocumentConnectionId (t : Tracker) (document : Document)
    : option string :=
  documentConnections t !! uri document.

Definition getDocumentConnection (m : ConnectionManager) (t : Tracker)
    (document : Document) : option Connection :=
  match getDocumentConnectionId t document with
  | Some connectionId =>
      if truthy connectionId then getConnection m connectionId else None
  | None => None
  end.

Definition getEffectiveConnection (m : ConnectionManager) (t : Tracker)
    (document : Document) : option Connection :=
  getDocumentConnection m t document.

Definition hasDocumentConnection (t : Tracker) (document : Document) : bool :=
  match documentConnections t !! uri document with
  | Some _ => true
  | None => false
  end.

Definition clearDocumentConnection (t : Tracker) (document : Document)
    : Tracker :=
  if hasDocumentConnection t document
  then mkTracker (base.delete (uri document) (documentConnections t))
         (changed t ++ [(document, None)])%list
  else t.

(** The text that [updateStatusBar] shows for the document of the active
    editor; [None] when the item is hidden. *)
Definition statusText (m : ConnectionManager) (t : Tracker)
    (editor : option Document) : option string :=
  match editor with
  | None => None
  | Some document =>
      if negb (isSqlDocument document) then None
      else
        match getDocumentConnection m t document with
        | Some docConnection => Some ("$(link) " ++ configName docConnection)
        | None =>
            if hasDocumentConnection t document
            then Some "$(warning) Disconnected"
            else Some "$(plug) No Connection"
        end
  end.

(** ** The views: history labels and HTML escaping *)

(** [QueryHistoryTreeItem.truncateSql] *)
Definition truncateSql (sql : string) : string :=
  let normalized := trim (replaceAll false ws1 " " sql) in
  if (50 <? String.length normalized)%nat
  then substring 0 50 normalized ++ "..."
  else normalized.

(** A character of a one-line label: not whitespace, or a space. *)
Definition isLabelChar (c : ascii) : bool :=
  negb (isWhiteSpace c) || Ascii.eqb c " ".

(** [escapeHtml] of the result view, the table view and the sessions view:
    five global replacements, the ampersand first. *)
Definition escapeHtml (text : string) : string :=
  replaceAll false (Lit "'") "&#039;"
    (replaceAll false (Lit doubleQuote) "&quot;"
       (replaceAll false (Lit ">") "&gt;"
          (replaceAll false (Lit "<") "&lt;"
             (replaceAll false (Lit "&") "&amp;" text)))).

(** [escapeAttr] of the result view. *)
Definition escapeAttr (text : string) : string :=
  replaceAll false (Lit LF) "&#10;"
    (replaceAll false (Lit doubleQuote) "&quot;" text).

(** What [escapeHtml] writes for one character. *)
Definition escapeChar (c : ascii) : string :=
  if Ascii.eqb c "&" then "&amp;"
  else if Ascii.eqb c "<" then "&lt;"
  else if Ascii.eqb c ">" then "&gt;"
  else if Ascii.eqb c doubleQuote then "&quot;"
  else if Ascii.eqb c "'" then "&#039;"
  else String c EmptyString.

(** The characters of a text, each written as [escapeChar] writes it. *)
Fixpoint escapeAll (s : string) : string :=
  match s with
  | EmptyString => EmptyString
  | String c r => escapeChar c ++ escapeAll r
  end.

(** ** The export service *)

Section ExportService.
Context `{Host}.

(** [formatSqlValue] *)
Definition formatSqlValue (value : Value) : string :=
  match value with
  | VUndefined | VNull => "NULL"
  | VNumber n => numberToString n
  | VBool b => if b then "TRUE" else "FALSE"
  | VObject o => "'" ++ replaceAll false reQuote "''" (jsonStringify o) ++ "'"
  | VString s => "'" ++ replaceAll false reQuote "''" s ++ "'"
  end.

(** [formatValue] *)
Definition formatValue (value : Value) : string :=
  match value with
  | VUndefined | VNull => EmptyString
  | VObject o => jsonStringify o
  | VBool b => if b then "true" else "false"
  | VNumber n => numberToString n
  | VString s => s
  end.

End ExportService.

(** [escapeCsvField]; the replacement text is two double quotes. *)
Definition escapeCsvField (value : string) : string :=
  if includes value ","
     || includes value (String doubleQuote EmptyString)
     || includes value (String LF EmptyString)
  then String doubleQuote
         (replaceAll false (Lit doubleQuote)
            (String doubleQuote (String doubleQuote EmptyString)) value
          ++ String doubleQuote EmptyString)
  else value.

(** ** Saving the edits of the result view ([ResultsViewProvider]) *)

Record ResultsContext : Type := mkContext {
  tableName : option string;
  primaryKeyColumns : option (list string);
  contextConnectionId : option string
}.

(** What the view shows or fires while saving. *)
Inductive Notice : Type :=
| ErrorMessage (text : string)
| InformationMessage (text : string)
| WarningMessage (text : string)
| DataModified
| ChangesSaved.

(** [!!s] for an optional text. *)
Definition given (s : option string) : bool :=
  match s with Some t => truthy t | None => false end.

(** The clock readings and the id that one save consumes: [Date.now()]
    before and after [applyChanges], and for the history item its id and
    its [new Date()]. *)
Record SaveClock : Type := mkSaveClock {
  saveStart : Z;
  saveEnd : Z;
  historyId : string;
  historyTime : Z
}.


Section SaveChanges.
Context `{Server}.

(** [promptForTableInfo]: [answer] is what the user enters, the table
    name and the key columns picked; the context changes only when both
    are given. *)
Definition promptForTableInfo (context : ResultsContext)
    (answer : option string * option (list string))
    : ResultsContext * list Notice :=
  let '(enteredName, pkSelection) := answer in
  if negb (given enteredName) then (context, [])
  else
    match pkSelection with
    | Some (pk :: pks) =>
        (mkContext enteredName (Some (pk :: pks)) (contextConnectionId context),
         [])
    | _ =>
        (context, [WarningMessage "No primary key selected. Editing disabled."])
    end.

(** [saveChanges]; the optional fields of the provider are parameters:
    [view] tells whether a web view is attached, and the executor is
    absent when none was set. *)
Definition saveChanges (manager : ConnectionManager)
    (dataModificationService : bool) (currentResult : option QueryResult)
    (currentContext : option ResultsContext) (view : bool)
    (answer : option string * option (list string)) (clock : SaveClock)
    (changes : list RowChange) (w : World) (queryExecutor : option Executor)
    : World * option Executor * option ResultsContext * list Notice :=
  match dataModificationService, currentResult, currentContext with
  | true, Some result, Some context =>
      let '(context, notices) :=
        if negb (given (tableName context))
        then promptForTableInfo context answer
        else (context, []) in
      if negb (given (tableName context))
      then (w, queryExecutor, Some context, notices)
      else
        match primaryKeyColumns context with
        | Some (pk :: pks) =>
            let table := default EmptyString (tableName context) in
            let '(result', w') :=
              applyChanges manager changes (columns result) table (pk :: pks)
                (contextConnectionId context) w in
            let duration := (saveEnd clock - saveStart clock)%Z in
            let recorded :=
              match queryExecutor, contextConnectionId context with
              | Some e, Some cid =>
                  if truthy cid
                     && (0 <? List.length (executedSql result'))%nat
                  then
                    Some (recordInHistory e (historyId clock)
                            (historyTime clock)
                            (join (";" ++ String LF EmptyString)
                               (executedSql result'))
                            cid duration (affectedRows result')
                            (if success result' then None
                             else Some (join "; " (errors result'))))
                  else Some e
              | _, _ => queryExecutor
              end in
            (w', recorded, Some context,
             (notices
              ++ if success result'
                 then InformationMessage
                        ("Changes saved: " ++ showN (affectedRows result')
                         ++ " rows affected")
                      :: DataModified
                      :: (if view then [ChangesSaved] else [])
                 else [ErrorMessage
                         ("Failed to save changes:" ++ String LF EmptyString
                          ++ join (String LF EmptyString) (errors result'))])%list)
        | _ =>
            (w, queryExecutor, Some context,
             (notices
              ++ [ErrorMessage "Cannot save: no primary key columns defined"])%list)
        end
  | _, _, _ =>
      (w, queryExecutor, currentContext,
       [ErrorMessage "Cannot save: missing context"])
  end.

End SaveChanges.

Definition sampleContext : ResultsContext :=
  mkContext (Some "t") (Some ["id"]) (Some "c1").

Definition sampleClock : SaveClock := mkSaveClock 1000 1042 "query_1" 1042.

Definition sampleResult : @QueryResult sampleHost :=
  mkQueryResult sampleColumns [] 0 0 None.
(* ===================================================================== *)
(** * Part II.  Properties                                                *)
(* ===================================================================== *)

(** *** Basic facts about strings *)

#[local] Arguments String.append !_ _ /.

Lemma isWhiteSpace_upperChar (c : ascii) :
  isWhiteSpace (upperChar c) = isWhiteSpace c.
Proof. destruct c as [[] [] [] [] [] [] [] []]; reflexivity. Qed.

Lemma upperChar_space (c : ascii) : upperChar c = " "%char -> c = " "%char.
Proof.
  destruct c as [[] [] [] [] [] [] [] []]; vm_compute; intros E;
    try reflexivity; discriminate.
Qed.

Lemma append_nil_r (s : string) : s ++ "" = s.
Proof. induction s as [|c s IH]; simpl; [reflexivity | now rewrite IH]. Qed.

Lemma append_assoc (a b c : string) : (a ++ b) ++ c = a ++ (b ++ c).
Proof. induction a as [|x a IH]; simpl; [reflexivity | now rewrite IH]. Qed.

Lemma length_append (a b : string) :
  String.length (a ++ b) = (String.length a + String.length b)%nat.
Proof. induction a as [|x a IH]; simpl; [reflexivity | now rewrite IH]. Qed.

Lemma substring_all (s : string) : substring 0 (String.length s) s = s.
Proof. induction s as [|c s IH]; simpl; [reflexivity | now rewrite IH]. Qed.


Lemma substring_skip (a b : string) (m : nat) :
  substring (String.length a) m (a ++ b) = substring 0 m b.
Proof. induction a as [|x a IH]; simpl; [reflexivity | exact IH]. Qed.

Lemma substring_take (a b : string) :
  substring 0 (String.length a) (a ++ b) = a.
Proof.
  induction a as [|x a IH]; simpl.
  - destruct b; reflexivity.
  - now rewrite IH.
Qed.

Lemma substring_split (s : string) (n : nat) :
  (n <= String.length s)%nat ->
  substring 0 n s ++ substring n (String.length s - n) s = s.
Proof.
  revert n; induction s as [|c s IH]; intros [|n] Hn; simpl in *;
    try reflexivity; try lia.
  - now rewrite substring_all.
  - rewrite IH by lia. reflexivity.
Qed.

Lemma length_one (s : string) :
  String.length s = 1%nat -> exists c, s = String c "".
Proof.
  destruct s as [|c [|d s]]; simpl; intros E; try discriminate.
  now exists c.
Qed.

Lemma endsWith_append (body p : string) : endsWith (body ++ p) p = true.
Proof.
  unfold endsWith. rewrite length_append.
  apply andb_true_intro; split.
  - apply Nat.leb_le; lia.
  - replace (String.length body + String.length p - String.length p)%nat
      with (String.length body) by lia.
    rewrite substring_skip, substring_all. apply String.eqb_refl.
Qed.

Lemma endsWith_inv (s p : string) :
  endsWith s p = true -> exists body, s = body ++ p.
Proof.
  unfold endsWith; intros E. apply andb_prop in E as [Hle Heq].
  apply Nat.leb_le in Hle. apply String.eqb_eq in Heq.
  exists (substring 0 (String.length s - String.length p) s).
  pose proof (substring_split s (String.length s - String.length p)) as Hs.
  replace (String.length s - (String.length s - String.length p))%nat
    with (String.length p) in Hs by lia.
  rewrite Heq in Hs. symmetry. apply Hs. lia.
Qed.

Lemma sliceButLast_append (body : string) (c : ascii) :
  sliceButLast (body ++ String c "") = body.
Proof.
  unfold sliceButLast. rewrite length_append. simpl.
  replace (String.length body + 1 - 1)%nat with (String.length body) by lia.
  apply substring_take.
Qed.

(** Exactly one of the two cases of [addLimitClause] applies. *)
Lemma endsWith_semicolon_cases (t : string) :
  (exists body, t = body ++ ";") \/ endsWith t ";" = false.
Proof.
  destruct (endsWith t ";") eqn:E; [left | now right].
  now apply endsWith_inv.
Qed.

(** C3, counterexample.  A statement on which [hasLimitClause] is true is
    altered by [addLimitClause]. *)

(** ** Matching *)

Lemma occurs_append (x : ascii) (u v : string) :
  occurs x (u ++ v) = occurs x u || occurs x v.
Proof.
  induction u as [|c u IH]; simpl; [reflexivity|].
  now rewrite IH, orb_assoc.
Qed.

Lemma orElse_Some {A} (a b : option A) (r : A) :
  orElse a b = Some r -> a = Some r \/ b = Some r.
Proof. destruct a; simpl; auto. Qed.

(** A successful repetition of a class consumes characters of the class
    and hands the rest to the continuation. *)
Lemma many_consumes (p : ascii -> bool) (s : string) :
  forall min prev k r,
    many p min prev s k = Some r ->
    exists u v prev',
      s = u ++ v /\ allChars p u = true /\ k prev' v = Some r.
Proof.
  induction s as [|c s IH]; intros min prev k r E; simpl in E.
  - destruct min; [|discriminate]. now exists "", "", prev.
  - assert (match min with O => k prev (String c s) | S _ => None end = Some r
            -> exists u v prev',
                 String c s = u ++ v /\ allChars p u = true
                 /\ k prev' v = Some r) as Hstop.
    { destruct min; [|discriminate]. intros Hk.
      now exists "", (String c s), prev. }
    destruct (p c) eqn:Pc; [|now apply Hstop].
    apply orElse_Some in E as [E|E]; [|now apply Hstop].
    destruct (IH _ _ _ _ E) as (u & v & prev' & -> & Hu & Hk).
    exists (String c u), v, prev'. simpl. now rewrite Pc, Hu.
Qed.

Lemma allChars_occurs (p : ascii -> bool) (x : ascii) (u : string) :
  p x = false -> allChars p u = true -> occurs x u = false.
Proof.
  intros Hx. induction u as [|c u IH]; simpl; [reflexivity|].
  intros E. apply andb_prop in E as [Ec Eu]. rewrite (IH Eu), orb_false_r.
  destruct (Ascii.eqb_spec x c) as [->|]; [congruence | reflexivity].
Qed.

(** A match of an expression none of whose atoms matches [x] consumes a
    text in which [x] does not occur; if the expression is anchored, the
    continuation receives the empty text. *)
Lemma rmatch_consumes (ic : bool) (x : ascii) (re : regex) :
  avoids ic x re = true ->
  forall prev s k r,
    rmatch ic re prev s k = Some r ->
    exists u v prev',
      s = u ++ v /\ occurs x u = false /\ k prev' v = Some r
      /\ (anchored re = true -> v = "").
Proof.
  induction re as [|c|p|p min| | |a IHa b IHb|a IHa b IHb|a IHa];
    intros Hav prev s k r E; simpl in *.
  - exists "", s, prev. repeat split; auto. discriminate.
  - destruct s as [|d s]; [discriminate|].
    destruct (charEq ic c d) eqn:Ed; [|discriminate].
    exists (String d ""), s, (Some d). simpl.
    repeat split; auto; [|discriminate]. rewrite orb_false_r.
    destruct (Ascii.eqb_spec x d) as [->|]; [|reflexivity].
    rewrite Ed in Hav. discriminate.
  - destruct s as [|d s]; [discriminate|].
    destruct (p d) eqn:Pd; [|discriminate].
    exists (String d ""), s, (Some d). simpl.
    repeat split; auto; [|discriminate]. rewrite orb_false_r.
    destruct (Ascii.eqb_spec x d) as [->|]; [|reflexivity].
    rewrite Pd in Hav. discriminate.
  - apply many_consumes in E as (u & v & prev' & -> & Hu & Hk).
    exists u, v, prev'. repeat split; auto; [|discriminate].
    apply allChars_occurs with p; [now apply negb_true_iff | exact Hu].
  - destruct (xorb _ _); [|discriminate].
    exists "", s, prev. repeat split; auto. discriminate.
  - destruct s; [|discriminate]. now exists "", "", prev.
  - apply andb_prop in Hav as [Ha Hb].
    destruct (IHa Ha _ _ _ _ E) as (u1 & v1 & p1 & -> & Hu1 & E1 & Hanch1).
    destruct (IHb Hb _ _ _ _ E1) as (u2 & v2 & p2 & Hv1 & Hu2 & E2 & Hanch2).
    exists (u1 ++ u2), v2, p2. rewrite append_assoc, occurs_append, Hu1, Hu2.
    subst v1. repeat split; auto.
    intros H. apply orb_true_iff in H as [H|H]; [|now apply Hanch2].
    specialize (Hanch1 H). destruct u2; [exact Hanch1 | discriminate].
  - apply andb_prop in Hav as [Ha Hb].
    apply orElse_Some in E as [E|E].
    + destruct (IHa Ha _ _ _ _ E) as (u & v & p' & -> & Hu & Ek & Hanch).
      exists u, v, p'. repeat split; auto.
      intros H. apply andb_prop in H as [H _]. auto.
    + destruct (IHb Hb _ _ _ _ E) as (u & v & p' & -> & Hu & Ek & Hanch).
      exists u, v, p'. repeat split; auto.
      intros H. apply andb_prop in H as [_ H]. auto.
  - apply orElse_Some in E as [E|E].
    + destruct (IHa Hav _ _ _ _ E) as (u & v & p' & -> & Hu & Ek & _).
      exists u, v, p'. repeat split; auto. discriminate.
    + exists "", s, prev. repeat split; auto. discriminate.
Qed.

Lemma matchHere_avoids (ic : bool) (x : ascii) (re : regex)
    (prev : option ascii) (s rest : string) :
  avoids ic x re = true -> anchored re = true ->
  matchHere ic re prev s = Some rest -> occurs x s = false.
Proof.
  intros Hav Hanch E.
  destruct (rmatch_consumes ic x re Hav _ _ _ _ E)
    as (u & v & p' & -> & Hu & _ & Hv).
  rewrite (Hv Hanch), append_nil_r. exact Hu.
Qed.

(** On the empty text, a continuation that fails makes the match fail, and
    an expression that needs a character fails. *)
Lemma rmatch_empty_fails (ic : bool) (re : regex) :
  forall prev k,
    (forall prev', k prev' "" = None) -> rmatch ic re prev "" k = None.
Proof.
  induction re as [|c|p|p min| | |a IHa b IHb|a IHa b IHb|a IHa];
    intros prev k Hk; simpl.
  - apply Hk.
  - reflexivity.
  - reflexivity.
  - destruct min; [apply Hk | reflexivity].
  - destruct (xorb _ _); [apply Hk | reflexivity].
  - apply Hk.
  - apply IHa. intros prev'. now apply IHb.
  - rewrite IHa, IHb by exact Hk. reflexivity.
  - rewrite IHa by exact Hk. simpl. apply Hk.
Qed.

Lemma rmatch_empty_needs (ic : bool) (re : regex) :
  nullable re = false ->
  forall prev k, rmatch ic re prev "" k = None.
Proof.
  induction re as [|c|p|p min| | |a IHa b IHb|a IHa b IHb|a IHa];
    intros Hn prev k; simpl in *; try discriminate; auto.
  - destruct min; [discriminate | reflexivity].
  - apply andb_false_iff in Hn as [Hn|Hn].
    + now apply IHa.
    + apply rmatch_empty_fails. intros prev'. now apply IHb.
  - apply orb_false_elim in Hn as [Ha Hb]. now rewrite IHa, IHb.
Qed.

(** An anchored expression that needs a character and none of whose atoms
    matches [x] is not found in a text that ends with [x]. *)
Lemma test_fails_before (ic : bool) (x : ascii) (re : regex) (s : string) :
  avoids ic x re = true -> anchored re = true -> nullable re = false ->
  forall prev, searchFrom ic re prev (s ++ String x "") = false.
Proof.
  intros Hav Hanch Hn. induction s as [|c s IH]; intros prev.
  - cbn [append searchFrom].
    destruct (matchHere ic re prev (String x "")) eqn:E.
    + apply matchHere_avoids with (x := x) in E; auto.
      simpl in E. now rewrite Ascii.eqb_refl in E.
    + unfold matchHere. now rewrite rmatch_empty_needs.
  - cbn [append searchFrom].
    destruct (matchHere ic re prev (String c (s ++ String x ""))) eqn:E.
    + apply matchHere_avoids with (x := x) in E; auto.
      change (String c (s ++ String x "")) with ((String c s) ++ String x "") in E.
      rewrite occurs_append in E. simpl in E.
      rewrite Ascii.eqb_refl, orb_true_r in E. discriminate.
    + apply IH.
Qed.

(** A statement whose trimmed text ends with a semicolon is never found to
    have a limit, whatever precedes the semicolon. *)
Lemma hasLimitClause_semicolon (sql : string) :
  endsWith (trim sql) ";" = true -> hasLimitClause sql = false.
Proof.
  intros E. apply endsWith_inv in E as [body E].
  unfold hasLimitClause, test. rewrite E.
  now rewrite !test_fails_before by reflexivity.
Qed.

(** ** LIMIT detection and injection *)

(** *** Finding a match *)

Lemma searchFrom_append (ic : bool) (re : regex) (a b : string) :
  forall prev,
    matchHere ic re (lastChar prev a) b <> None ->
    searchFrom ic re prev (a ++ b) = true.
Proof.
  induction a as [|c a IH]; intros prev Hm.
  - destruct b; simpl in *; destruct (matchHere ic re prev _); congruence.
  - cbn [append searchFrom].
    destruct (matchHere ic re prev (String c (a ++ b))); [reflexivity|].
    now apply IH.
Qed.

(** The letters of a keyword, in any case, are matched one by one. *)
Lemma rmatch_lits (keyword : string) :
  forall kw prev s k,
    toUpperCase kw = toUpperCase keyword ->
    rmatch true (lits keyword) prev (kw ++ s) k = k (lastChar prev kw) s.
Proof.
  induction keyword as [|c keyword IH]; intros kw prev s k E.
  - destruct kw; [reflexivity | discriminate].
  - destruct kw as [|d kw]; [discriminate|].
    simpl in E. injection E as Ec E.
    cbn [lits rmatch append lastChar]. unfold charEq.
    rewrite Ec, Ascii.eqb_refl. now apply IH.
Qed.

Lemma orElse_left {A} (x y : option A) : x <> None -> orElse x y <> None.
Proof. now destruct x. Qed.

Lemma orElse_right {A} (x y : option A) : y <> None -> orElse x y <> None.
Proof. destruct x; [discriminate | auto]. Qed.

(** A run of characters of the class is accepted when the continuation
    accepts what follows it. *)
Lemma many_accepts (p : ascii -> bool) (u : string) :
  forall min prev v k,
    allChars p u = true -> (min <= String.length u)%nat ->
    k (lastChar prev u) v <> None ->
    many p min prev (u ++ v) k <> None.
Proof.
  induction u as [|c u IH]; intros min prev v k Hu Hmin Hk.
  - simpl in Hmin. assert (min = 0%nat) as -> by lia. simpl in *.
    destruct v as [|d v]; simpl; [exact Hk|].
    destruct (p d); [now apply orElse_right | exact Hk].
  - simpl in Hu. apply andb_prop in Hu as [Hc Hu].
    cbn [append many]. rewrite Hc. apply orElse_left.
    apply IH; auto. simpl in Hmin. lia.
Qed.

Lemma lastChar_append (prev : option ascii) (a b : string) :
  lastChar prev (a ++ b) = lastChar (lastChar prev a) b.
Proof. revert prev; induction a as [|c a IH]; intros prev; simpl; auto. Qed.

Lemma isWordChar_upperChar (c : ascii) :
  isWordChar (upperChar c) = isWordChar c.
Proof. destruct c as [[] [] [] [] [] [] [] []]; reflexivity. Qed.

Lemma headChar_keyword (kw keyword s : string) :
  toUpperCase kw = keyword -> isWordOpt (headChar keyword) = true ->
  isWordOpt (headChar (kw ++ s)) = true.
Proof.
  intros <-. destruct kw as [|c kw]; simpl; [discriminate|].
  now rewrite isWordChar_upperChar.
Qed.

Lemma isRun_inv (p : ascii -> bool) (s : string) :
  isRun p s = true -> allChars p s = true /\ (1 <= String.length s)%nat.
Proof.
  unfold isRun. intros E. apply andb_prop in E as [E1 E2].
  split; [exact E2|]. destruct s; [discriminate | simpl; lia].
Qed.

(** *** Statements that end in a limit *)

Lemma hasLimitClause_limit (sql p kw ws ds : string) :
  trim sql = p ++ kw ++ ws ++ ds ->
  isWordOpt (lastChar None p) = false ->
  toUpperCase kw = "LIMIT" ->
  isRun isWhiteSpace ws = true -> isRun isDigit ds = true ->
  hasLimitClause sql = true.
Proof.
  intros Ht Hp Hkw Hws Hds.
  apply isRun_inv in Hws as [Hws Lws]. apply isRun_inv in Hds as [Hds Lds].
  unfold hasLimitClause. rewrite Ht.
  apply orb_true_iff. left. apply orb_true_iff. right.
  apply searchFrom_append. unfold matchHere, reLimit.
  cbn [seqs rmatch]. rewrite Hp, (headChar_keyword kw "LIMIT") by auto.
  cbn [xorb]. rewrite rmatch_lits by (rewrite Hkw; reflexivity).
  unfold ws1, digits1. cbn [rmatch].
  apply many_accepts; [exact Hws | exact Lws |].
  rewrite <- (append_nil_r ds).
  apply many_accepts; [exact Hds | exact Lds |].
  discriminate.
Qed.

Lemma hasLimitClause_limit_offset (sql p kw ws ds gap kw2 ws2 ds2 : string) :
  trim sql = p ++ kw ++ ws ++ ds ++ gap ++ kw2 ++ ws2 ++ ds2 ->
  isWordOpt (lastChar None p) = false ->
  toUpperCase kw = "LIMIT" ->
  isRun isWhiteSpace ws = true -> isRun isDigit ds = true ->
  allChars isWhiteSpace gap = true ->
  toUpperCase kw2 = "OFFSET" ->
  isRun isWhiteSpace ws2 = true -> isRun isDigit ds2 = true ->
  hasLimitClause sql = true.
Proof.
  intros Ht Hp Hkw Hws Hds Hgap Hkw2 Hws2 Hds2.
  apply isRun_inv in Hws as [Hws Lws]. apply isRun_inv in Hds as [Hds Lds].
  apply isRun_inv in Hws2 as [Hws2 Lws2].
  apply isRun_inv in Hds2 as [Hds2 Lds2].
  unfold hasLimitClause. rewrite Ht.
  apply orb_true_iff. left. apply orb_true_iff. left.
  apply searchFrom_append. unfold matchHere, reLimitOffset.
  cbn [seqs rmatch]. rewrite Hp, (headChar_keyword kw "LIMIT") by auto.
  cbn [xorb]. rewrite rmatch_lits by (rewrite Hkw; reflexivity).
  unfold ws1, digits1, ws0. cbn [rmatch].
  apply many_accepts; [exact Hws | exact Lws |].
  apply many_accepts; [exact Hds | exact Lds |].
  apply many_accepts; [exact Hgap | lia |].
  apply orElse_left.
  rewrite rmatch_lits by (rewrite Hkw2; reflexivity).
  apply many_accepts; [exact Hws2 | exact Lws2 |].
  rewrite <- (append_nil_r ds2).
  apply many_accepts; [exact Hds2 | exact Lds2 |].
  discriminate.
Qed.

Lemma hasLimitClause_fetch (sql p kw ws which ws2 ds ws3 rows ws4 only : string) :
  trim sql
  = p ++ kw ++ ws ++ which ++ ws2 ++ ds ++ ws3 ++ rows ++ ws4 ++ only ->
  isWordOpt (lastChar None p) = false ->
  toUpperCase kw = "FETCH" ->
  isRun isWhiteSpace ws = true ->
  toUpperCase which = "FIRST" \/ toUpperCase which = "NEXT" ->
  isRun isWhiteSpace ws2 = true -> isRun isDigit ds = true ->
  isRun isWhiteSpace ws3 = true ->
  toUpperCase rows = "ROW" \/ toUpperCase rows = "ROWS" ->
  isRun isWhiteSpace ws4 = true ->
  toUpperCase only = "ONLY" ->
  hasLimitClause sql = true.
Proof.
  intros Ht Hp Hkw Hws Hwhich Hws2 Hds Hws3 Hrows Hws4 Honly.
  apply isRun_inv in Hws as [Hws Lws]. apply isRun_inv in Hws2 as [Hws2 Lws2].
  apply isRun_inv in Hds as [Hds Lds]. apply isRun_inv in Hws3 as [Hws3 Lws3].
  apply isRun_inv in Hws4 as [Hws4 Lws4].
  unfold hasLimitClause. rewrite Ht.
  apply orb_true_iff. right.
  apply searchFrom_append. unfold matchHere, reFetch.
  cbn [seqs rmatch]. rewrite Hp, (headChar_keyword kw "FETCH") by auto.
  cbn [xorb]. rewrite rmatch_lits by (rewrite Hkw; reflexivity).
  unfold ws1, digits1, ws0. cbn [rmatch].
  apply many_accepts; [exact Hws | exact Lws |].
  match goal with
  | |- orElse (rmatch true (lits "FIRST") ?pv ?s ?k)
              (rmatch true (lits "NEXT") ?pv ?s ?k) <> None =>
      assert (k (lastChar pv which)
                (ws2 ++ ds ++ ws3 ++ rows ++ ws4 ++ only) <> None) as Hk
  end.
  { apply many_accepts; [exact Hws2 | exact Lws2 |].
    apply many_accepts; [exact Hds | exact Lds |].
    apply many_accepts; [exact Hws3 | exact Lws3 |].
    destruct Hrows as [Hrows|Hrows].
    - rewrite rmatch_lits by (rewrite Hrows; reflexivity).
      destruct ws4 as [|w4 ws4]; [simpl in Lws4; lia|].
      simpl in Hws4. apply andb_prop in Hws4 as [Hw4 Hws4].
      cbn [append rmatch]. unfold charEq.
      assert (Ascii.eqb (upperChar "S") (upperChar w4) = false) as ->.
      { destruct (Ascii.eqb_spec (upperChar "S") (upperChar w4)) as [E|];
          [|reflexivity].
        rewrite <- isWhiteSpace_upperChar, <- E in Hw4. discriminate. }
      apply orElse_right.
      change (String w4 (ws4 ++ only)) with (String w4 ws4 ++ only).
      apply many_accepts; [simpl; now rewrite Hw4 | exact Lws4 |].
      rewrite <- (append_nil_r only).
      rewrite rmatch_lits by (rewrite Honly; reflexivity).
      discriminate.
    - assert (exists r s, rows = r ++ String s ""
                          /\ toUpperCase r = "ROW" /\ upperChar s = "S"%char)
        as (r & s & -> & Hr & Hs).
      { destruct rows as [|a [|b [|c [|d [|e rows]]]]]; try discriminate.
        injection Hrows as Ha Hb Hc Hd.
        exists (String a (String b (String c ""))), d.
        unfold toUpperCase. simpl. now rewrite Ha, Hb, Hc. }
      rewrite append_assoc.
      rewrite rmatch_lits by (rewrite Hr; reflexivity).
      cbn [append rmatch]. unfold charEq.
      rewrite Hs. cbn [upperChar]. apply orElse_left.
      assert (Ascii.eqb (upperChar "S") "S" = true) as -> by reflexivity.
      apply many_accepts; [exact Hws4 | exact Lws4 |].
      rewrite <- (append_nil_r only).
      rewrite rmatch_lits by (rewrite Honly; reflexivity).
      discriminate. }
  destruct Hwhich as [Hwhich|Hwhich].
  - apply orElse_left. now rewrite rmatch_lits by (rewrite Hwhich; reflexivity).
  - apply orElse_right. now rewrite rmatch_lits by (rewrite Hwhich; reflexivity).
Qed.

(** C1.  [hasLimitClause] answers true on a statement that ends in
    [LIMIT 10] and false on one without a limit, but a statement that ends
    in [LIMIT 10;] is not recognised, and neither is any other statement
    whose trimmed text ends with a semicolon: the expressions are anchored
    at the end of the trimmed text and nothing removes the semicolon, which
    [addLimitClause] does handle.  The rewriting step then caps the
    statement a second time. *)
Theorem hasLimitClause_misses_trailing_semicolon :
  hasLimitClause "SELECT * FROM t LIMIT 10" = true
  /\ hasLimitClause "SELECT * FROM t" = false
  /\ hasLimitClause "SELECT * FROM t LIMIT 10;" = false
  /\ (forall sql, endsWith (trim sql) ";" = true -> hasLimitClause sql = false)
  /\ capRows "SELECT * FROM t LIMIT 10;"
     = ("SELECT * FROM t LIMIT 10 LIMIT 100;", true).
Proof.
  split; [vm_compute; reflexivity|]. split; [vm_compute; reflexivity|].
  split; [vm_compute; reflexivity|].
  split; [exact hasLimitClause_semicolon | vm_compute; reflexivity].
Qed.
Lemma addLimitClause_alters_limited_statement :
  hasLimitClause "SELECT * FROM t LIMIT 10" = true
  /\ addLimitClause "SELECT * FROM t LIMIT 10" 100
     <> "SELECT * FROM t LIMIT 10".
Proof. split; [vm_compute; reflexivity | vm_compute; discriminate]. Qed.

(** C3, amended.  [addLimitClause] works on the trimmed statement: when
    that ends with a semicolon, the result is the text before the
    semicolon, trimmed again, followed by [ LIMIT n] and the semicolon;
    otherwise it is the trimmed statement followed by [ LIMIT n].  The
    function itself always appends; statements on which [hasLimitClause]
    is true are left as they are by the rewriting step that calls it. *)
Theorem addLimitClause_appends_limit (sql : string) (n : N) :
  (forall body, trim sql = body ++ ";" ->
     addLimitClause sql n = trim body ++ " LIMIT " ++ showN n ++ ";")
  /\ (endsWith (trim sql) ";" = false ->
     addLimitClause sql n = trim sql ++ " LIMIT " ++ showN n)
  /\ (hasLimitClause sql = true -> capRows sql = (sql, false)).
Proof.
  split; [|split].
  - intros body E. unfold addLimitClause. rewrite E.
    rewrite endsWith_append, sliceButLast_append. reflexivity.
  - intros E. unfold addLimitClause. rewrite E. cbv iota.
    now rewrite append_nil_r.
  - intros E. unfold capRows. rewrite E.
    now rewrite andb_false_r.
Qed.

Lemma addLimitClause_appends_limit_witness :
  addLimitClause "SELECT * FROM t;" 100 = "SELECT * FROM t LIMIT 100;"
  /\ addLimitClause " SELECT * FROM t " 100 = "SELECT * FROM t LIMIT 100"
  /\ capRows "SELECT * FROM t LIMIT 10" = ("SELECT * FROM t LIMIT 10", false).
Proof.
  split; [|split].
  - exact (proj1 (addLimitClause_appends_limit "SELECT * FROM t;" 100)
             "SELECT * FROM t" eq_refl).
  - exact (proj1 (proj2 (addLimitClause_appends_limit " SELECT * FROM t " 100))
             eq_refl).
  - exact (proj2 (proj2 (addLimitClause_appends_limit
                           "SELECT * FROM t LIMIT 10" 100)) eq_refl).
Defined.

(** ** Whitespace normalisation and classification *)

Lemma mapString_append (f : ascii -> ascii) (a b : string) :
  mapString f (a ++ b) = mapString f a ++ mapString f b.
Proof. induction a as [|c a IH]; simpl; [reflexivity | now rewrite IH]. Qed.

Lemma mapString_append_inv (f : ascii -> ascii) (t : string) :
  forall x y, mapString f t = x ++ y ->
  exists a b, t = a ++ b /\ mapString f a = x /\ mapString f b = y.
Proof.
  induction t as [|c t IH]; intros x y E.
  - destruct x; [|discriminate]. exists "", "". simpl in *. auto.
  - destruct x as [|d x].
    + exists "", (String c t). simpl in *. auto.
    + simpl in E. injection E as E1 E2.
      destruct (IH x y E2) as (a & b & -> & Ha & Hb).
      exists (String c a), b. simpl. now rewrite E1, Ha.
Qed.

Lemma prefix_append (p r : string) : prefix p (p ++ r) = true.
Proof.
  induction p as [|c p IH]; simpl; [now destruct r|].
  destruct (ascii_dec c c); [exact IH | contradiction].
Qed.

Lemma prefix_inv (p s : string) :
  prefix p s = true -> exists r, s = p ++ r.
Proof.
  revert s; induction p as [|c p IH]; intros s E.
  - now exists s.
  - destruct s as [|d s]; simpl in E; [discriminate|].
    destruct (ascii_dec c d) as [->|]; [|discriminate].
    destruct (IH s E) as [r ->]. now exists r.
Qed.

(** *** Text and whitespace *)

Lemma hasText_append (a b : string) :
  hasText (a ++ b) = hasText a || hasText b.
Proof.
  induction a as [|c a IH]; simpl; [reflexivity|].
  now rewrite IH, orb_assoc.
Qed.

Lemma hasText_startsWs (s : string) :
  hasText s = false -> s <> "" -> startsWs s = true.
Proof.
  destruct s as [|c s]; simpl; [congruence|].
  intros E _. apply orb_false_elim in E as [E _].
  now apply negb_false_iff in E.
Qed.

Lemma lastWs_append (b : bool) (x y : string) :
  lastWs b (x ++ y) = lastWs (lastWs b x) y.
Proof. revert b; induction x as [|c x IH]; intros b; simpl; auto. Qed.

Lemma lastWs_nonempty (b b' : bool) (s : string) :
  s <> "" -> lastWs b s = lastWs b' s.
Proof. destruct s; [congruence | reflexivity]. Qed.

Lemma lastWs_hasText (b : bool) (s : string) :
  lastWs b s = false -> s <> "" -> hasText s = true.
Proof.
  revert b; induction s as [|c s IH]; intros b E Hne; [congruence|].
  simpl in *. destruct s as [|d s].
  - simpl in E. now rewrite E.
  - rewrite (IH _ E) by discriminate. apply orb_true_r.
Qed.

Lemma trimStart_split (s : string) :
  exists pre, s = pre ++ trimStart s /\ hasText pre = false.
Proof.
  induction s as [|c s (pre & IH & Hpre)]; [now exists ""|].
  simpl. destruct (isWhiteSpace c) eqn:E.
  - exists (String c pre). simpl. rewrite E, Hpre. split; [now f_equal|auto].
  - now exists "".
Qed.

Lemma trimStart_append_ws (pre x : string) :
  hasText pre = false -> trimStart (pre ++ x) = trimStart x.
Proof.
  induction pre as [|c pre IH]; simpl; [reflexivity|].
  intros E. apply orb_false_elim in E as [E1 E2].
  apply negb_false_iff in E1. rewrite E1. auto.
Qed.

Lemma trimStart_id (s : string) : startsWs s = false -> trimStart s = s.
Proof. destruct s as [|c s]; simpl; [reflexivity|]. now intros ->. Qed.

Lemma trimEnd_empty (s : string) : trimEnd s = "" <-> hasText s = false.
Proof.
  induction s as [|c s IH]; simpl; [tauto|].
  destruct (trimEnd s) eqn:E.
  - destruct (isWhiteSpace c); simpl.
    + tauto.
    + split; discriminate.
  - split; [discriminate|]. intros H. apply orb_false_elim in H as [_ H].
    apply IH in H. discriminate.
Qed.

Lemma trimEnd_append (x y : string) :
  hasText y = true -> trimEnd (x ++ y) = x ++ trimEnd y.
Proof.
  intros Hy. induction x as [|c x IH]; simpl; [reflexivity|].
  rewrite IH. destruct (x ++ trimEnd y) eqn:E; [|reflexivity].
  destruct x; simpl in E; [|discriminate].
  apply trimEnd_empty in E. congruence.
Qed.

Lemma trimEnd_append_ws (x y : string) :
  hasText y = false -> trimEnd (x ++ y) = trimEnd x.
Proof.
  intros Hy. induction x as [|c x IH]; simpl.
  - now apply trimEnd_empty.
  - now rewrite IH.
Qed.

Lemma trimEnd_id (s : string) : lastWs false s = false -> trimEnd s = s.
Proof.
  induction s as [|c s IH]; simpl; [reflexivity|]. intros E.
  destruct s as [|d s].
  - simpl in *. now rewrite E.
  - rewrite IH by exact E. reflexivity.
Qed.

Lemma trimEnd_split (s : string) :
  exists tail, s = trimEnd s ++ tail /\ hasText tail = false.
Proof.
  induction s as [|c s (tail & IH & Htail)]; [now exists ""|].
  simpl. destruct (trimEnd s) eqn:E.
  - destruct (isWhiteSpace c) eqn:Ec.
    + exists (String c s). simpl. rewrite Ec. simpl. split; [reflexivity|].
      now apply trimEnd_empty.
    + exists s. simpl. split; [reflexivity|]. now apply trimEnd_empty.
  - exists tail. simpl. split; [now rewrite IH at 1|exact Htail].
Qed.

Lemma trimEnd_lastWs (s : string) : lastWs false (trimEnd s) = false.
Proof.
  induction s as [|c s IH]; simpl; [reflexivity|].
  destruct (trimEnd s) eqn:E.
  - destruct (isWhiteSpace c) eqn:Ec; simpl; [reflexivity | exact Ec].
  - simpl in *. exact IH.
Qed.

(** *** Collapsing whitespace runs *)

Lemma collapse_append (x y : string) :
  forall b, collapse b (x ++ y) = collapse b x ++ collapse (lastWs b x) y.
Proof.
  induction x as [|c x IH]; intros b; simpl; [reflexivity|].
  destruct (isWhiteSpace c), b; simpl; now rewrite IH.
Qed.

Lemma collapse_start (b : bool) (s : string) :
  startsWs s = false -> collapse b s = collapse false s.
Proof. destruct s as [|c s]; simpl; [reflexivity|]. now intros ->. Qed.

Lemma startsWs_collapse (s : string) :
  startsWs (collapse false s) = startsWs s.
Proof.
  destruct s as [|c s]; simpl; [reflexivity|].
  destruct (isWhiteSpace c) eqn:E; simpl; [reflexivity | exact E].
Qed.

Lemma startsWs_collapse_true (s : string) : startsWs (collapse true s) = false.
Proof.
  induction s as [|c s IH]; simpl; [reflexivity|].
  destruct (isWhiteSpace c) eqn:E; simpl; [exact IH | exact E].
Qed.

Lemma lastWs_collapse (s : string) :
  forall b, lastWs b (collapse b s) = lastWs b s.
Proof.
  induction s as [|c s IH]; intros b; simpl; [reflexivity|].
  destruct (isWhiteSpace c) eqn:E.
  - destruct b; simpl; apply IH.
  - simpl. rewrite E. apply IH.
Qed.

Lemma hasText_collapse (s : string) :
  forall b, hasText (collapse b s) = hasText s.
Proof.
  induction s as [|c s IH]; intros b; simpl; [reflexivity|].
  destruct (isWhiteSpace c) eqn:E.
  - destruct b; simpl; apply IH.
  - simpl. rewrite E. simpl. reflexivity.
Qed.

Lemma collapse_empty (b : bool) (s : string) :
  collapse b s = "" -> s <> "" -> b = true /\ hasText s = false.
Proof.
  intros E Hne. assert (hasText s = false) as Ht.
  { rewrite <- (hasText_collapse s b), E. reflexivity. }
  split; [|exact Ht].
  destruct s as [|c s]; [congruence|]. simpl in *.
  apply orb_false_elim in Ht as [Hc _]. apply negb_false_iff in Hc.
  rewrite Hc in E. destruct b; [reflexivity | discriminate].
Qed.

Lemma trimStart_collapse (s : string) :
  forall b, trimStart (collapse b s) = collapse false (trimStart s).
Proof.
  induction s as [|c s IH]; intros b; simpl; [reflexivity|].
  destruct (isWhiteSpace c) eqn:E.
  - destruct b; simpl; apply IH.
  - simpl. now rewrite E.
Qed.

(** A whitespace character in the collapsed text marks the end of a part
    of the original text whose collapsed form is what precedes it. *)
Lemma collapse_split (s : string) :
  forall b a sp z,
    collapse b s = a ++ String sp z -> isWhiteSpace sp = true ->
    exists kw w rest,
      s = kw ++ String w rest /\ collapse b kw = a
      /\ isWhiteSpace w = true /\ collapse true rest = z.
Proof.
  induction s as [|c s IH]; intros b a sp z E Hsp.
  - destruct a; discriminate.
  - simpl in E. destruct (isWhiteSpace c) eqn:Ec.
    + destruct b.
      * destruct (IH true a sp z E Hsp) as (kw & w & rest & -> & Hk & Hw & Hr).
        exists (String c kw), w, rest. simpl. rewrite Ec. auto.
      * destruct a as [|a0 a].
        -- simpl in E. injection E as _ E.
           exists "", c, s. simpl. auto.
        -- simpl in E. injection E as E0 E.
           destruct (IH true a sp z E Hsp)
             as (kw & w & rest & -> & Hk & Hw & Hr).
           exists (String c kw), w, rest. simpl. rewrite Ec, Hk, E0. auto.
    + destruct a as [|a0 a].
      * simpl in E. injection E as E0 _. congruence.
      * simpl in E. injection E as E0 E.
        destruct (IH false a sp z E Hsp)
          as (kw & w & rest & -> & Hk & Hw & Hr).
        exists (String c kw), w, rest. simpl. rewrite Ec, Hk, E0. auto.
Qed.

(** *** The regular expression [/\s+/g] replaced by a space *)

Lemma many_ws_rest (s : string) (prev : option ascii) :
  many isWhiteSpace 0 prev s (fun _ rest => Some rest) = Some (trimStart s).
Proof.
  revert prev; induction s as [|c s IH]; intros prev; simpl; [reflexivity|].
  destruct (isWhiteSpace c); [|reflexivity]. now rewrite IH.
Qed.

Lemma matchHere_ws1 (s : string) (prev : option ascii) :
  matchHere false ws1 prev s
  = if startsWs s then Some (trimStart s) else None.
Proof.
  unfold matchHere, ws1. destruct s as [|c s]; simpl; [reflexivity|].
  destruct (isWhiteSpace c); [|reflexivity]. now rewrite many_ws_rest.
Qed.

Lemma leadingWs_length (s : string) :
  (String.length s - String.length (trimStart s))%nat = leadingWs s
  /\ (String.length (trimStart s) <= String.length s)%nat.
Proof.
  induction s as [|c s [IH1 IH2]]; simpl; [auto|].
  destruct (isWhiteSpace c); simpl; lia.
Qed.

Lemma replaceLoop_collapse (s : string) :
  (forall before prev,
      replaceLoop false ws1 " " before prev s 0 = collapse false s)
  /\ (forall before prev,
      replaceLoop false ws1 " " before prev s (leadingWs s) = collapse true s).
Proof.
  induction s as [|c s [IH0 IHk]].
  - split; reflexivity.
  - assert (forall before prev,
              replaceLoop false ws1 " " before prev (String c s) 0
              = collapse false (String c s)) as H0.
    { intros before prev. cbn [replaceLoop]. rewrite matchHere_ws1.
      cbn [startsWs collapse]. destruct (isWhiteSpace c) eqn:Ec.
      - destruct (leadingWs_length (String c s)) as [-> _].
        cbn [leadingWs]. rewrite Ec. cbn [expand Ascii.eqb Bool.eqb].
        simpl. now rewrite IHk.
      - now rewrite IH0. }
    split; [exact H0|].
    intros before prev. cbn [leadingWs collapse].
    destruct (isWhiteSpace c) eqn:Ec.
    + cbn [replaceLoop]. apply IHk.
    + rewrite H0. cbn [collapse]. now rewrite Ec.
Qed.

Lemma replaceAll_ws1 (s : string) :
  replaceAll false ws1 " " s = collapse false s.
Proof. apply replaceLoop_collapse. Qed.

Lemma normalizeSql_collapse (s : string) :
  normalizeSql s = toUpperCase (trimEnd (collapse false (trimStart s))).
Proof.
  unfold normalizeSql, trim. now rewrite replaceAll_ws1, trimStart_collapse.
Qed.

(** *** Keywords at the start of a statement *)

Lemma truthy_mapString (f : ascii -> ascii) (s : string) :
  truthy (mapString f s) = truthy s.
Proof. now destruct s. Qed.

Lemma startsWs_toUpperCase (s : string) :
  startsWs (toUpperCase s) = startsWs s.
Proof. destruct s; simpl; [reflexivity | apply isWhiteSpace_upperChar]. Qed.

Lemma lastWs_toUpperCase (s : string) :
  forall b, lastWs b (toUpperCase s) = lastWs b s.
Proof.
  induction s as [|c s IH]; intros b; simpl; [reflexivity|].
  rewrite isWhiteSpace_upperChar. apply IH.
Qed.

Lemma tidy_toUpperCase (s : string) : tidy (toUpperCase s) = tidy s.
Proof.
  unfold tidy, toUpperCase at 1.
  now rewrite truthy_mapString, startsWs_toUpperCase, lastWs_toUpperCase.
Qed.

Lemma tidy_inv (s : string) :
  tidy s = true -> s <> "" /\ startsWs s = false /\ lastWs false s = false.
Proof.
  unfold tidy. intros E. apply andb_prop in E as [E E3].
  apply andb_prop in E as [E1 E2].
  apply negb_true_iff in E2, E3. repeat split; auto.
  intros ->. discriminate.
Qed.

(** What a keyword written in the text says about that piece of text. *)
Lemma tidy_collapse_inv (kw : string) :
  tidy (collapse false kw) = true ->
  kw <> "" /\ startsWs kw = false /\ lastWs false kw = false.
Proof.
  intros E. apply tidy_inv in E as (E1 & E2 & E3).
  rewrite startsWs_collapse in E2. rewrite lastWs_collapse in E3.
  repeat split; auto. intros ->. now apply E1.
Qed.

Lemma startsWs_append (x y : string) :
  x <> "" -> startsWs (x ++ y) = startsWs x.
Proof. destruct x; [congruence | reflexivity]. Qed.

Lemma normal_lead (pre kw rest : string) (w : ascii) :
  hasText pre = false -> tidy (collapse false kw) = true ->
  isWhiteSpace w = true -> hasText rest = true ->
  trimEnd (collapse false (trimStart (pre ++ kw ++ String w rest)))
  = collapse false kw ++ " " ++ trimEnd (collapse true rest).
Proof.
  intros Hpre Hkw Hw Hrest.
  apply tidy_collapse_inv in Hkw as (Hne & Hs & Hl).
  rewrite trimStart_append_ws by exact Hpre.
  rewrite trimStart_id by (now rewrite startsWs_append).
  rewrite collapse_append, Hl. cbn [collapse]. rewrite Hw.
  assert (hasText (collapse true rest) = true) as Hr
    by now rewrite hasText_collapse.
  rewrite trimEnd_append by (simpl; now rewrite Hr).
  f_equal. exact (trimEnd_append " " (collapse true rest) Hr).
Qed.

Lemma normal_only (pre kw post : string) :
  hasText pre = false -> tidy (collapse false kw) = true ->
  hasText post = false ->
  trimEnd (collapse false (trimStart (pre ++ kw ++ post))) = collapse false kw.
Proof.
  intros Hpre Hkw Hpost.
  pose proof (tidy_inv _ Hkw) as (_ & _ & Hck).
  apply tidy_collapse_inv in Hkw as (Hne & Hs & Hl).
  rewrite trimStart_append_ws by exact Hpre.
  rewrite trimStart_id by (now rewrite startsWs_append).
  rewrite collapse_append, Hl.
  rewrite trimEnd_append_ws by now rewrite hasText_collapse.
  now apply trimEnd_id.
Qed.

Lemma lead_inv (s a y : string) (sp : ascii) :
  trimEnd (collapse false (trimStart s)) = a ++ String sp y ->
  isWhiteSpace sp = true ->
  exists pre kw w rest,
    s = pre ++ kw ++ String w rest /\ hasText pre = false
    /\ collapse false kw = a /\ isWhiteSpace w = true /\ hasText rest = true.
Proof.
  intros E Hsp.
  destruct (trimStart_split s) as (pre & Hs & Hpre).
  destruct (trimEnd_split (collapse false (trimStart s))) as (tail & Ht & _).
  rewrite E, append_assoc in Ht. cbn [append] in Ht.
  destruct (collapse_split _ _ _ _ _ Ht Hsp) as (kw & w & rest & Hk & Ha & Hw & Hr).
  exists pre, kw, w, rest. rewrite <- Hk. repeat split; auto.
  rewrite <- (hasText_collapse rest true), Hr, hasText_append.
  pose proof (trimEnd_lastWs (collapse false (trimStart s))) as Hl.
  rewrite E, lastWs_append in Hl. cbn [lastWs] in Hl. rewrite Hsp in Hl.
  rewrite (lastWs_hasText true y); [reflexivity | exact Hl |].
  intros ->. discriminate.
Qed.

Lemma only_inv (s a : string) :
  trimEnd (collapse false (trimStart s)) = a ->
  exists pre kw post,
    s = pre ++ kw ++ post /\ hasText pre = false
    /\ collapse false kw = a /\ hasText post = false.
Proof.
  intros E.
  destruct (trimStart_split s) as (pre & Hs & Hpre).
  destruct (trimEnd_split (collapse false (trimStart s))) as (tail & Ht & Htail).
  rewrite E in Ht. destruct tail as [|t0 tail].
  - exists pre, (trimStart s), "". rewrite append_nil_r in *. auto.
  - simpl in Htail. apply orb_false_elim in Htail as [H0 Htail].
    apply negb_false_iff in H0.
    destruct (collapse_split _ _ _ _ _ Ht H0) as (kw & w & rest & Hk & Ha & Hw & Hr).
    exists pre, kw, (String w rest). rewrite <- Hk. repeat split; auto.
    simpl. rewrite Hw. simpl.
    now rewrite <- (hasText_collapse rest true), Hr.
Qed.

Lemma startsWith_keyword (keyword sql : string) :
  tidy keyword = true ->
  startsWith (normalizeSql sql) (keyword ++ " ") = true <-> leadsWith keyword sql.
Proof.
  intros Hk. unfold startsWith. rewrite normalizeSql_collapse. split.
  - intros E. apply prefix_inv in E as [r E]. rewrite append_assoc in E.
    apply mapString_append_inv in E as (a & b & Et & Ha & Hb).
    destruct b as [|sp y]; [discriminate|]. simpl in Hb. injection Hb as Hsp _.
    apply upperChar_space in Hsp. subst sp.
    destruct (lead_inv _ _ _ _ Et eq_refl) as (pre & kw & w & rest & H).
    exists pre, kw, w, rest. unfold reads, allWhiteSpace, someText.
    destruct H as (H1 & H2 & H3 & H4 & H5). rewrite H3. auto.
  - intros (pre & kw & w & rest & -> & Hpre & Hr & Hw & Hrest).
    unfold reads in Hr. rewrite normal_lead; auto.
    + unfold toUpperCase. rewrite mapString_append. fold toUpperCase.
      rewrite Hr.
      change (toUpperCase (" " ++ trimEnd (collapse true rest)))
        with (" " ++ toUpperCase (trimEnd (collapse true rest))).
      rewrite <- append_assoc. apply prefix_append.
    + now rewrite <- tidy_toUpperCase, Hr.
Qed.

Lemma equals_keyword (keyword sql : string) :
  tidy keyword = true ->
  (normalizeSql sql =? keyword) = true <-> isOnly keyword sql.
Proof.
  intros Hk. rewrite String.eqb_eq, normalizeSql_collapse. split.
  - intros E.
    destruct (only_inv sql _ eq_refl) as (pre & kw & post & H1 & H2 & H3 & H4).
    exists pre, kw, post. unfold reads, allWhiteSpace. rewrite H3. auto.
  - intros (pre & kw & post & -> & Hpre & Hr & Hpost).
    unfold reads in Hr. rewrite normal_only; auto.
    now rewrite <- tidy_toUpperCase, Hr.
Qed.

Lemma modificationKeywords_tidy :
  List.Forall (fun keyword => tidy keyword = true) modificationKeywords.
Proof. repeat constructor. Qed.

(** The write classification, in both directions. *)
Lemma isModificationQuery_iff (sql : string) :
  isModificationQuery sql = true
  <-> exists keyword,
        In keyword modificationKeywords
        /\ (leadsWith keyword sql \/ isOnly keyword sql).
Proof.
  unfold isModificationQuery. rewrite existsb_exists.
  pose proof modificationKeywords_tidy as Ht.
  rewrite List.Forall_forall in Ht.
  split; intros (keyword & Hin & E); exists keyword; (split; [exact Hin|]);
    specialize (Ht keyword Hin).
  - apply orb_true_iff in E as [E|E].
    + left. now apply startsWith_keyword.
    + right. now apply equals_keyword.
  - apply orb_true_iff. destruct E as [E|E].
    + left. now apply startsWith_keyword.
    + right. now apply equals_keyword.
Qed.

(** C6, counterexample.  [SELECT*FROM t] starts with SELECT as a whole word
    and is not classified as a read; [VACUUM;] starts with VACUUM as a
    whole word and is not classified as a write. *)
Lemma classification_needs_whitespace_after_keyword :
  (startsWithWord "SELECT" "SELECT*FROM t" = true
   /\ isSelectQuery "SELECT*FROM t" = false)
  /\ (startsWithWord "VACUUM" "VACUUM;" = true
      /\ isModificationQuery "VACUUM;" = false).
Proof. repeat split; vm_compute; reflexivity. Qed.

(** C6, amended.  A statement is classified as a read exactly when, after
    leading whitespace, it starts with SELECT or WITH in any letter case,
    followed by a whitespace character and further text.  A statement that
    after leading whitespace starts with one of the listed keywords in any
    letter case, followed by a whitespace character and further text, or
    that is such a keyword alone, is classified as a write. *)
Theorem classification_by_leading_keyword (sql : string) :
  (isSelectQuery sql = true
   <-> leadsWith "SELECT" sql \/ leadsWith "WITH" sql)
  /\ (forall keyword,
        In keyword modificationKeywords ->
        leadsWith keyword sql \/ isOnly keyword sql ->
        isModificationQuery sql = true).
Proof.
  split.
  - unfold isSelectQuery. rewrite orb_true_iff.
    change "SELECT " with ("SELECT" ++ " ").
    change "WITH " with ("WITH" ++ " ").
    now rewrite !startsWith_keyword by reflexivity.
  - intros keyword Hin Hk. apply isModificationQuery_iff.
    now exists keyword.
Qed.


Lemma classification_by_leading_keyword_witness :
  isSelectQuery "  with cte as (select 1) select * from cte" = true
  /\ isModificationQuery "update users set x=1" = true.
Proof.
  split.
  - apply (proj1 (classification_by_leading_keyword
                    "  with cte as (select 1) select * from cte")).
    right.
    exists "  ", "with", " "%char, "cte as (select 1) select * from cte".
    repeat split.
  - apply (proj2 (classification_by_leading_keyword "update users set x=1")
             "UPDATE").
    + right. left. reflexivity.
    + left. exists "", "update", " "%char, "users set x=1". repeat split.
Defined.


(** ** The statement splitter *)

Lemma hasText_trimStart (s : string) : hasText (trimStart s) = hasText s.
Proof.
  induction s as [|c s IH]; simpl; [reflexivity|].
  destruct (isWhiteSpace c) eqn:E; simpl; [exact IH | now rewrite E].
Qed.

Lemma truthy_trim (s : string) : truthy (trim s) = hasText s.
Proof.
  unfold trim. rewrite <- (hasText_trimStart s).
  destruct (trimEnd (trimStart s)) eqn:E; simpl.
  - symmetry. now apply trimEnd_empty.
  - destruct (hasText (trimStart s)) eqn:Ht; [reflexivity|].
    apply trimEnd_empty in Ht. congruence.
Qed.

Lemma snoc_append (s t : string) (c : ascii) :
  snoc s c ++ t = s ++ String c t.
Proof. unfold snoc. now rewrite append_assoc. Qed.

(** *** Text passed over whole

    In each of the three lemmas the scanner is outside strings and
    comments before the construct and after it, and the construct has
    been added to [current] without a statement boundary being seen. *)

(** Inside a string delimited by [q], characters other than [q] are
    ordinary text. *)
Lemma splitLoop_in_string (q : ascii) (body : string) :
  occurs q body = false ->
  forall rest stmts cur,
    splitLoop (body ++ rest) (mkSplit stmts cur true (Some q) false false)
    = splitLoop rest (mkSplit stmts (cur ++ body) true (Some q) false false).
Proof.
  induction body as [|c body IH]; intros Hq rest stmts cur.
  - now rewrite append_nil_r.
  - simpl in Hq. apply orb_false_elim in Hq as [Hc Hq].
    cbn [append splitLoop inString inLineComment inBlockComment stringChar
           negb andb charIs].
    rewrite Ascii.eqb_sym, Hc. unfold keep, advance. cbn.
    rewrite IH by exact Hq. now rewrite append_assoc.
Qed.

(** A single-quoted string or a double-quoted identifier. *)
Lemma splitLoop_string (q : ascii) (body rest : string) (stmts : list string)
    (cur : string) (sc : option ascii) :
  isQuote q = true -> occurs q body = false ->
  charIs q (headChar rest) = false ->
  splitLoop (String q (body ++ String q rest))
    (mkSplit stmts cur false sc false false)
  = splitLoop rest
      (mkSplit stmts (cur ++ String q (body ++ String q "")) false (Some q)
         false false).
Proof.
  intros Hq Hbody Hrest.
  assert (Ascii.eqb q "-" = false /\ Ascii.eqb q "/" = false) as [H1 H2].
  { unfold isQuote in Hq. apply orb_prop in Hq as [Hq|Hq];
      apply Ascii.eqb_eq in Hq; subst q; split; reflexivity. }
  cbn [splitLoop inString inLineComment inBlockComment stringChar negb andb].
  rewrite H1, H2, Hq. cbn [andb]. unfold advance. cbn.
  rewrite splitLoop_in_string by exact Hbody.
  cbn [splitLoop inString inLineComment inBlockComment stringChar negb andb
         charIs].
  rewrite Ascii.eqb_refl.
  assert (((cur ++ String q "") ++ body) ++ String q ""
          = cur ++ String q (body ++ String q "")) as Hcur.
  { now rewrite !append_assoc. }
  destruct rest as [|next rest].
  - unfold advance. cbn. now rewrite Hcur.
  - cbn in Hrest. rewrite Ascii.eqb_sym, Hrest. unfold advance. cbn.
    now rewrite Hcur.
Qed.

(** Inside a line comment, characters other than the line feed are
    ordinary text, and the line feed ends the comment. *)
Lemma splitLoop_in_line_comment (body : string) :
  occurs LF body = false ->
  forall rest stmts cur sc,
    splitLoop (body ++ String LF rest) (mkSplit stmts cur false sc true false)
    = splitLoop rest
        (mkSplit stmts (cur ++ body ++ String LF "") false sc false false).
Proof.
  induction body as [|c body IH]; intros Hlf rest stmts cur sc.
  - cbn. reflexivity.
  - cbn [occurs] in Hlf. apply orb_false_elim in Hlf as [Hc Hlf].
    rewrite Ascii.eqb_sym in Hc.
    cbn [append splitLoop inString inLineComment inBlockComment stringChar
           negb andb].
    rewrite Hc.
    destruct (Ascii.eqb c "-" && charIs "-" (headChar (body ++ String LF rest)));
      unfold advance; cbn; rewrite IH by exact Hlf;
      now rewrite append_assoc.
Qed.

Lemma splitLoop_line_comment (body rest : string) (stmts : list string)
    (cur : string) (sc : option ascii) :
  occurs LF body = false ->
  splitLoop ("--" ++ body ++ String LF rest)
    (mkSplit stmts cur false sc false false)
  = splitLoop rest
      (mkSplit stmts (cur ++ "--" ++ body ++ String LF "") false sc false false).
Proof.
  intros Hlf.
  assert (forall text,
            splitLoop (String "-" (String "-" text))
              (mkSplit stmts cur false sc false false)
            = splitLoop (String "-" text)
                (mkSplit stmts (cur ++ "-") false sc true false)) as Hopen
    by reflexivity.
  change ("--" ++ body ++ String LF rest)
    with (String "-" (String "-" (body ++ String LF rest))).
  rewrite Hopen.
  change (String "-" (body ++ String LF rest))
    with ((String "-" body) ++ String LF rest).
  rewrite splitLoop_in_line_comment
    by (cbn [occurs]; rewrite Hlf; reflexivity).
  now rewrite append_assoc.
Qed.

Lemma prefix_close (c : ascii) (s : string) :
  prefix "*/" (String c s) = Ascii.eqb c "*" && charIs "/" (headChar s).
Proof.
  change (prefix "*/" (String c s))
    with (if ascii_dec "*" c then prefix "/" s else false).
  destruct (ascii_dec "*" c) as [<-|Hc].
  - rewrite Ascii.eqb_refl. destruct s as [|d s]; [reflexivity|].
    change (prefix "/" (String d s))
      with (if ascii_dec "/" d then prefix "" s else false).
    cbn [headChar charIs andb].
    destruct (ascii_dec "/" d) as [<-|Hd].
    + rewrite Ascii.eqb_refl. now destruct s.
    + symmetry. now apply Ascii.eqb_neq.
  - assert (Ascii.eqb c "*" = false) as ->; [|reflexivity].
    apply Ascii.eqb_neq. congruence.
Qed.

(** Inside a block comment, text without the closing pair is ordinary
    text, and the closing pair ends the comment. *)
Lemma splitLoop_in_block_comment (body : string) :
  includes body "*/" = false ->
  forall rest stmts cur sc,
    splitLoop (body ++ String "*" (String "/" rest))
      (mkSplit stmts cur false sc false true)
    = splitLoop rest
        (mkSplit stmts (cur ++ body ++ "*/") false sc false false).
Proof.
  induction body as [|c body IH]; intros Hb rest stmts cur sc.
  - cbn. unfold advance, keep, snoc. cbn. now rewrite append_assoc.
  - cbn [includes] in Hb. apply orb_false_elim in Hb as [Hp Hb].
    cbn [append splitLoop inString inLineComment inBlockComment stringChar
           negb andb].
    assert (Ascii.eqb c "*"
            && charIs "/" (headChar (body ++ String "*" (String "/" rest)))
            = false) as ->.
    { rewrite prefix_close in Hp. destruct body; [|exact Hp].
      cbn. apply andb_false_r. }
    destruct (Ascii.eqb c "/"
              && charIs "*" (headChar (body ++ String "*" (String "/" rest))));
      unfold keep, advance; cbn; rewrite IH by exact Hb;
      now rewrite append_assoc.
Qed.

(** A block comment whose text does not start with [/]: the [*] of the
    opener must not be followed by [/]. *)
Lemma splitLoop_block_comment (body rest : string) (stmts : list string)
    (cur : string) (sc : option ascii) :
  includes ("*" ++ body) "*/" = false ->
  splitLoop ("/*" ++ body ++ "*/" ++ rest)
    (mkSplit stmts cur false sc false false)
  = splitLoop rest
      (mkSplit stmts (cur ++ "/*" ++ body ++ "*/") false sc false false).
Proof.
  intros Hb.
  assert (forall text,
            splitLoop (String "/" (String "*" text))
              (mkSplit stmts cur false sc false false)
            = splitLoop (String "*" text)
                (mkSplit stmts (cur ++ "/") false sc false true)) as Hopen
    by reflexivity.
  change ("/*" ++ body ++ "*/" ++ rest)
    with (String "/" (String "*" (body ++ "*/" ++ rest))).
  rewrite Hopen.
  change (String "*" (body ++ "*/" ++ rest))
    with (("*" ++ body) ++ String "*" (String "/" rest)).
  rewrite splitLoop_in_block_comment by exact Hb.
  now rewrite !append_assoc.
Qed.

(** *** No empty statement *)

Lemma pushCurrent_hasText (st : SplitState) :
  List.Forall (fun s => hasText s = true) (statements st) ->
  List.Forall (fun s => hasText s = true) (pushCurrent st).
Proof.
  intros H. unfold pushCurrent. rewrite truthy_trim.
  destruct (hasText (current st)) eqn:E; [|exact H].
  apply List.Forall_app. split; [exact H | now repeat constructor].
Qed.

Lemma splitLoop_hasText (n : nat) :
  forall text st,
    (String.length text <= n)%nat ->
    List.Forall (fun s => hasText s = true) (statements st) ->
    List.Forall (fun s => hasText s = true) (statements (splitLoop text st)).
Proof.
  induction n as [|n IH]; intros text st Hn Hst;
    (destruct text as [|c rest]; [exact Hst|]); simpl in Hn; [lia|].
  cbn [splitLoop].
  repeat match goal with
         | |- context [if ?b then _ else _] => destruct b
         | |- context [match ?r with EmptyString => _ | String _ _ => _ end] =>
             destruct r; simpl in Hn
         end;
    try (apply IH; [simpl; lia|]); simpl; auto using pushCurrent_hasText.
Qed.

Lemma splitSqlStatements_hasText (text : string) :
  List.Forall (fun s => hasText s = true) (splitSqlStatements text).
Proof.
  unfold splitSqlStatements. apply pushCurrent_hasText.
  apply splitLoop_hasText with (n := String.length text); [lia|].
  constructor.
Qed.

(** The statements are those closed by a boundary, followed by the text
    after the last boundary when it holds a character that is not
    whitespace. *)
Lemma splitSqlStatements_trailing (text : string) :
  splitSqlStatements text
  = (statements (splitLoop text splitInit)
     ++ (if hasText (current (splitLoop text splitInit))
         then [current (splitLoop text splitInit)] else []))%list.
Proof.
  unfold splitSqlStatements, pushCurrent. rewrite truthy_trim.
  destruct (hasText _); [reflexivity | now rewrite List.app_nil_r].
Qed.

(** C4.  A semicolon inside a string literal or inside an ordinary block
    comment is not a boundary; no statement returned is empty or made of
    whitespace only; the text after the last boundary is a statement
    exactly when it holds a character that is not whitespace.  But the
    scanner opens a block comment on the [/] alone and then reads the [*]
    of the opener as the possible start of the closer: [/*/] is taken for
    a complete comment, and the semicolon that follows, still inside the
    comment, splits the text in two.  [stripSqlComments] skips the [*] of
    the opener and removes the whole comment. *)
Theorem splitSqlStatements_splits_inside_block_comment :
  splitSqlStatements "INSERT INTO t(x) VALUES (';')"
    = ["INSERT INTO t(x) VALUES (';')"]
  /\ splitSqlStatements "SELECT 1 /* ; */" = ["SELECT 1 /* ; */"]
  /\ (forall text,
        List.Forall (fun s => hasText s = true) (splitSqlStatements text))
  /\ (forall text,
        splitSqlStatements text
        = (statements (splitLoop text splitInit)
           ++ (if hasText (current (splitLoop text splitInit))
               then [current (splitLoop text splitInit)] else []))%list)
  /\ splitSqlStatements "SELECT 1 /*/ ; */" = ["SELECT 1 /*/ "; " */"]
  /\ stripSqlComments "SELECT 1 /*/ ; */" = "SELECT 1 ".
Proof.
  split; [vm_compute; reflexivity|]. split; [vm_compute; reflexivity|].
  split; [exact splitSqlStatements_hasText|].
  split; [exact splitSqlStatements_trailing|].
  split; vm_compute; reflexivity.
Qed.

(** ** Replacing placeholders *)

(** *** Decimal numerals *)

Lemma string_of_uint_digits (d : Decimal.uint) :
  allChars isDigit (NilEmpty.string_of_uint d) = true.
Proof. induction d; simpl; auto. Qed.

Lemma showN_digits (n : N) : allChars isDigit (showN n) = true.
Proof. apply string_of_uint_digits. Qed.

Lemma showN_inj (n m : N) : showN n = showN m -> n = m.
Proof.
  unfold showN. intros E. apply DecimalN.Unsigned.to_uint_inj.
  apply (f_equal NilEmpty.uint_of_string) in E.
  rewrite !NilEmpty.usu in E. now injection E.
Qed.

Lemma showN_nonempty (n : N) : showN n <> "".
Proof.
  unfold showN. destruct n as [|p]; [discriminate|]. cbn [N.to_uint].
  pose proof (DecimalPos.Unsigned.to_uint_nonnil p) as Hp.
  destruct (Pos.to_uint p); [congruence | discriminate ..].
Qed.

(** *** One placeholder *)

Lemma rmatch_lits_exact (text : string) :
  forall prev s k,
    rmatch false (lits text) prev (text ++ s) k = k (lastChar prev text) s.
Proof.
  induction text as [|c text IH]; intros prev s k; [reflexivity|].
  cbn [lits rmatch append lastChar]. unfold charEq.
  rewrite Ascii.eqb_refl. apply IH.
Qed.

Lemma rmatch_lits_inv (text : string) :
  forall prev s k r,
    rmatch false (lits text) prev s k = Some r ->
    exists s', s = text ++ s' /\ k (lastChar prev text) s' = Some r.
Proof.
  induction text as [|c text IH]; intros prev s k r E.
  - now exists s.
  - cbn [lits rmatch] in E. destruct s as [|d s]; [discriminate|].
    unfold charEq in E. destruct (Ascii.eqb_spec c d) as [<-|]; [|discriminate].
    destruct (IH _ _ _ _ E) as (s' & -> & Hk). now exists s'.
Qed.

Lemma lastChar_digits (prev : option ascii) (ds : string) :
  allChars isDigit ds = true -> ds <> "" ->
  isWordOpt (lastChar prev ds) = true.
Proof.
  revert prev; induction ds as [|c ds IH]; intros prev Hd Hne; [congruence|].
  simpl in Hd. apply andb_prop in Hd as [Hc Hd]. cbn [lastChar].
  destruct ds as [|d ds].
  - simpl. unfold isWordChar. now rewrite Hc.
  - apply IH; [exact Hd | discriminate].
Qed.

Lemma isDigit_word (c : ascii) : isDigit c = true -> isWordChar c = true.
Proof. unfold isWordChar. now intros ->. Qed.

(** Two numerals followed by something that is not a digit are equal when
    the texts are. *)
Lemma digits_unique (a : string) :
  forall b r s,
    allChars isDigit a = true -> allChars isDigit b = true ->
    isWordOpt (headChar r) = false -> isWordOpt (headChar s) = false ->
    a ++ r = b ++ s -> a = b.
Proof.
  induction a as [|c a IH]; intros b r s Ha Hb Hr Hs E.
  - destruct b as [|d b]; [reflexivity|]. simpl in *. subst r.
    apply andb_prop in Hb as [Hd _]. apply isDigit_word in Hd.
    simpl in Hr. congruence.
  - destruct b as [|d b].
    + simpl in *. subst s. apply andb_prop in Ha as [Hc _].
      apply isDigit_word in Hc. simpl in Hs. congruence.
    + simpl in *. injection E as -> E.
      apply andb_prop in Ha as [_ Ha]. apply andb_prop in Hb as [_ Hb].
      f_equal. now apply IH with r s.
Qed.

Lemma matchHere_placeholder_other (i : nat) (prev : option ascii) (c : ascii)
    (s : string) :
  Ascii.eqb c "$" = false ->
  matchHere false (placeholder i) prev (String c s) = None.
Proof.
  intros Hc. unfold matchHere, placeholder. cbn [rmatch]. unfold charEq.
  now rewrite Ascii.eqb_sym, Hc.
Qed.

Lemma matchHere_placeholder_hit (i : nat) (prev : option ascii) (r : string) :
  isWordOpt (headChar r) = false ->
  matchHere false (placeholder i) prev (placeholderText i ++ r) = Some r.
Proof.
  intros Hr. unfold matchHere, placeholder, placeholderText.
  rewrite append_assoc. cbn [append rmatch]. unfold charEq.
  rewrite Ascii.eqb_refl, rmatch_lits_exact. cbn [rmatch].
  rewrite lastChar_digits, Hr;
    [reflexivity | apply showN_digits | apply showN_nonempty].
Qed.

Lemma matchHere_placeholder_miss (i j : nat) (prev : option ascii)
    (r : string) :
  i <> j -> isWordOpt (headChar r) = false ->
  matchHere false (placeholder i) prev (placeholderText j ++ r) = None.
Proof.
  intros Hij Hr.
  destruct (matchHere false (placeholder i) prev (placeholderText j ++ r))
    as [x|] eqn:E; [exfalso | reflexivity].
  unfold matchHere, placeholder, placeholderText in E.
  rewrite append_assoc in E. cbn [append rmatch] in E. unfold charEq in E.
  rewrite Ascii.eqb_refl in E.
  apply rmatch_lits_inv in E as (s' & Hs & E). cbn [rmatch] in E.
  rewrite lastChar_digits in E by (apply showN_digits || apply showN_nonempty).
  destruct (isWordOpt (headChar s')) eqn:Hs'; [discriminate|].
  symmetry in Hs. apply digits_unique in Hs; auto using showN_digits.
  apply showN_inj, Nat2N.inj in Hs. contradiction.
Qed.

(** *** One pass of [replace] *)

Lemma expand_plain (template matched before after : string) :
  occurs "$" template = false ->
  expand template matched before after = template.
Proof.
  induction template as [|c t IH]; [reflexivity|]. intros H.
  cbn [occurs] in H. apply orb_false_elim in H as [Hc Ht].
  cbn [expand]. rewrite Ascii.eqb_sym, Hc. now rewrite IH.
Qed.

Section Pass.
Variables (i : nat) (template : string).

Lemma replaceLoop_plain (t : string) :
  occurs "$" t = false ->
  forall before prev rest,
    replaceLoop false (placeholder i) template before prev (t ++ rest) 0
    = t ++ replaceLoop false (placeholder i) template (before ++ t)
             (lastChar prev t) rest 0.
Proof.
  induction t as [|c t IH]; intros H before prev rest.
  - now rewrite append_nil_r.
  - cbn [occurs] in H. apply orb_false_elim in H as [Hc Ht].
    rewrite Ascii.eqb_sym in Hc.
    cbn [append replaceLoop lastChar].
    rewrite matchHere_placeholder_other by exact Hc.
    rewrite IH by exact Ht. unfold snoc. now rewrite append_assoc.
Qed.

Lemma replaceLoop_skip (u : string) :
  forall before prev rest,
    replaceLoop false (placeholder i) template before prev (u ++ rest)
      (String.length u)
    = replaceLoop false (placeholder i) template (before ++ u)
        (lastChar prev u) rest 0.
Proof.
  induction u as [|c u IH]; intros before prev rest.
  - now rewrite append_nil_r.
  - cbn [append replaceLoop lastChar String.length]. rewrite IH.
    unfold snoc. now rewrite append_assoc.
Qed.

Lemma replaceLoop_hit (before : string) (prev : option ascii) (r : string) :
  occurs "$" template = false ->
  isWordOpt (headChar r) = false ->
  exists before' prev',
    replaceLoop false (placeholder i) template before prev
      (placeholderText i ++ r) 0
    = template ++ replaceLoop false (placeholder i) template before' prev' r 0.
Proof.
  intros Ht Hr.
  exists (before ++ placeholderText i), (lastChar prev (placeholderText i)).
  unfold placeholderText at 1. rewrite append_assoc.
  cbn [append replaceLoop].
  change (String "$" (showN (N.of_nat i) ++ r)) with (placeholderText i ++ r).
  rewrite matchHere_placeholder_hit by exact Hr.
  rewrite expand_plain by exact Ht.
  replace (String.length (placeholderText i ++ r) - String.length r)%nat
    with (S (String.length (showN (N.of_nat i))))
    by (unfold placeholderText; rewrite !length_append; simpl; lia).
  cbv beta iota. rewrite replaceLoop_skip. unfold snoc, placeholderText.
  cbn [lastChar append]. now rewrite !append_assoc.
Qed.

Lemma replaceLoop_miss (j : nat) (before : string) (prev : option ascii)
    (r : string) :
  i <> j -> isWordOpt (headChar r) = false ->
  exists before' prev',
    replaceLoop false (placeholder i) template before prev
      (placeholderText j ++ r) 0
    = placeholderText j
      ++ replaceLoop false (placeholder i) template before' prev' r 0.
Proof.
  intros Hij Hr.
  exists (before ++ placeholderText j), (lastChar prev (placeholderText j)).
  unfold placeholderText at 1. rewrite append_assoc.
  cbn [append replaceLoop].
  change (String "$" (showN (N.of_nat j) ++ r)) with (placeholderText j ++ r).
  rewrite matchHere_placeholder_miss by auto.
  rewrite replaceLoop_plain.
  - unfold snoc, placeholderText. now rewrite !append_assoc.
  - apply allChars_occurs with isDigit; [reflexivity | apply showN_digits].
Qed.

End Pass.

(** *** All the passes *)

Section Passes.
Variables (n : nat) (literal : nat -> string).
Hypothesis literal_plain :
  forall i, (1 <= i <= n)%nat -> occurs "$" (literal i) = false.

Lemma headChar_append (t x : string) :
  t <> "" -> headChar (t ++ x) = headChar t.
Proof. destruct t; [congruence | reflexivity]. Qed.

Lemma matchHere_placeholder_empty (k : nat) (prev : option ascii) :
  matchHere false (placeholder k) prev "" = None.
Proof. reflexivity. Qed.

Lemma pass_slots (k : nat) (l : list (nat * string)) :
  (1 <= k <= n)%nat -> slotsOk n l = true ->
  forall before prev,
    replaceLoop false (placeholder k) (literal k) before prev
      (slots (partly literal k) l) 0
    = slots (partly literal (k - 1)) l.
Proof.
  intros Hk. induction l as [|[i t] r IH]; intros Hok before prev.
  - reflexivity.
  - cbn [slotsOk] in Hok.
    apply andb_prop in Hok as [Hok Hr]. apply andb_prop in Hok as [Hok Hlast].
    apply andb_prop in Hok as [Hok Hhead]. apply andb_prop in Hok as [Hok Ht].
    apply andb_prop in Hok as [Hi1 Hi2].
    apply Nat.leb_le in Hi1, Hi2. apply negb_true_iff in Ht, Hhead.
    specialize (IH Hr).
    assert (isWordOpt (headChar (t ++ slots (partly literal k) r)) = false) as Hnext.
    { destruct t as [|c t]; [|exact Hhead].
      destruct r; [reflexivity | discriminate]. }
    cbn [slots]. unfold partly at 1 3.
    destruct (Nat.ltb_spec k i) as [Hlt|Hge].
    + assert ((k - 1 <? i)%nat = true) as -> by (apply Nat.ltb_lt; lia).
      rewrite <- (append_assoc (literal i) t), replaceLoop_plain.
      * rewrite IH. now rewrite append_assoc.
      * rewrite occurs_append, Ht, literal_plain by lia. reflexivity.
    + destruct (Nat.eq_dec i k) as [->|Hne].
      * assert ((k - 1 <? k)%nat = true) as -> by (apply Nat.ltb_lt; lia).
        destruct (replaceLoop_hit k (literal k) before prev
                    (t ++ slots (partly literal k) r)) as (b' & p' & ->);
          [apply literal_plain; lia | exact Hnext |].
        rewrite replaceLoop_plain by exact Ht. now rewrite IH.
      * assert ((k - 1 <? i)%nat = false) as -> by (apply Nat.ltb_ge; lia).
        destruct (replaceLoop_miss k (literal k) i before prev
                    (t ++ slots (partly literal k) r)) as (b' & p' & ->);
          [congruence | exact Hnext |].
        rewrite replaceLoop_plain by exact Ht. now rewrite IH.
Qed.

Lemma pass (k : nat) (tpl : Template) :
  (1 <= k <= n)%nat -> templateOk n tpl = true ->
  replaceAll false (placeholder k) (literal k) (filledAbove literal k tpl)
  = filledAbove literal (k - 1) tpl.
Proof.
  intros Hk Hok. unfold templateOk in Hok. apply andb_prop in Hok as [Hh Hl].
  apply negb_true_iff in Hh. unfold replaceAll, filledAbove.
  rewrite replaceLoop_plain by exact Hh.
  f_equal. now apply pass_slots.
Qed.

Lemma slots_ext (f g : nat -> string) (l : list (nat * string)) :
  slotsOk n l = true ->
  (forall i, (1 <= i <= n)%nat -> f i = g i) ->
  slots f l = slots g l.
Proof.
  intros Hok Hfg. induction l as [|[i t] r IH]; [reflexivity|].
  cbn [slotsOk] in Hok.
  apply andb_prop in Hok as [Hok Hr]. apply andb_prop in Hok as [Hok _].
  apply andb_prop in Hok as [Hok _]. apply andb_prop in Hok as [Hok _].
  apply andb_prop in Hok as [Hi1 Hi2]. apply Nat.leb_le in Hi1, Hi2.
  cbn [slots]. now rewrite Hfg, IH by (auto; lia).
Qed.

Lemma slots_plain (f : nat -> string) (l : list (nat * string)) :
  slotsOk n l = true ->
  (forall i, (1 <= i <= n)%nat -> occurs "$" (f i) = false) ->
  occurs "$" (slots f l) = false.
Proof.
  intros Hok Hf. induction l as [|[i t] r IH]; [reflexivity|].
  cbn [slotsOk] in Hok.
  apply andb_prop in Hok as [Hok Hr]. apply andb_prop in Hok as [Hok _].
  apply andb_prop in Hok as [Hok _]. apply andb_prop in Hok as [Hok Ht].
  apply andb_prop in Hok as [Hi1 Hi2]. apply Nat.leb_le in Hi1, Hi2.
  apply negb_true_iff in Ht.
  cbn [slots]. rewrite !occurs_append, Hf, Ht, IH by (auto; lia). reflexivity.
Qed.

End Passes.

Section Formatting.
Context `{Host}.

Lemma formatLoop_fills (params : list Value) (tpl : Template) (k : nat) :
  let n := List.length params in
  templateOk n tpl = true ->
  (forall i, (1 <= i <= n)%nat -> occurs "$" (literalOf params i) = false) ->
  (k <= n)%nat ->
  formatLoop k params (filledAbove (literalOf params) k tpl)
  = filledAbove (literalOf params) 0 tpl.
Proof.
  intros n Hok Hlit. induction k as [|k IH]; intros Hk; [reflexivity|].
  cbn [formatLoop].
  assert (formatValueForSql (nth k params VUndefined)
          = literalOf params (S k)) as ->
    by (unfold literalOf; f_equal; f_equal; lia).
  rewrite (pass n (literalOf params) Hlit (S k)) by (auto; lia).
  replace (S k - 1)%nat with k by lia. apply IH. lia.
Qed.

(** When the texts of the statement and the display literals hold no
    dollar sign, every placeholder is replaced by the display literal of
    its parameter and no dollar sign is left. *)
Lemma formatSqlWithParams_fills (params : list Value) (tpl : Template) :
  templateOk (List.length params) tpl = true ->
  List.Forall (fun v => occurs "$" (formatValueForSql v) = false) params ->
  formatSqlWithParams (render tpl) params = filled (literalOf params) tpl
  /\ occurs "$" (formatSqlWithParams (render tpl) params) = false.
Proof.
  intros Hok Hplain.
  assert (forall i, (1 <= i <= List.length params)%nat ->
                    occurs "$" (literalOf params i) = false) as Hlit.
  { intros i Hi. unfold literalOf. rewrite List.Forall_forall in Hplain.
    apply Hplain, nth_In. lia. }
  pose proof Hok as Hok'. unfold templateOk in Hok'.
  apply andb_prop in Hok' as [Hh Hl]. apply negb_true_iff in Hh.
  assert (formatSqlWithParams (render tpl) params
          = filled (literalOf params) tpl) as E.
  { unfold formatSqlWithParams.
    assert (render tpl
            = filledAbove (literalOf params) (List.length params) tpl) as ->.
    { unfold render, filledAbove. f_equal.
      apply slots_ext with (n := List.length params); [exact Hl|].
      intros i Hi. unfold partly.
      assert ((List.length params <? i)%nat = false) as ->
        by (apply Nat.ltb_ge; lia).
      reflexivity. }
    rewrite formatLoop_fills by auto.
    unfold filledAbove, filled. f_equal.
    apply slots_ext with (n := List.length params); [exact Hl|].
    intros i Hi. unfold partly.
    assert ((0 <? i)%nat = true) as -> by (apply Nat.ltb_lt; lia).
    reflexivity. }
  split; [exact E|]. rewrite E. unfold filled.
  rewrite occurs_append, Hh.
  now rewrite (slots_plain (List.length params)).
Qed.

End Formatting.

(** The statement of an update of one column, as [buildUpdateSql] writes
    it, is such a template. *)
Example formatSqlWithParams_fills_update :
  formatSqlWithParams
    ("UPDATE t SET " ++ quoted "name" ++ " = $1 WHERE " ++ quoted "id"
       ++ " = $2")
    [str "x"; num 7]
  = ("UPDATE t SET " ++ quoted "name" ++ " = 'x' WHERE " ++ quoted "id"
       ++ " = 7")%string.
Proof.
  pose proof (@formatSqlWithParams_fills sampleHost [str "x"; num 7]
                (("UPDATE t SET " ++ quoted "name" ++ " = ")%string,
                 [(1%nat, (" WHERE " ++ quoted "id" ++ " = ")%string);
                  (2%nat, EmptyString)])) as Hfills.
  destruct Hfills as [Hfills _].
  - vm_compute. reflexivity.
  - repeat constructor.
  - exact Hfills.
Qed.
(** ** Value coercion and audit formatting *)

Section Coercion.
Context `{Host}.

(** C9.  The empty string, null and undefined coerce to null; on a
    boolean column a string that is [true] or [false] in any letter case
    becomes that boolean and every other non-empty string is returned as it
    is; on a text column a non-empty string is returned as it is. *)
Theorem convertValue_coercion :
  (forall column,
      convertValue (VString "") column = VNull
      /\ convertValue VNull column = VNull
      /\ convertValue VUndefined column = VNull)
  /\ (forall s c, dataType c = "boolean" -> toLowerCase s = "true" ->
        convertValue (VString s) (Some c) = VBool true)
  /\ (forall s c, dataType c = "boolean" -> toLowerCase s = "false" ->
        convertValue (VString s) (Some c) = VBool false)
  /\ (forall s c, dataType c = "boolean" -> s <> "" ->
        toLowerCase s <> "true" -> toLowerCase s <> "false" ->
        convertValue (VString s) (Some c) = VString s)
  /\ (forall s c, dataType c = "text" -> s <> "" ->
        convertValue (VString s) (Some c) = VString s).
Proof.
  repeat split.
  - intros s c Hc Hs. unfold convertValue, hasType. rewrite Hc, Hs.
    destruct (String.eqb_spec s "") as [->|_]; [discriminate Hs|].
    reflexivity.
  - intros s c Hc Hs. unfold convertValue, hasType. rewrite Hc, Hs.
    destruct (String.eqb_spec s "") as [->|_]; [discriminate Hs|].
    reflexivity.
  - intros s c Hc Hne Ht Hf. unfold convertValue, hasType. rewrite Hc.
    apply String.eqb_neq in Hne, Ht, Hf. rewrite Hne, Ht, Hf. reflexivity.
  - intros s c Hc Hne. unfold convertValue, hasType. rewrite Hc.
    apply String.eqb_neq in Hne. rewrite Hne. reflexivity.
Qed.

End Coercion.

Lemma convertValue_coercion_witness :
  convertValue (str "true") (Some (mkColumn "active" "boolean" 16))
    = VBool true
  /\ convertValue (str "FALSE") (Some (mkColumn "active" "boolean" 16))
    = VBool false
  /\ convertValue (str "not-a-bool") (Some (mkColumn "active" "boolean" 16))
    = str "not-a-bool"
  /\ convertValue (str "abc") (Some (mkColumn "name" "text" 25)) = str "abc"
  /\ convertValue (str "") (Some (mkColumn "name" "text" 25)) = VNull.
Proof.
  pose proof (@convertValue_coercion sampleHost) as (Hnull & Ht & Hf & Hb & Hx).
  split; [apply Ht; reflexivity|].
  split; [apply Hf; reflexivity|].
  split; [apply Hb; [reflexivity | discriminate | discriminate | discriminate]|].
  split; [apply Hx; [reflexivity | discriminate]|].
  apply Hnull.
Defined.

(** C10.  [formatSqlWithParams] hands the display literal to [replace] as
    the replacement text, in which a dollar sign followed by a quote, an
    ampersand, a backquote or another dollar sign is a substitution
    pattern.  The literal of a string value that ends in a dollar sign
    ends in a dollar sign and a quote, so the audit text receives the rest
    of the statement in place of the end of the literal.  Placeholders
    with several digits are safe: [$1] is not replaced inside [$10].
    When neither the texts of the statement nor the display literals hold
    a dollar sign, every placeholder is replaced by the display literal of
    its parameter and no dollar sign is left. *)
Theorem formatSqlWithParams_expands_dollar_patterns :
  buildSql "t" ["id"] sampleColumns
    (Update 0 [("id", num 7); ("name", str "x")]
       [("id", num 7); ("name", str "US$")] ["name"])
    = (("UPDATE t SET " ++ quoted "name" ++ " = $1 WHERE " ++ quoted "id" ++ " = $2")%string, [str "US$"; num 7])
  /\ formatValueForSql (str "US$") = "'US$'"
  /\ formatSqlWithParams ("UPDATE t SET " ++ quoted "name" ++ " = $1 WHERE " ++ quoted "id" ++ " = $2")%string
       [str "US$"; num 7]
     = ("UPDATE t SET " ++ quoted "name" ++ " = 'US WHERE " ++ quoted "id" ++ " = 7 WHERE " ++ quoted "id" ++ " = 7")%string
  /\ formatSqlWithParams "a = $1, b = $10" [str "x"] = "a = 'x', b = $10"
  /\ (forall (host : Host) (params : list Value) (tpl : Template),
        templateOk (List.length params) tpl = true ->
        List.Forall (fun v => occurs "$" (formatValueForSql v) = false)
          params ->
        formatSqlWithParams (render tpl) params
        = filled (literalOf params) tpl
        /\ occurs "$" (formatSqlWithParams (render tpl) params) = false).
Proof.
  split; [vm_compute; reflexivity|].
  split; [vm_compute; reflexivity|].
  split; [vm_compute; reflexivity|].
  split; [vm_compute; reflexivity|].
  intros host params tpl. apply formatSqlWithParams_fills.
Qed.

(** ** Sorting *)

Section Sorting.
Context {A : Type} (cmp : A -> A -> Z).

Lemma insertBy_Permutation (x : A) (l : list A) :
  Permutation (insertBy cmp x l) (x :: l).
Proof.
  induction l as [|y r IH]; simpl; [reflexivity|].
  destruct (cmp x y <=? 0)%Z; [reflexivity|].
  rewrite IH. apply perm_swap.
Qed.

Lemma sortBy_Permutation (l : list A) : Permutation (sortBy cmp l) l.
Proof.
  induction l as [|x r IH]; simpl; [reflexivity|].
  rewrite insertBy_Permutation. now constructor.
Qed.

Hypothesis cmp_total : forall a b, (0 < cmp a b)%Z -> before cmp b a.
Hypothesis cmp_trans : forall a b c, before cmp a b -> before cmp b c -> before cmp a c.

Lemma insertBy_sorted (x : A) (l : list A) :
  StronglySorted (before cmp) l -> StronglySorted (before cmp) (insertBy cmp x l).
Proof.
  induction 1 as [|y r Hr IH Hy]; simpl.
  - repeat constructor.
  - destruct (cmp x y <=? 0)%Z eqn:E.
    + apply Z.leb_le in E. constructor; [now constructor|].
      constructor; [exact E|].
      eapply List.Forall_impl; [|exact Hy]. intros z Hz. now apply cmp_trans with y.
    + apply Z.leb_gt in E. constructor; [exact IH|].
      rewrite (insertBy_Permutation x r). constructor; [|exact Hy].
      now apply cmp_total.
Qed.

Lemma sortBy_sorted (l : list A) : StronglySorted (before cmp) (sortBy cmp l).
Proof.
  induction l as [|x r IH]; simpl; [constructor | now apply insertBy_sorted].
Qed.

(** Stability: the elements of a class whose members compare as equal keep
    their order. *)
Lemma insertBy_filter (P : A -> bool) (x : A) (l : list A) :
  (forall y, P x = true -> P y = true -> before cmp x y) ->
  List.filter P (insertBy cmp x l) = List.filter P (x :: l).
Proof.
  intros HP. induction l as [|y r IH]; simpl; [reflexivity|].
  destruct (cmp x y <=? 0)%Z eqn:E; [reflexivity|].
  apply Z.leb_gt in E. simpl in *. rewrite IH.
  destruct (P x) eqn:Px, (P y) eqn:Py; try reflexivity.
  specialize (HP y eq_refl Py). unfold before in HP. lia.
Qed.

Lemma sortBy_stable (P : A -> bool) (l : list A) :
  (forall x y, P x = true -> P y = true -> before cmp x y) ->
  List.filter P (sortBy cmp l) = List.filter P l.
Proof.
  intros HP. induction l as [|x r IH]; simpl; [reflexivity|].
  rewrite insertBy_filter by (intros y; apply HP).
  simpl. now rewrite IH.
Qed.

End Sorting.

Lemma filter_Permutation_bool {A} (f : A -> bool) (l l' : list A) :
  Permutation l l' -> Permutation (List.filter f l) (List.filter f l').
Proof.
  induction 1 as [|x l l' _ IH|x y l|l l' l'' _ IH1 _ IH2]; simpl.
  - reflexivity.
  - destruct (f x); [now constructor | exact IH].
  - destruct (f x), (f y); try reflexivity. apply perm_swap.
  - now transitivity (List.filter f l').
Qed.

Lemma filter_StronglySorted {A} (R : A -> A -> Prop) (f : A -> bool)
    (l : list A) :
  StronglySorted R l -> StronglySorted R (List.filter f l).
Proof.
  induction 1 as [|x r Hr IH Hx]; simpl; [constructor|].
  destruct (f x); [|exact IH]. constructor; [exact IH|].
  apply List.Forall_forall. intros y Hy. apply filter_In in Hy as [Hy _].
  rewrite List.Forall_forall in Hx. now apply Hx.
Qed.

Lemma StronglySorted_weaken {A} (R R' : A -> A -> Prop) (P : A -> Prop)
    (l : list A) :
  (forall a b, P a -> P b -> R a b -> R' a b) ->
  Forall P l -> StronglySorted R l -> StronglySorted R' l.
Proof.
  intros HR HP Hs. induction Hs as [|x r Hr IH Hx]; [constructor|].
  inversion HP as [|? ? Px Pr]; subst. constructor; [now apply IH|].
  rewrite List.Forall_forall in *. intros y Hy. apply HR; auto.
Qed.

(** ** The row-change reconciler *)

Section Reconciler.
Context `{Server}.

Lemma compareChanges_total (a b : RowChange) :
  (0 < compareChanges a b)%Z -> before compareChanges b a.
Proof.
  unfold before, compareChanges.
  destruct a, b; simpl; lia.
Qed.

Lemma compareChanges_trans (a b c : RowChange) :
  before compareChanges a b -> before compareChanges b c ->
  before compareChanges a c.
Proof.
  unfold before, compareChanges.
  destruct a, b, c; simpl; lia.
Qed.

Lemma sortedChanges_sorted (changes : list RowChange) :
  StronglySorted (before compareChanges) (sortedChanges changes).
Proof.
  apply sortBy_sorted.
  - apply compareChanges_total.
  - apply compareChanges_trans.
Qed.

Lemma sortedChanges_Permutation (changes : list RowChange) :
  Permutation (sortedChanges changes) changes.
Proof. apply sortBy_Permutation. Qed.

Lemma sortedChanges_stable (t : ChangeType) (i : Z) (changes : list RowChange) :
  List.filter (sameKey t i) (sortedChanges changes)
  = List.filter (sameKey t i) changes.
Proof.
  apply sortBy_stable. intros x y Hx Hy.
  unfold sameKey in Hx, Hy. unfold before, compareChanges.
  apply andb_prop in Hx as [Hx1 Hx2]. apply andb_prop in Hy as [Hy1 Hy2].
  apply Z.eqb_eq in Hx1, Hx2, Hy1, Hy2.
  destruct x, y, t; simpl in *; lia.
Qed.

Lemma filter_none {A} (f : A -> bool) (l : list A) :
  List.Forall (fun x => f x = false) l -> List.filter f l = [].
Proof.
  induction 1 as [|x r Hx _ IH]; simpl; [reflexivity|]. now rewrite Hx.
Qed.

Lemma no_delete_after (a : RowChange) (r : list RowChange) :
  isDelete a = false -> List.Forall (before compareChanges a) r ->
  List.filter isDelete r = [].
Proof.
  intros Ha Hr. apply filter_none. eapply List.Forall_impl; [|exact Hr].
  intros b Hb. unfold before, compareChanges in Hb.
  destruct a, b; simpl in *; try reflexivity; try discriminate; lia.
Qed.

Lemma no_update_after (a : RowChange) (r : list RowChange) :
  isInsert a = true -> List.Forall (before compareChanges a) r ->
  List.filter isUpdate r = [].
Proof.
  intros Ha Hr. apply filter_none. eapply List.Forall_impl; [|exact Hr].
  intros b Hb. unfold before, compareChanges in Hb.
  destruct a, b; simpl in *; try reflexivity; try discriminate; lia.
Qed.

(** A list sorted by the comparator is its deletes, then its updates, then
    its inserts. *)
Lemma sorted_by_kind (l : list RowChange) :
  StronglySorted (before compareChanges) l ->
  l = (List.filter isDelete l ++ List.filter isUpdate l
       ++ List.filter isInsert l)%list.
Proof.
  induction 1 as [|a r Hr IH Ha]; [reflexivity|].
  destruct a as [i o n m|i n|i o] eqn:Ea; simpl.
  - rewrite (no_delete_after a r) in IH |- * by (subst a; auto).
    simpl. f_equal. exact IH.
  - rewrite (no_delete_after a r) in IH |- * by (subst a; auto).
    rewrite (no_update_after a r) in IH |- * by (subst a; auto).
    simpl. f_equal. exact IH.
  - f_equal. exact IH.
Qed.

(** The line that [applyChange] records for a rejected statement and the
    rows it adds for a resolved one are those the specification asks for. *)
Lemma errorLine_kindName (change : RowChange) (message : string) :
  errorLine change message
  = kindName change ++ " row " ++ showZ (rowIndex change) ++ ": " ++ message.
Proof. unfold errorLine. now destruct change. Qed.

Lemma orZero_reported (c : RowChange) (rowCount : option N) :
  orZero rowCount = rowsOf (c, Resolved rowCount).
Proof. now destruct rowCount. Qed.

(** The loop sends the statement of every change, in the order of the
    list, and folds the answers into the result. *)
Lemma applyChange_loop (connection : Connection) (tableName : string)
    (pks : list string) (columns : list ColumnInfo)
    (changes : list RowChange) :
  forall (res : ModificationResult) (w : World),
    let out := fold_left (applyChange connection tableName pks columns)
                 changes (res, w) in
    let log := answers connection tableName pks columns changes w in
    issued (snd out)
      = (issued w ++ List.map (statementOf connection tableName pks columns)
                       changes)%list
    /\ List.map fst log = changes
    /\ errors (fst out) = (errors res ++ flat_map errorOf log)%list
    /\ affectedRows (fst out)
       = (affectedRows res + total (List.map rowsOf log))%N
    /\ (success (fst out) = true
        <-> success res = true /\ List.Forall resolved log)
    /\ List.length (executedSql (fst out))
       = (List.length (executedSql res) + List.length changes)%nat.
Proof.
  induction changes as [|c r IH]; intros res w; cbv zeta.
  - simpl. rewrite !app_nil_r, N.add_0_r, Nat.add_0_r.
    repeat split; auto. now intros [? _].
  - cbn [fold_left answers List.map].
    destruct (applyChange connection tableName pks columns (res, w) c)
      as [res1 w1] eqn:Step.
    unfold applyChange in Step. unfold statementOf at 1.
    destruct (buildSql tableName pks columns c) as [sql params].
    destruct (query w connection sql params) as [w' o] eqn:Q.
    assert (issued w' = (issued w ++ [(pool connection, sql, params)])%list)
      as Hw.
    { unfold query in Q.
      destruct (poolQuery (db w) (pool connection) sql params).
      now injection Q as <- <-. }
    destruct (IH res1 w1) as (I1 & I2 & I3 & I4 & I5 & I6).
    cbv zeta in I1, I2, I3, I4, I5, I6.
    destruct o as [rowCount|message]; injection Step as <- <-;
      cbn [List.map fst snd flat_map List.length] in *;
      rewrite I1, I2, I3, I4, I6, Hw, <- ?app_assoc; cbn [success affectedRows
        errors executedSql] in *; rewrite ?length_app; cbn [List.length app].
    + split; [reflexivity|]. split; [reflexivity|]. split; [reflexivity|].
      split; [rewrite (orZero_reported c); unfold total; cbn [fold_right];
              lia|].
      split; [|lia]. rewrite I5. split.
      * intros [E1 E2]. split; [exact E1|].
        constructor; [now exists rowCount | exact E2].
      * intros [E1 E2]. split; [exact E1|]. now inversion E2.
    + split; [reflexivity|]. split; [reflexivity|].
      split; [now rewrite errorLine_kindName, <- List.app_assoc|].
      split; [unfold total, rowsOf; cbn [fold_right]; lia|].
      split; [|lia]. rewrite I5. split.
      * intros [E1 _]. discriminate.
      * intros [_ E2]. inversion E2 as [|? ? [rc Hrc] _]; subst.
        discriminate.
Qed.

Lemma no_errors_iff_resolved (log : list (RowChange * QueryOutcome)) :
  flat_map errorOf log = [] <-> List.Forall resolved log.
Proof.
  induction log as [|[c [rc|m]] r IH]; simpl.
  - split; [constructor | reflexivity].
  - rewrite IH. split; [intros E; constructor; [now exists rc | exact E]|].
    now inversion 1.
  - split; [discriminate|]. inversion 1 as [|? ? [rc Hrc] _]. discriminate.
Qed.

(** C7.  With a connection but no primary key column, [applyChanges]
    returns at once: the result is a failure with the one message and no
    executed SQL, no rows are counted, and the world is the one it started
    in, so no statement was sent. *)
Theorem applyChanges_without_primary_key (manager : ConnectionManager)
    (changes : list RowChange) (columns : list ColumnInfo)
    (tableName : string) (connectionId : option string) (w : World)
    (connection : Connection) :
  resolveConnection manager connectionId = Some connection ->
  applyChanges manager changes columns tableName [] connectionId w
  = (mkResult false 0
       ["Cannot modify data without primary key columns defined"] [], w).
Proof. intros Hc. unfold applyChanges. now rewrite Hc. Qed.

(** C8.  Every change is attempted, in the sorted order, whatever the
    answers to the earlier ones; the error list holds one line per rejected
    statement, in that order, made of the kind of the change ([update],
    [insert] or [delete]), its row index and the message of the server;
    [affectedRows] is the sum of the row counts that the server reported
    for the resolved statements, a statement resolved without a count
    adding nothing; and [success] is true exactly when every statement
    resolved, which is exactly when the error list is empty.  The lines
    [errorOf] and the counts [rowsOf] are written from the specification,
    not read off the service. *)
Theorem applyChanges_collects_failures (manager : ConnectionManager)
    (changes : list RowChange) (columns : list ColumnInfo)
    (tableName : string) (pks : list string) (connectionId : option string)
    (w : World) (connection : Connection) :
  resolveConnection manager connectionId = Some connection ->
  pks <> [] ->
  let out := applyChanges manager changes columns tableName pks connectionId w in
  let log := answers connection tableName pks columns (sortedChanges changes) w in
  List.map fst log = sortedChanges changes
  /\ List.length log = List.length changes
  /\ issued (snd out)
     = (issued w ++ List.map (fun a => statementOf connection tableName pks
                                         columns (fst a)) log)%list
  /\ errors (fst out) = flat_map errorOf log
  /\ affectedRows (fst out) = total (List.map rowsOf log)
  /\ (success (fst out) = true <-> List.Forall resolved log)
  /\ (success (fst out) = true <-> errors (fst out) = []).
Proof.
  intros Hc Hpk out log. subst out. unfold applyChanges. rewrite Hc.
  destruct pks as [|pk pks]; [contradiction|]. cbn [List.length Nat.eqb].
  destruct (applyChange_loop connection tableName (pk :: pks) columns
              (sortedChanges changes) emptyResult w)
    as (I1 & I2 & I3 & I4 & I5 & _).
  fold log in I1, I2, I3, I4, I5.
  split; [exact I2|].
  split. { rewrite <- (length_map fst log), I2.
           apply Permutation_length, sortedChanges_Permutation. }
  split. { rewrite I1. f_equal. rewrite <- I2 at 1. now rewrite List.map_map. }
  split; [exact I3|]. split; [exact I4|].
  split.
  - rewrite I5. simpl. tauto.
  - rewrite I5, I3. simpl. rewrite no_errors_iff_resolved. tauto.
Qed.

(** C2, amended.  With a connection and a primary key, the statements sent
    are those of the delete changes by descending row index, then those of
    the update changes by ascending row index, then those of the insert
    changes by ascending row index; changes of the same kind with the same
    row index keep the order in which they were supplied. *)
Theorem applyChanges_execution_order (manager : ConnectionManager)
    (changes : list RowChange) (columns : list ColumnInfo)
    (tableName : string) (pks : list string) (connectionId : option string)
    (w : World) (connection : Connection) :
  resolveConnection manager connectionId = Some connection ->
  pks <> [] ->
  exists deletes updates inserts,
    issued (snd (applyChanges manager changes columns tableName pks
                   connectionId w))
    = (issued w ++ List.map (statementOf connection tableName pks columns)
                     (deletes ++ updates ++ inserts))%list
    /\ Permutation deletes (List.filter isDelete changes)
    /\ StronglySorted descending deletes
    /\ Permutation updates (List.filter isUpdate changes)
    /\ StronglySorted ascending updates
    /\ Permutation inserts (List.filter isInsert changes)
    /\ StronglySorted ascending inserts
    /\ forall t i,
         List.filter (sameKey t i) (deletes ++ updates ++ inserts)%list
         = List.filter (sameKey t i) changes.
Proof.
  intros Hc Hpk.
  exists (List.filter isDelete (sortedChanges changes)),
         (List.filter isUpdate (sortedChanges changes)),
         (List.filter isInsert (sortedChanges changes)).
  pose proof (sortedChanges_sorted changes) as Hs.
  rewrite <- (sorted_by_kind _ Hs).
  split.
  { unfold applyChanges. rewrite Hc.
    destruct pks as [|pk pks]; [contradiction|]. cbn [List.length Nat.eqb].
    apply applyChange_loop. }
  assert (forall f, List.Forall (fun c => f c = true)
                      (List.filter f (sortedChanges changes))) as Hall.
  { intros f. apply List.Forall_forall. intros c Hin.
    now apply filter_In in Hin. }
  split; [apply filter_Permutation_bool, sortedChanges_Permutation|].
  split.
  { apply StronglySorted_weaken
      with (R := before compareChanges) (P := fun c => isDelete c = true);
      [|apply Hall|now apply filter_StronglySorted].
    intros a b Ha Hb. unfold before, compareChanges, descending.
    destruct a, b; simpl in *; try discriminate; lia. }
  split; [apply filter_Permutation_bool, sortedChanges_Permutation|].
  split.
  { apply StronglySorted_weaken
      with (R := before compareChanges) (P := fun c => isUpdate c = true);
      [|apply Hall|now apply filter_StronglySorted].
    intros a b Ha Hb. unfold before, compareChanges, ascending.
    destruct a, b; simpl in *; try discriminate; lia. }
  split; [apply filter_Permutation_bool, sortedChanges_Permutation|].
  split.
  { apply StronglySorted_weaken
      with (R := before compareChanges) (P := fun c => isInsert c = true);
      [|apply Hall|now apply filter_StronglySorted].
    intros a b Ha Hb. unfold before, compareChanges, ascending.
    destruct a, b; simpl in *; try discriminate; lia. }
  intros t i. apply sortedChanges_stable.
Qed.

End Reconciler.

Lemma applyChanges_without_primary_key_witness :
  resolveConnection sampleManager (Some "c1") = Some sampleConnection
  /\ applyChanges sampleManager sampleChanges sampleColumns "t" [] (Some "c1")
       (sampleWorld [])
     = (mkResult false 0
          ["Cannot modify data without primary key columns defined"] [],
        sampleWorld []).
Proof.
  split; [reflexivity|].
  apply (applyChanges_without_primary_key sampleManager sampleChanges
           sampleColumns "t" (Some "c1") (sampleWorld []) sampleConnection).
  reflexivity.
Defined.

Lemma applyChanges_collects_failures_witness :
  let script := [Resolved (Some 1%N); Rejected "duplicate key"; Resolved None] in
  let out := applyChanges sampleManager sampleChanges sampleColumns "t" ["id"]
               (Some "c1") (sampleWorld script) in
  let log := answers sampleConnection "t" ["id"] sampleColumns
               (sortedChanges sampleChanges) (sampleWorld script) in
  List.map fst log = sortedChanges sampleChanges
  /\ List.length log = List.length sampleChanges
  /\ issued (snd out)
     = (issued (sampleWorld script)
        ++ List.map (fun a => statementOf sampleConnection "t" ["id"]
                                sampleColumns (fst a)) log)%list
  /\ errors (fst out) = flat_map errorOf log
  /\ affectedRows (fst out) = total (List.map rowsOf log)
  /\ (success (fst out) = true <-> List.Forall resolved log)
  /\ (success (fst out) = true <-> errors (fst out) = []).
Proof.
  intros script.
  apply (applyChanges_collects_failures sampleManager sampleChanges
           sampleColumns "t" ["id"] (Some "c1") (sampleWorld script)
           sampleConnection); [reflexivity | discriminate].
Defined.

(** The scenario of the specification, run: the delete, the update and the
    insert are sent in this order; the second statement is rejected and the
    third is still sent. *)
Example applyChanges_scenario :
  applyChanges sampleManager sampleChanges sampleColumns "t" ["id"] (Some "c1")
    (sampleWorld [Resolved (Some 1%N); Rejected "duplicate key"; Resolved None])
  = (mkResult false 1 ["update row 0: duplicate key"]
       [ ("DELETE FROM t WHERE " ++ quoted "id" ++ " = 6")%string;
         ("UPDATE t SET " ++ quoted "name" ++ " = 'B' WHERE " ++ quoted "id" ++ " = 1")%string;
         ("INSERT INTO t (" ++ quoted "name" ++ ") VALUES ('C')")%string ],
     @mkWorld sampleHost scriptedServer []
       [ ("pool-c1", ("DELETE FROM t WHERE " ++ quoted "id" ++ " = $1")%string, [num 6]);
         ("pool-c1", ("UPDATE t SET " ++ quoted "name" ++ " = $1 WHERE " ++ quoted "id" ++ " = $2")%string,
          [str "B"; num 1]);
         ("pool-c1", ("INSERT INTO t (" ++ quoted "name" ++ ") VALUES ($1)")%string, [str "C"]) ]).
Proof. vm_compute. reflexivity. Qed.

(** C2, counterexample.  Two inserts supplied with row indices -1 and -2
    are sent in the opposite order: the comparator orders inserts by row
    index. *)
Lemma applyChanges_reorders_inserts :
  sortedChanges sampleInserts
    = [ Insert (-2) [("name", str "B")]; Insert (-1) [("name", str "A")] ]
  /\ sortedChanges sampleInserts <> claimedOrder sampleInserts
  /\ issued (snd (applyChanges sampleManager sampleInserts sampleColumns "t"
                    ["id"] (Some "c1") (sampleWorld [])))
     = [ ("pool-c1", ("INSERT INTO t (" ++ quoted "name" ++ ") VALUES ($1)")%string, [str "B"]);
         ("pool-c1", ("INSERT INTO t (" ++ quoted "name" ++ ") VALUES ($1)")%string, [str "A"]) ].
Proof.
  split; [vm_compute; reflexivity|].
  split; [vm_compute; discriminate | vm_compute; reflexivity].
Qed.

Lemma applyChanges_execution_order_witness :
  resolveConnection sampleManager (Some "c1") = Some sampleConnection
  /\ ["id"] <> []
  /\ exists deletes updates inserts,
       issued (snd (applyChanges sampleManager sampleChanges sampleColumns "t"
                      ["id"] (Some "c1") (sampleWorld [])))
       = (issued (sampleWorld [])
          ++ List.map (statementOf sampleConnection "t" ["id"] sampleColumns)
               (deletes ++ updates ++ inserts))%list
       /\ Permutation deletes (List.filter isDelete sampleChanges)
       /\ StronglySorted descending deletes
       /\ Permutation updates (List.filter isUpdate sampleChanges)
       /\ StronglySorted ascending updates
       /\ Permutation inserts (List.filter isInsert sampleChanges)
       /\ StronglySorted ascending inserts
       /\ forall t i,
            List.filter (sameKey t i) (deletes ++ updates ++ inserts)%list
            = List.filter (sameKey t i) sampleChanges.
Proof.
  split; [reflexivity|]. split; [discriminate|].
  apply (applyChanges_execution_order sampleManager sampleChanges
           sampleColumns "t" ["id"] (Some "c1") (sampleWorld [])
           sampleConnection); [reflexivity | discriminate].
Defined.

(** ** The query executor *)

Section Execution.
Context `{Host}.

(** A cancellation request leaves everything but the cancelled mark and the
    log of requests sent as it is, and it marks a running query. *)
Lemma cancelCurrentQuery_effect (manager : ConnectionManager) (e : Executor)
    (sent : bool) :
  let e' := fst (cancelCurrentQuery manager e sent) in
  queryHistory e' = queryHistory e /\ fired e' = fired e
  /\ checkedOut e' = checkedOut e /\ queryRunning e' = queryRunning e
  /\ (activeQuery e = None -> activeQuery e' = None)
  /\ (activeQuery e <> None -> markedCancelled e' = true).
Proof.
  unfold cancelCurrentQuery, markedCancelled.
  destruct (activeQuery e) as [aq|] eqn:Ea; simpl.
  - destruct (cancelled aq) eqn:Ec; simpl.
    + rewrite Ea, Ec. repeat split; congruence.
    + destruct (getConnection manager (connectionId aq)); [destruct sent|];
        simpl; repeat split; congruence.
  - rewrite Ea. repeat split; congruence.
Qed.

Lemma whileRunning_effect (manager : ConnectionManager) (requests : list bool) :
  forall e,
    let e' := whileRunning manager requests e in
    queryHistory e' = queryHistory e /\ fired e' = fired e
    /\ checkedOut e' = checkedOut e /\ queryRunning e' = queryRunning e
    /\ (activeQuery e <> None -> requests <> [] -> markedCancelled e' = true)
    /\ (activeQuery e <> None -> activeQuery e' <> None).
Proof.
  induction requests as [|sent later IH]; intros e; cbv zeta.
  - simpl. repeat split; auto; congruence.
  - change (whileRunning manager (sent :: later) e)
      with (whileRunning manager later (fst (cancelCurrentQuery manager e sent))).
    destruct (cancelCurrentQuery_effect manager e sent)
      as (C1 & C2 & C3 & C4 & C5 & C6).
    destruct (IH (fst (cancelCurrentQuery manager e sent)))
      as (I1 & I2 & I3 & I4 & I5 & I6).
    cbv zeta in *.
    assert (activeQuery e <> None ->
            activeQuery (fst (cancelCurrentQuery manager e sent)) <> None)
      as Hkeep.
    { intros Ha Hn. specialize (C6 Ha). unfold markedCancelled in C6.
      rewrite Hn in C6. discriminate. }
    split; [congruence|]. split; [congruence|]. split; [congruence|].
    split; [congruence|]. split.
    + intros Ha _. destruct later as [|s l].
      * simpl. now apply C6.
      * apply I5; [now apply Hkeep | discriminate].
    + intros Ha. now apply I6, Hkeep.
Qed.

(** A cancellation request that arrives while the statement runs marks the
    ActiveQuery. *)
Lemma request_marks_cancelled (manager : ConnectionManager) (run : Run)
    (e : Executor) (c : PoolClient) (p : Z) (connection : Connection) :
  cancelRequests run <> [] ->
  markedCancelled (whileRunning manager (cancelRequests run)
                     (started e c p connection)) = true.
Proof.
  intros Hr. apply whileRunning_effect; [discriminate | exact Hr].
Qed.

Lemma connect_inv (e e1 : Executor) (connection : Connection)
    (answer : option string) (c : PoolClient) :
  connect e connection answer = (e1, inl c) ->
  (inUse e (pool connection) < poolMax)%nat
  /\ clientPool c = pool connection
  /\ queryHistory e1 = queryHistory e /\ fired e1 = fired e
  /\ checkedOut e1
     = <[pool connection := S (inUse e (pool connection))]> (checkedOut e).
Proof.
  unfold connect.
  destruct (inUse e (pool connection) <? poolMax)%nat eqn:E;
    [|discriminate].
  destruct answer; [discriminate|]. intros [= <- <-]. simpl.
  apply Nat.ltb_lt in E. auto.
Qed.

Lemma release_after_connect (e e1 e3 : Executor) (connection : Connection)
    (answer : option string) (c : PoolClient) :
  connect e connection answer = (e1, inl c) ->
  checkedOut e3 = checkedOut e1 ->
  default 0%nat (release e3 (Some c) !! pool connection)
  = inUse e (pool connection).
Proof.
  intros Hc H3. apply connect_inv in Hc as (_ & Hp & _ & _ & Hout).
  unfold release, inUse. rewrite Hp, H3, Hout.
  rewrite !lookup_insert_eq. reflexivity.
Qed.

(** C5, amended.  When the statement call is rejected and the ActiveQuery
    has been marked cancelled, or the text of the error contains one of the
    two cancellation signatures, [execute] returns a result whose error is
    the cancellation message; nothing is added to the history; the client
    is back in the pool and there is no ActiveQuery; and a later [execute]
    on the same connection id whose driver calls resolve returns a result
    without error. *)
Theorem execute_cancelled (manager : ConnectionManager) (sql : string)
    (connectionId : option string) (run : Run) (e e1 : Executor)
    (connection : Connection) (c : PoolClient) (p : Z) (message : string) :
  resolveConnection manager connectionId = Some connection ->
  connect e connection (connectOutcome run) = (e1, inl c) ->
  pidOutcome run = inl p ->
  statementOutcome run = inr message ->
  markedCancelled (whileRunning manager (cancelRequests run)
                     (started e1 c p connection)) = true
  \/ includes message "canceling statement due to user request" = true
  \/ includes message "57014" = true ->
  exists e',
    execute manager sql connectionId run e
    = (e', Returned (mkQueryResult [] [] 0 (endTime run - startTime run)
                       (Some "Query cancelled by user")))
    /\ queryHistory e' = queryHistory e
    /\ fired e' = fired e
    /\ activeQuery e' = None
    /\ queryRunning e' = false
    /\ inUse e' (pool connection) = inUse e (pool connection)
    /\ forall sql2 run2 p2 pgResult2,
         connectOutcome run2 = None ->
         pidOutcome run2 = inl p2 ->
         statementOutcome run2 = inl pgResult2 ->
         exists e'' r,
           execute manager sql2 connectionId run2 e' = (e'', Returned r)
           /\ error r = None.
Proof.
  intros Hres Hcon Hpid Hstmt Hcancel.
  set (e3 := whileRunning manager (cancelRequests run)
               (started e1 c p connection)) in *.
  destruct (whileRunning_effect manager (cancelRequests run)
              (started e1 c p connection)) as (W1 & W2 & W3 & _).
  fold e3 in W1, W2, W3. simpl in W1, W2, W3.
  pose proof (connect_inv _ _ _ _ _ Hcon) as (Hlt & Hp & C1 & C2 & _).
  assert (wasCancelled e3 message = true) as Hwas.
  { unfold wasCancelled. destruct Hcancel as [-> | [-> | ->]];
      rewrite ?orb_true_r; reflexivity. }
  exists (finish e3 (Some c)).
  split.
  { unfold execute. rewrite Hres, Hcon, Hpid, Hstmt. fold e3.
    unfold failed. rewrite Hwas. reflexivity. }
  split; [simpl; congruence|]. split; [simpl; congruence|].
  split; [reflexivity|]. split; [reflexivity|].
  assert (inUse (finish e3 (Some c)) (pool connection)
          = inUse e (pool connection)) as Hin.
  { unfold inUse at 1. cbn [finish checkedOut].
    now apply release_after_connect with (e1 := e1) (answer := connectOutcome run). }
  split; [exact Hin|].
  intros sql2 run2 p2 pg2 Hc2 Hp2 Hs2.
  unfold execute. rewrite Hres, Hc2, Hp2, Hs2. unfold connect.
  rewrite Hin. apply Nat.ltb_lt in Hlt. rewrite Hlt.
  unfold succeeded. eexists _, _. split; reflexivity.
Qed.

End Execution.

(** C5, counterexample.  A cancellation request arrives while the statement
    runs and marks the ActiveQuery, the statement then resolves: the result
    carries no error, and the execution is recorded in the history as a
    success. *)
Lemma execute_cancel_arrives_late :
  markedCancelled
    (whileRunning sampleManager (cancelRequests lateCancelRun)
       (started idleExecutor (mkClient "pool-c1" 0) 4242 sampleConnection))
  = true
  /\ exists e' r,
       execute sampleManager "SELECT 1" (Some "c1") lateCancelRun idleExecutor
       = (e', Returned r)
       /\ error r = None
       /\ cancelSent e' = [4242%Z]
       /\ List.map hError (queryHistory e') = [None].
Proof.
  split; [vm_compute; reflexivity|].
  eexists _, _. split; [vm_compute; reflexivity|].
  repeat split.
Qed.

Lemma execute_cancelled_witness :
  exists e',
    execute sampleManager "SELECT pg_sleep(60)" (Some "c1") cancelledRun
      idleExecutor
    = (e', Returned (mkQueryResult [] [] 0 5 (Some "Query cancelled by user")))
    /\ queryHistory e' = []
    /\ fired e' = []
    /\ activeQuery e' = None
    /\ queryRunning e' = false
    /\ inUse e' "pool-c1" = 0%nat
    /\ forall sql2 (run2 : @Run sampleHost) p2 pgResult2,
         connectOutcome run2 = None ->
         pidOutcome run2 = inl p2 ->
         statementOutcome run2 = inl pgResult2 ->
         exists e'' r,
           execute sampleManager sql2 (Some "c1") run2 e' = (e'', Returned r)
           /\ error r = None.
Proof.
  apply (@execute_cancelled sampleHost sampleManager "SELECT pg_sleep(60)"
           (Some "c1") cancelledRun idleExecutor
           (mkExecutor [] None false [] {[ "pool-c1" := 1%nat ]} [])
           sampleConnection (mkClient "pool-c1" 0) 4242
           "canceling statement due to user request").
  - reflexivity.
  - reflexivity.
  - reflexivity.
  - reflexivity.
  - left. vm_compute. reflexivity.
Defined.


(* ===================================================================== *)
(** * Part III.  Further properties                                       *)
(* ===================================================================== *)

(** ** The classifier and the row cap *)

Lemma startsWith_select_not_modification (n : string) :
  startsWith n "SELECT " = true \/ startsWith n "WITH " = true ->
  existsb (fun keyword => startsWith n (keyword ++ " ") || (n =? keyword))
    modificationKeywords = false.
Proof.
  unfold startsWith.
  intros [Hp|Hp]; apply prefix_inv in Hp as [r ->]; reflexivity.
Qed.

Lemma classification_exclusive_bool (sql : string) :
  isSelectQuery sql && isModificationQuery sql = false.
Proof.
  unfold isSelectQuery, isModificationQuery.
  destruct (startsWith (normalizeSql sql) "SELECT "
            || startsWith (normalizeSql sql) "WITH ") eqn:E; [|reflexivity].
  apply orb_true_iff in E.
  now rewrite startsWith_select_not_modification.
Qed.

(** X1.  No statement is classified both as a read and as a modification:
    a statement for which a confirmation is asked is never capped, and a
    capped statement never asks for confirmation. *)
Theorem classification_exclusive (sql : string) :
  (isSelectQuery sql = true -> isModificationQuery sql = false)
  /\ (isModificationQuery sql = true -> isSelectQuery sql = false
      /\ capRows sql = (sql, false)).
Proof.
  pose proof (classification_exclusive_bool sql) as H.
  unfold capRows.
  destruct (isSelectQuery sql), (isModificationQuery sql);
    cbn in H |- *; repeat split; congruence.
Qed.

Lemma classification_exclusive_witness :
  isModificationQuery "select 1" = false
  /\ isSelectQuery "delete from t" = false
  /\ capRows "delete from t" = ("delete from t", false).
Proof.
  split; [apply (classification_exclusive "select 1"); reflexivity|].
  apply (classification_exclusive "delete from t"); reflexivity.
Defined.
Lemma startsWs_trimStart (s : string) : startsWs (trimStart s) = false.
Proof.
  induction s as [|c r IH]; [reflexivity|].
  simpl. destruct (isWhiteSpace c) eqn:E; [exact IH | simpl; exact E].
Qed.

Lemma startsWs_trimEnd (s : string) :
  startsWs s = false -> startsWs (trimEnd s) = false.
Proof.
  destruct s as [|c r]; [reflexivity|]. simpl. intros E.
  destruct (trimEnd r); [rewrite E|]; simpl; auto.
Qed.

Lemma startsWs_trim (s : string) : startsWs (trim s) = false.
Proof. apply startsWs_trimEnd, startsWs_trimStart. Qed.

Lemma lastWs_trim (s : string) : lastWs false (trim s) = false.
Proof. apply trimEnd_lastWs. Qed.

Lemma trim_id (s : string) :
  startsWs s = false -> lastWs false s = false -> trim s = s.
Proof.
  intros Hs He. unfold trim. now rewrite trimStart_id, trimEnd_id.
Qed.

Lemma trim_trim (s : string) : trim (trim s) = trim s.
Proof. apply trim_id; [apply startsWs_trim | apply lastWs_trim]. Qed.

Lemma lastWs_digits (b : bool) (d tail : string) :
  allChars isDigit d = true -> d <> "" -> tail = "" \/ tail = ";" ->
  lastWs b (d ++ tail) = false.
Proof.
  revert b. induction d as [|c r IH]; intros b Hd Hne Ht; [congruence|].
  simpl in Hd. apply andb_prop in Hd as [Hc Hr].
  assert (isWhiteSpace c = false) as Hw.
  { destruct c as [[] [] [] [] [] [] [] []]; vm_compute in Hc |- *;
      congruence. }
  simpl. destruct r as [|c' r'].
  - simpl. destruct Ht as [->| ->]; simpl; [exact Hw | reflexivity].
  - apply IH; [exact Hr | discriminate | exact Ht].
Qed.

Lemma lastWs_tail (b : bool) (x y : string) :
  y <> "" -> lastWs b (x ++ y) = lastWs false y.
Proof. intros Hy. rewrite lastWs_append. now apply lastWs_nonempty. Qed.

(** The capped text as [trim] leaves it. *)
Lemma trim_capped (t d tail : string) :
  startsWs t = false -> allChars isDigit d = true -> d <> "" ->
  tail = "" \/ tail = ";" ->
  trim (t ++ " LIMIT " ++ d ++ tail)
  = (if truthy t then t ++ " " else "") ++ "LIMIT" ++ " " ++ d ++ tail.
Proof.
  intros Ht Hd Hne Htail.
  assert (d ++ tail <> "") as Hdt by (destruct d; [congruence | discriminate]).
  pose proof (lastWs_digits false d tail Hd Hne Htail) as Hl.
  destruct t as [|c r].
  - unfold trim.
    change (trimStart ("" ++ " LIMIT " ++ d ++ tail))
      with ("LIMIT " ++ d ++ tail).
    rewrite trimEnd_id; [reflexivity|].
    now rewrite (lastWs_tail false "LIMIT " (d ++ tail)).
  - cbn [truthy].
    transitivity (String c r ++ " LIMIT " ++ d ++ tail);
      [| now rewrite append_assoc].
    apply trim_id; [exact Ht|].
    replace (String c r ++ " LIMIT " ++ d ++ tail)
      with ((String c r ++ " LIMIT ") ++ (d ++ tail))
      by now rewrite append_assoc.
    now rewrite lastWs_tail.
Qed.

Lemma addLimitClause_plain (sql : string) (n : N) :
  endsWith (trim sql) ";" = false ->
  addLimitClause sql n = trim sql ++ " LIMIT " ++ showN n ++ "".
Proof. intros E. unfold addLimitClause. now rewrite E. Qed.

Lemma addLimitClause_semicolon (sql body : string) (n : N) :
  trim sql = body ++ ";" ->
  addLimitClause sql n = trim body ++ " LIMIT " ++ showN n ++ ";".
Proof.
  intros E. unfold addLimitClause. rewrite E, endsWith_append.
  now rewrite sliceButLast_append.
Qed.

(** X2.  For a limit that is a safe integer, the cap that
    [addLimitClause] adds is recognised by [hasLimitClause] exactly when
    the statement did not end in a semicolon. *)
Theorem hasLimitClause_addLimitClause (sql : string) (n : N) :
  (n <= maxSafeInteger)%N ->
  hasLimitClause (addLimitClause sql n) = negb (endsWith (trim sql) ";").
Proof.
  intros _. destruct (endsWith (trim sql) ";") eqn:E.
  - apply endsWith_inv in E as [body E].
    rewrite (addLimitClause_semicolon sql body n E). cbn [negb].
    apply hasLimitClause_semicolon.
    rewrite trim_capped;
      [| apply startsWs_trim | apply showN_digits | apply showN_nonempty
       | now right].
    replace ((if truthy (trim body) then trim body ++ " " else "")
             ++ "LIMIT" ++ " " ++ showN n ++ ";")
      with (((if truthy (trim body) then trim body ++ " " else "")
             ++ "LIMIT" ++ " " ++ showN n) ++ ";")
      by now rewrite !append_assoc.
    apply endsWith_append.
  - rewrite (addLimitClause_plain sql n E). cbn [negb].
    apply (hasLimitClause_limit _
             (if truthy (trim sql) then trim sql ++ " " else "")
             "LIMIT" " " (showN n)).
    + rewrite trim_capped;
        [| apply startsWs_trim | apply showN_digits | apply showN_nonempty
         | now left].
      now rewrite !append_nil_r.
    + destruct (trim sql) as [|c r]; [reflexivity|]. cbn [truthy].
      now rewrite lastChar_append.
    + reflexivity.
    + reflexivity.
    + unfold isRun. rewrite showN_digits.
      destruct (showN n) eqn:Es; [now apply showN_nonempty in Es|].
      reflexivity.
Qed.

Lemma hasLimitClause_addLimitClause_witness :
  hasLimitClause (addLimitClause "select * from t" 100) = true
  /\ hasLimitClause (addLimitClause "select * from t ; " 100) = false.
Proof.
  split.
  - apply (hasLimitClause_addLimitClause "select * from t" 100).
    unfold maxSafeInteger. lia.
  - apply (hasLimitClause_addLimitClause "select * from t ; " 100).
    unfold maxSafeInteger. lia.
Defined.
Ltac strip_end :=
  eexists; split;
  [ unfold emit, snoc; cbn [result];
    first [reflexivity | symmetry; apply append_nil_r]
  | cbn [list_ascii_of_string append]; repeat constructor ].

Ltac strip_leaf IH :=
  lazymatch goal with
  | |- exists added, result (stripLoop ?r ?st') = _ /\ _ =>
      let a := fresh "added" in
      let Hr := fresh "Hr" in
      let Hs := fresh "Hs" in
      destruct (IH r st') as (a & Hr & Hs); [simpl in *; lia|];
      rewrite Hr; eexists; split;
      [ unfold emit, snoc; cbn [result]; rewrite ?append_assoc; reflexivity
      | cbn [list_ascii_of_string append];
        repeat (assumption || constructor) ]
  | |- _ => strip_end
  end.

Lemma stripLoop_deletes (n : nat) :
  forall sql st,
    (String.length sql <= n)%nat ->
    exists added,
      result (stripLoop sql st) = result st ++ added
      /\ sublist (list_ascii_of_string added) (list_ascii_of_string sql).
Proof.
  induction n as [|n IH]; intros sql st Hn.
  - destruct sql; [|simpl in Hn; lia]. strip_end.
  - destruct sql as [|c rest]; [strip_end|].
    cbn [String.length] in Hn. cbn [stripLoop].
    repeat match goal with
           | |- context [if ?b then _ else _] => destruct b
           | |- context [match rest with EmptyString => _ | String _ _ => _ end] =>
               destruct rest; cbn [String.length] in Hn
           end; strip_leaf IH.
Qed.

(** X3.  [stripSqlComments] only removes characters: what it returns is
    the text with some of its characters left out, in the same order. *)
Theorem stripSqlComments_deletes (sql : string) :
  sublist (list_ascii_of_string (stripSqlComments sql))
    (list_ascii_of_string sql)
  /\ (String.length (stripSqlComments sql) <= String.length sql)%nat.
Proof.
  destruct (stripLoop_deletes (String.length sql) sql stripInit (le_n _))
    as (added & Hr & Hs).
  unfold stripSqlComments. rewrite Hr. cbn [result stripInit append].
  split; [exact Hs|].
  apply sublist_length in Hs.
  assert (forall s, List.length (list_ascii_of_string s) = String.length s)
    as Hlen by (induction s; simpl; congruence).
  now rewrite !Hlen in Hs.
Qed.
Lemma prefix_two (a b c : ascii) (s : string) :
  prefix (String a (String b "")) (String c s)
  = Ascii.eqb c a && charIs b (headChar s).
Proof.
  cbn [prefix]. destruct (ascii_dec a c) as [->|Hne].
  - rewrite Ascii.eqb_refl. destruct s as [|d s]; [reflexivity|].
    cbn [prefix headChar charIs andb]. destruct (ascii_dec b d) as [->|Hne].
    + rewrite Ascii.eqb_refl. now destruct s.
    + symmetry. now apply Ascii.eqb_neq.
  - assert (Ascii.eqb c a = false) as -> by (apply Ascii.eqb_neq; congruence).
    reflexivity.
Qed.

Lemma includes_cons (c : ascii) (s p : string) :
  includes (String c s) p = false ->
  prefix p (String c s) = false /\ includes s p = false.
Proof. cbn [includes]. intros E. now apply orb_false_iff in E. Qed.

Lemma stripLoop_plain (n : nat) :
  forall sql res inS q,
    (String.length sql <= n)%nat ->
    includes sql "--" = false -> includes sql "/*" = false ->
    result (stripLoop sql (mkStrip res inS q false false)) = res ++ sql.
Proof.
  induction n as [|n IH]; intros sql res inS q Hn Hline Hblock.
  - destruct sql; [|simpl in Hn; lia]. cbn. now rewrite append_nil_r.
  - destruct sql as [|c rest]; [cbn; now rewrite append_nil_r|].
    cbn [String.length] in Hn.
    apply includes_cons in Hline as [Hl1 Hl2].
    apply includes_cons in Hblock as [Hb1 Hb2].
    rewrite prefix_two in Hl1, Hb1.
    cbn [stripLoop sInString sInBlockComment sInLineComment sStringChar
           result negb].
    rewrite !andb_true_r.
    destruct inS; cbn [negb andb].
    + (* inside a string *)
      destruct (charIs c q).
      * destruct rest as [|a rest'].
        -- reflexivity.
        -- destruct (charIs a q).
           ++ unfold emit. cbn [result sInString sStringChar sInLineComment
                                  sInBlockComment].
              apply includes_cons in Hl2 as [_ Hl2].
              apply includes_cons in Hb2 as [_ Hb2].
              rewrite IH by (auto; cbn [String.length] in Hn; lia).
              now rewrite !snoc_append.
           ++ rewrite IH by (auto; lia). now rewrite snoc_append.
      * unfold emit. cbn [result sInString sStringChar sInLineComment
                             sInBlockComment].
        rewrite IH by (auto; lia). now rewrite snoc_append.
    + rewrite Hl1, Hb1.
      destruct (isQuote c); unfold emit;
        cbn [result sInString sStringChar sInLineComment sInBlockComment];
        rewrite IH by (auto; lia); now rewrite snoc_append.
Qed.

(** X4.  A text that holds neither [--] nor [/*] is returned unchanged,
    whatever quotes it holds. *)
Theorem stripSqlComments_without_comments (sql : string) :
  includes sql "--" = false -> includes sql "/*" = false ->
  stripSqlComments sql = sql.
Proof.
  intros Hl Hb. unfold stripSqlComments, stripInit.
  now rewrite (stripLoop_plain (String.length sql)).
Qed.

Lemma stripSqlComments_without_comments_witness :
  stripSqlComments "SELECT 'it''s' - 1 / 2 FROM t"
  = "SELECT 'it''s' - 1 / 2 FROM t".
Proof.
  apply stripSqlComments_without_comments; reflexivity.
Defined.
(** *** Replacing one character *)

Lemma replaceLoop_lit (x : ascii) (repl : string) (s : string) :
  occurs "$" repl = false ->
  forall before prev,
    replaceLoop false (Lit x) repl before prev s 0 = substChar x repl s.
Proof.
  intros Hrepl. induction s as [|c r IH]; intros before prev; [reflexivity|].
  cbn [replaceLoop matchHere rmatch charEq substChar].
  destruct (Ascii.eqb x c).
  - replace (String.length (String c r) - String.length r)%nat with 1%nat
      by (cbn [String.length]; lia).
    rewrite expand_plain by exact Hrepl. now rewrite IH.
  - now rewrite IH.
Qed.

Lemma replaceAll_lit (x : ascii) (repl : string) (s : string) :
  occurs "$" repl = false -> replaceAll false (Lit x) repl s = substChar x repl s.
Proof. intros Hrepl. now apply replaceLoop_lit. Qed.

Lemma quoteLiteral_substChar (s : string) :
  quoteLiteral s = "'" ++ substChar "'" "''" s ++ "'".
Proof.
  unfold quoteLiteral, reQuote. now rewrite replaceAll_lit.
Qed.
(** *** The scanners on plain text, literals and comments *)

Lemma isPlainChar_inv (c : ascii) :
  isPlainChar c = true ->
  isQuote c = false /\ Ascii.eqb c "-" = false /\ Ascii.eqb c "/" = false.
Proof.
  unfold isPlainChar. intros E.
  apply andb_prop in E as [E H3]. apply andb_prop in E as [H1 H2].
  now rewrite negb_true_iff in H1, H2, H3.
Qed.

Lemma stripLoop_plain_text (a : string) :
  allChars isPlainChar a = true ->
  forall rest res q,
    stripLoop (a ++ rest) (mkStrip res false q false false)
    = stripLoop rest (mkStrip (res ++ a) false q false false).
Proof.
  induction a as [|c r IH]; intros Ha rest res q.
  - cbn [append]. now rewrite append_nil_r.
  - cbn [allChars] in Ha. apply andb_prop in Ha as [Hc Hr].
    apply isPlainChar_inv in Hc as (Hq & Hd & Hs).
    cbn [append stripLoop sInString sInBlockComment sInLineComment
           sStringChar result negb].
    rewrite Hq, Hd, Hs. cbn [andb]. unfold emit.
    cbn [result sInString sStringChar sInLineComment sInBlockComment].
    rewrite IH by exact Hr. now rewrite snoc_append.
Qed.

Lemma charIs_quote (c : ascii) :
  charIs c (Some "'"%char) = Ascii.eqb "'" c.
Proof. cbn [charIs]. apply Ascii.eqb_sym. Qed.

Lemma stripLoop_in_literal (s : string) :
  forall rest res,
    charIs "'" (headChar rest) = false ->
    stripLoop (substChar "'" "''" s ++ String "'" rest)
      (mkStrip res true (Some "'"%char) false false)
    = stripLoop rest
        (mkStrip (res ++ substChar "'" "''" s ++ "'") false (Some "'"%char)
           false false).
Proof.
  induction s as [|c r IH]; intros rest res Hrest.
  - cbn [substChar append stripLoop sInString sInBlockComment sInLineComment
           sStringChar result negb andb charIs].
    rewrite Ascii.eqb_refl.
    destruct rest as [|next rest']; [reflexivity|].
    cbn [headChar charIs] in Hrest.
    cbn [charIs]. rewrite Ascii.eqb_sym, Hrest. reflexivity.
  - cbn [substChar]. destruct (Ascii.eqb "'" c) eqn:E.
    + apply Ascii.eqb_eq in E as <-.
      cbn [append stripLoop sInString sInBlockComment sInLineComment
             sStringChar result negb andb charIs].
      rewrite Ascii.eqb_refl. unfold emit.
      cbn [result sInString sStringChar sInLineComment sInBlockComment].
      rewrite IH by exact Hrest. unfold snoc. now rewrite !append_assoc.
    + cbn [append stripLoop sInString sInBlockComment sInLineComment
             sStringChar result negb andb].
      rewrite charIs_quote. rewrite E. unfold emit.
      cbn [result sInString sStringChar sInLineComment sInBlockComment].
      rewrite IH by exact Hrest. now rewrite snoc_append.
Qed.

Lemma stripLoop_literal (s rest res : string) (q : option ascii) :
  charIs "'" (headChar rest) = false ->
  stripLoop (quoteLiteral s ++ rest) (mkStrip res false q false false)
  = stripLoop rest
      (mkStrip (res ++ quoteLiteral s) false (Some "'"%char) false false).
Proof.
  intros Hrest. rewrite quoteLiteral_substChar.
  replace (("'" ++ substChar "'" "''" s ++ "'") ++ rest)
    with (String "'" (substChar "'" "''" s ++ String "'" rest))
    by (cbn [append]; now rewrite append_assoc).
  cbn [stripLoop sInString sInBlockComment sInLineComment sStringChar result
         negb andb].
  change (Ascii.eqb "'" "-") with false.
  change (Ascii.eqb "'" "/") with false.
  change (isQuote "'") with true. cbn [andb].
  rewrite stripLoop_in_literal by exact Hrest.
  unfold snoc. now rewrite !append_assoc.
Qed.
Lemma stripLoop_result (n : nat) :
  forall sql res inS q line block,
    (String.length sql <= n)%nat ->
    result (stripLoop sql (mkStrip res inS q line block))
    = res ++ result (stripLoop sql (mkStrip "" inS q line block)).
Proof.
  induction n as [|n IH]; intros sql res inS q line block Hn.
  - destruct sql; [|simpl in Hn; lia]. cbn. now rewrite append_nil_r.
  - destruct sql as [|c rest]; [cbn; now rewrite append_nil_r|].
    cbn [String.length] in Hn.
    cbn [stripLoop sInString sInBlockComment sInLineComment sStringChar
           result].
    repeat match goal with
           | |- context [if ?b then _ else _] => destruct b
           | |- context [match rest with
                         | EmptyString => _ | String _ _ => _ end] =>
               destruct rest; cbn [String.length] in Hn
           end;
      unfold emit;
      cbn [result sInString sStringChar sInLineComment sInBlockComment];
      try match goal with
          | |- result (stripLoop ?r (mkStrip ?x _ _ _ _))
               = _ ++ result (stripLoop ?r (mkStrip ?y _ _ _ _)) =>
              rewrite (IH r x), (IH r y) by (cbn [String.length]; lia)
          end;
      unfold snoc; cbn [append]; rewrite ?append_assoc, ?append_nil_r;
      reflexivity.
Qed.

Lemma stripLoop_continue (sql res : string) :
  result (stripLoop sql (mkStrip res false None false false))
  = res ++ stripSqlComments sql.
Proof. apply (stripLoop_result (String.length sql)), le_n. Qed.

(** Inside a line comment, up to the end of the line. *)
Lemma stripLoop_in_line (n : nat) :
  forall body rest res q,
    (String.length body <= n)%nat -> occurs LF body = false ->
    stripLoop (body ++ String LF rest) (mkStrip res false q true false)
    = stripLoop rest (mkStrip (snoc res LF) false q false false).
Proof.
  induction n as [|n IH]; intros body rest res q Hn Hlf.
  - destruct body; [|simpl in Hn; lia]. reflexivity.
  - destruct body as [|c body]; [reflexivity|].
    cbn [String.length] in Hn. cbn [occurs] in Hlf.
    apply orb_false_iff in Hlf as [Hc Hlf].
    rewrite Ascii.eqb_sym in Hc.
    cbn [append stripLoop sInString sInBlockComment sInLineComment
           sStringChar result negb andb].
    destruct (Ascii.eqb c "-" && charIs "-" (headChar (body ++ String LF rest)))
      eqn:E.
    + apply andb_prop in E as [_ E].
      destruct body as [|d body].
      * cbn [append headChar charIs] in E. discriminate.
      * cbn [append]. cbn [occurs] in Hlf.
        apply orb_false_iff in Hlf as [_ Hlf].
        apply IH; [cbn [String.length] in Hn; lia | exact Hlf].
    + rewrite Hc. apply IH; [lia | exact Hlf].
Qed.

(** Inside a line comment that the text does not end. *)
Lemma stripLoop_in_last_line (n : nat) :
  forall body res q,
    (String.length body <= n)%nat -> occurs LF body = false ->
    result (stripLoop body (mkStrip res false q true false)) = res.
Proof.
  induction n as [|n IH]; intros body res q Hn Hlf.
  - destruct body; [|simpl in Hn; lia]. reflexivity.
  - destruct body as [|c body]; [reflexivity|].
    cbn [String.length] in Hn. cbn [occurs] in Hlf.
    apply orb_false_iff in Hlf as [Hc Hlf].
    rewrite Ascii.eqb_sym in Hc.
    cbn [stripLoop sInString sInBlockComment sInLineComment
           sStringChar result negb andb].
    destruct (Ascii.eqb c "-" && charIs "-" (headChar body)).
    + destruct body as [|d body]; [reflexivity|].
      cbn [occurs] in Hlf. apply orb_false_iff in Hlf as [_ Hlf].
      apply IH; [cbn [String.length] in Hn; lia | exact Hlf].
    + rewrite Hc. apply IH; [lia | exact Hlf].
Qed.
Lemma lastChar_nonempty (p p' : option ascii) (s : string) :
  s <> "" -> lastChar p s = lastChar p' s.
Proof. destruct s; [congruence | reflexivity]. Qed.

Lemma lastChar_tail (c : ascii) (s : string) :
  charIs "/" (lastChar None (String c s)) = false ->
  charIs "/" (lastChar None s) = false.
Proof.
  destruct s as [|d s]; [reflexivity|]. cbn [lastChar]. auto.
Qed.

(** Inside a block comment, up to its end. *)
Lemma stripLoop_in_block (n : nat) :
  forall body rest res q,
    (String.length body <= n)%nat -> includes body "*/" = false ->
    charIs "/" (lastChar None body) = false ->
    stripLoop (body ++ String "*" (String "/" rest))
      (mkStrip res false q false true)
    = stripLoop rest (mkStrip res false q false false).
Proof.
  induction n as [|n IH]; intros body rest res q Hn Hin Hlast.
  - destruct body; [|simpl in Hn; lia]. reflexivity.
  - destruct body as [|c body]; [reflexivity|].
    cbn [String.length] in Hn.
    apply includes_cons in Hin as [Hp Hin]. rewrite prefix_two in Hp.
    cbn [append stripLoop sInString sInBlockComment sInLineComment
           sStringChar result negb andb].
    destruct (Ascii.eqb c "/"
              && charIs "*" (headChar (body ++ String "*" (String "/" rest))))
      eqn:E.
    + apply andb_prop in E as [Ec E]. apply Ascii.eqb_eq in Ec as ->.
      destruct body as [|d body].
      * cbn [lastChar charIs] in Hlast. discriminate.
      * cbn [append]. apply includes_cons in Hin as [_ Hin].
        apply IH; [cbn [String.length] in Hn; lia | exact Hin |].
        now apply lastChar_tail, lastChar_tail in Hlast.
    + assert (Ascii.eqb c "*"
              && charIs "/" (headChar (body ++ String "*" (String "/" rest)))
              = false) as ->.
      { destruct body as [|d body]; [|exact Hp].
        cbn [append headChar charIs]. now rewrite andb_false_r. }
      apply IH; [lia | exact Hin | now apply lastChar_tail in Hlast].
Qed.
(** Inside a block comment that the text does not end. *)
Lemma stripLoop_in_last_block (n : nat) :
  forall body res q,
    (String.length body <= n)%nat -> includes body "*/" = false ->
    result (stripLoop body (mkStrip res false q false true)) = res.
Proof.
  induction n as [|n IH]; intros body res q Hn Hin.
  - destruct body; [|simpl in Hn; lia]. reflexivity.
  - destruct body as [|c body]; [reflexivity|].
    cbn [String.length] in Hn.
    apply includes_cons in Hin as [Hp Hin]. rewrite prefix_two in Hp.
    cbn [stripLoop sInString sInBlockComment sInLineComment
           sStringChar result negb andb].
    rewrite Hp.
    destruct (Ascii.eqb c "/" && charIs "*" (headChar body)).
    + destruct body as [|d body]; [reflexivity|].
      apply includes_cons in Hin as [_ Hin].
      apply IH; [cbn [String.length] in Hn; lia | exact Hin].
    + apply IH; [lia | exact Hin].
Qed.

(** X5.  After text that holds no quote, dash or slash, a line comment is
    removed up to the end of its line, which is kept; a block comment is
    removed with its delimiters; a comment that the text does not end is
    removed with everything after its opening. *)
Theorem stripSqlComments_removes_comments (a body rest : string) :
  allChars isPlainChar a = true ->
  (occurs LF body = false ->
   stripSqlComments (a ++ "--" ++ body ++ String LF rest)
   = a ++ String LF (stripSqlComments rest))
  /\ (occurs LF body = false -> stripSqlComments (a ++ "--" ++ body) = a)
  /\ (includes body "*/" = false ->
      charIs "/" (lastChar None body) = false ->
      stripSqlComments (a ++ "/*" ++ body ++ "*/" ++ rest)
      = a ++ stripSqlComments rest)
  /\ (includes body "*/" = false -> stripSqlComments (a ++ "/*" ++ body) = a).
Proof.
  intros Ha.
  assert (forall x, stripSqlComments (a ++ x)
                    = result (stripLoop x (mkStrip a false None false false)))
    as Hstart.
  { intros x. unfold stripSqlComments, stripInit.
    now rewrite stripLoop_plain_text. }
  rewrite !Hstart. cbn [append].
  repeat split.
  - intros Hlf.
    change (stripLoop (String "-" (String "-" (body ++ String LF rest)))
              (mkStrip a false None false false))
      with (stripLoop (body ++ String LF rest)
              (mkStrip a false None true false)).
    rewrite (stripLoop_in_line (String.length body)) by auto.
    rewrite stripLoop_continue. unfold snoc. now rewrite append_assoc.
  - intros Hlf.
    change (stripLoop (String "-" (String "-" body))
              (mkStrip a false None false false))
      with (stripLoop body (mkStrip a false None true false)).
    now apply (stripLoop_in_last_line (String.length body)).
  - intros Hin Hlast.
    change (stripLoop
              (String "/" (String "*" (body ++ String "*" (String "/" rest))))
              (mkStrip a false None false false))
      with (stripLoop (body ++ String "*" (String "/" rest))
              (mkStrip a false None false true)).
    rewrite (stripLoop_in_block (String.length body)) by auto.
    apply stripLoop_continue.
  - intros Hin.
    change (stripLoop (String "/" (String "*" body))
              (mkStrip a false None false false))
      with (stripLoop body (mkStrip a false None false true)).
    now apply (stripLoop_in_last_block (String.length body)).
Qed.

Lemma stripSqlComments_removes_comments_witness :
  stripSqlComments ("SELECT 1 " ++ "--" ++ " one; two" ++ String LF "FROM t")
  = "SELECT 1 " ++ String LF (stripSqlComments "FROM t")
  /\ stripSqlComments ("SELECT 1 " ++ "--" ++ " one; two") = "SELECT 1 "
  /\ stripSqlComments ("SELECT 1 " ++ "/*" ++ " one; /* two" ++ "*/" ++ "FROM t")
     = "SELECT 1 " ++ stripSqlComments "FROM t"
  /\ stripSqlComments ("SELECT 1 " ++ "/*" ++ " one; two") = "SELECT 1 ".
Proof.
  pose proof (stripSqlComments_removes_comments "SELECT 1 " " one; two"
                "FROM t" eq_refl) as (H1 & H2 & _ & H4).
  pose proof (stripSqlComments_removes_comments "SELECT 1 " " one; /* two"
                "FROM t" eq_refl) as (_ & _ & H3 & _).
  split; [apply H1; reflexivity|].
  split; [apply H2; reflexivity|].
  split; [apply H3; reflexivity|].
  apply H4; reflexivity.
Defined.
(** Outside strings the remembered quote character does not matter. *)
Lemma stripLoop_result_outside (n : nat) :
  forall sql res q q' line block,
    (String.length sql <= n)%nat ->
    result (stripLoop sql (mkStrip res false q line block))
    = res ++ result (stripLoop sql (mkStrip "" false q' line block)).
Proof.
  induction n as [|n IH]; intros sql res q q' line block Hn.
  - destruct sql; [|simpl in Hn; lia]. cbn. now rewrite append_nil_r.
  - destruct sql as [|c rest]; [cbn; now rewrite append_nil_r|].
    cbn [String.length] in Hn.
    cbn [stripLoop sInString sInBlockComment sInLineComment sStringChar
           result negb andb].
    repeat match goal with
           | |- context [if ?b then _ else _] => destruct b
           | |- context [match rest with
                         | EmptyString => _ | String _ _ => _ end] =>
               destruct rest; cbn [String.length] in Hn
           end;
      unfold emit;
      cbn [result sInString sStringChar sInLineComment sInBlockComment];
      try match goal with
          | |- result (stripLoop ?r (mkStrip ?x false _ _ _))
               = _ ++ result (stripLoop ?r (mkStrip ?y false _ _ _)) =>
              rewrite (IH r x q q'), (IH r y q' q')
                by (cbn [String.length]; lia)
          | |- result (stripLoop ?r (mkStrip ?x true _ _ _))
               = _ ++ result (stripLoop ?r (mkStrip ?y true _ _ _)) =>
              rewrite (stripLoop_result (String.length r) r x),
                (stripLoop_result (String.length r) r y) by lia
          end;
      unfold snoc; cbn [append]; rewrite ?append_assoc, ?append_nil_r;
      reflexivity.
Qed.

Lemma stripLoop_resume (sql res : string) (q : option ascii) :
  result (stripLoop sql (mkStrip res false q false false))
  = res ++ stripSqlComments sql.
Proof. apply (stripLoop_result_outside (String.length sql)), le_n. Qed.

Lemma allChars_occurs_false (p : ascii -> bool) (x : ascii) (s : string) :
  p x = false -> allChars p s = true -> occurs x s = false.
Proof. apply allChars_occurs. Qed.

Lemma splitLoop_plain_text (a : string) :
  allChars isPlainChar a = true -> occurs ";" a = false ->
  forall rest stmts cur q,
    splitLoop (a ++ rest) (mkSplit stmts cur false q false false)
    = splitLoop rest (mkSplit stmts (cur ++ a) false q false false).
Proof.
  induction a as [|c r IH]; intros Ha Hsemi rest stmts cur q.
  - cbn [append]. now rewrite append_nil_r.
  - cbn [allChars] in Ha. apply andb_prop in Ha as [Hc Hr].
    apply isPlainChar_inv in Hc as (Hq & Hd & Hs).
    cbn [occurs] in Hsemi. apply orb_false_iff in Hsemi as [Hsc Hsemi].
    rewrite Ascii.eqb_sym in Hsc.
    cbn [append splitLoop inString inBlockComment inLineComment stringChar
           negb].
    rewrite Hq, Hd, Hs, Hsc. cbn [andb]. unfold keep, advance.
    cbn [statements current inString stringChar inLineComment
           inBlockComment].
    rewrite IH by assumption. now rewrite snoc_append.
Qed.

Lemma splitLoop_in_literal (s : string) :
  forall rest stmts cur,
    charIs "'" (headChar rest) = false ->
    splitLoop (substChar "'" "''" s ++ String "'" rest)
      (mkSplit stmts cur true (Some "'"%char) false false)
    = splitLoop rest
        (mkSplit stmts (cur ++ substChar "'" "''" s ++ "'") false
           (Some "'"%char) false false).
Proof.
  induction s as [|c r IH]; intros rest stmts cur Hrest.
  - cbn [substChar append splitLoop inString inBlockComment inLineComment
           stringChar negb andb charIs].
    rewrite Ascii.eqb_refl.
    destruct rest as [|next rest']; [reflexivity|].
    cbn [headChar charIs] in Hrest.
    cbn [charIs]. rewrite Ascii.eqb_sym, Hrest. reflexivity.
  - cbn [substChar]. destruct (Ascii.eqb "'" c) eqn:E.
    + apply Ascii.eqb_eq in E as <-.
      cbn [append splitLoop inString inBlockComment inLineComment
             stringChar negb andb charIs].
      rewrite Ascii.eqb_refl. unfold keep, advance.
      cbn [statements current inString stringChar inLineComment
             inBlockComment].
      rewrite IH by exact Hrest. unfold snoc. now rewrite !append_assoc.
    + cbn [append splitLoop inString inBlockComment inLineComment
             stringChar negb andb].
      rewrite charIs_quote. rewrite E. unfold keep, advance.
      cbn [statements current inString stringChar inLineComment
             inBlockComment].
      rewrite IH by exact Hrest. now rewrite snoc_append.
Qed.

Lemma splitLoop_literal (s rest : string) (stmts : list string)
    (cur : string) (q : option ascii) :
  charIs "'" (headChar rest) = false ->
  splitLoop (quoteLiteral s ++ rest) (mkSplit stmts cur false q false false)
  = splitLoop rest
      (mkSplit stmts (cur ++ quoteLiteral s) false (Some "'"%char) false
         false).
Proof.
  intros Hrest. rewrite quoteLiteral_substChar.
  replace (("'" ++ substChar "'" "''" s ++ "'") ++ rest)
    with (String "'" (substChar "'" "''" s ++ String "'" rest))
    by (cbn [append]; now rewrite append_assoc).
  cbn [splitLoop inString inBlockComment inLineComment stringChar negb andb].
  change (Ascii.eqb "'" "-") with false.
  change (Ascii.eqb "'" "/") with false.
  change (isQuote "'") with true. cbn [andb].
  unfold advance.
  cbn [statements current inString stringChar inLineComment inBlockComment].
  rewrite splitLoop_in_literal by exact Hrest.
  unfold snoc. now rewrite !append_assoc.
Qed.

Lemma hasText_quoteLiteral (s : string) : hasText (quoteLiteral s) = true.
Proof. rewrite quoteLiteral_substChar. reflexivity. Qed.

Lemma headChar_plain (b rest : string) :
  allChars isPlainChar b = true -> charIs "'" (headChar rest) = false ->
  charIs "'" (headChar (b ++ rest)) = false.
Proof.
  destruct b as [|c b]; [auto|]. cbn [allChars append headChar charIs].
  intros Hc _. apply andb_prop in Hc as [Hc _].
  apply isPlainChar_inv in Hc as (Hq & _ & _).
  unfold isQuote in Hq. apply orb_false_iff in Hq as [Hq _].
  now rewrite Ascii.eqb_sym.
Qed.

(** X6.  The display literal of a string, whatever quotes, semicolons and
    comment markers the string holds, is read by both scanners as one
    string literal: between texts without quotes, dashes, slashes and
    semicolons the splitter returns the whole as one statement, and the
    stripper keeps the literal and goes on after it as at the start of a
    text. *)
Theorem display_literal_is_one_string (s a b rest : string) :
  allChars isPlainChar a = true ->
  (occurs ";" a = false -> allChars isPlainChar b = true ->
   occurs ";" b = false ->
   splitSqlStatements (a ++ quoteLiteral s ++ b) = [a ++ quoteLiteral s ++ b])
  /\ (charIs "'" (headChar rest) = false ->
      stripSqlComments (a ++ quoteLiteral s ++ rest)
      = a ++ quoteLiteral s ++ stripSqlComments rest).
Proof.
  intros Ha. split.
  - intros Hsa Hb Hsb. unfold splitSqlStatements, splitInit.
    rewrite splitLoop_plain_text by assumption.
    rewrite <- (append_nil_r b) at 1.
    rewrite <- (append_assoc (quoteLiteral s)), <- append_assoc.
    rewrite append_assoc.
    rewrite splitLoop_literal by (now apply headChar_plain).
    rewrite splitLoop_plain_text by assumption.
    cbn [splitLoop]. unfold pushCurrent.
    cbn [statements current append].
    rewrite truthy_trim, !hasText_append, hasText_quoteLiteral.
    rewrite orb_true_r. cbn [orb app].
    now rewrite !append_assoc.
  - intros Hrest. unfold stripSqlComments at 1, stripInit.
    rewrite stripLoop_plain_text by exact Ha.
    rewrite stripLoop_literal by exact Hrest.
    rewrite stripLoop_resume. cbn [append]. now rewrite append_assoc.
Qed.

Lemma display_literal_is_one_string_witness :
  splitSqlStatements
    ("INSERT INTO t(x) VALUES (" ++ quoteLiteral "it's; -- done" ++ ")")
  = ["INSERT INTO t(x) VALUES (" ++ quoteLiteral "it's; -- done" ++ ")"]
  /\ stripSqlComments
       ("INSERT INTO t(x) VALUES (" ++ quoteLiteral "it's; -- done"
          ++ ") -- note")
     = "INSERT INTO t(x) VALUES (" ++ quoteLiteral "it's; -- done"
         ++ stripSqlComments ") -- note".
Proof.
  split.
  - apply (display_literal_is_one_string "it's; -- done"
             "INSERT INTO t(x) VALUES (" ")" ""); reflexivity.
  - apply (display_literal_is_one_string "it's; -- done"
             "INSERT INTO t(x) VALUES (" "" ") -- note"); reflexivity.
Defined.
(** *** The statement at the cursor *)

Lemma findLoop_found (text : string) (offset : nat) (l : list string) :
  forall currentOffset found,
    findLoop text offset l currentOffset = Some found ->
    exists statement, In statement l /\ found = trim statement.
Proof.
  induction l as [|statement later IH]; intros currentOffset found;
    cbn [findLoop]; [discriminate|].
  destruct ((currentOffset <=? offset)%nat
            && (offset <=? currentOffset + String.length statement)%nat).
  - intros [= <-]. exists statement. split; [now left | reflexivity].
  - intros Hf. apply IH in Hf as (s & Hin & ->).
    exists s. split; [now right | reflexivity].
Qed.

Lemma findLoop_single (text : string) (offset : nat) (statement : string) :
  findLoop text offset [statement] 0 = Some (trim statement)
  \/ findLoop text offset [statement] 0 = None.
Proof.
  cbn [findLoop].
  destruct ((0 <=? offset)%nat
            && (offset <=? 0 + String.length statement)%nat); auto.
Qed.

(** X7.  [findSqlAtCursor] returns a statement of the text, trimmed, or
    the whole text, trimmed; it returns the first statement when the
    cursor is not beyond the length of that statement, and the text itself
    when the text is a single statement. *)
Theorem findSqlAtCursor_result (text : string) (offset : nat) :
  (exists s, (In s (splitSqlStatements text) \/ s = text)
             /\ findSqlAtCursor text offset = trim s)
  /\ (forall first later,
        splitSqlStatements text = first :: later ->
        (offset <= String.length first)%nat ->
        findSqlAtCursor text offset = trim first)
  /\ (splitSqlStatements text = [text] ->
      findSqlAtCursor text offset = trim text)
  /\ (splitSqlStatements text = [] -> findSqlAtCursor text offset = trim text).
Proof.
  unfold findSqlAtCursor. repeat split.
  - destruct (findLoop text offset (splitSqlStatements text) 0) as [found|]
      eqn:E.
    + apply findLoop_found in E as (s & Hin & ->). exists s. auto.
    + exists text. auto.
  - intros first later -> Hoff. cbn [findLoop].
    assert ((0 <=? offset)%nat && (offset <=? 0 + String.length first)%nat
            = true) as ->; [|reflexivity].
    apply andb_true_iff. split; [now apply Nat.leb_le, Nat.le_0_l|].
    now apply Nat.leb_le.
  - intros ->. now destruct (findLoop_single text offset text) as [-> | ->].
  - intros ->. reflexivity.
Qed.

Lemma findSqlAtCursor_result_witness :
  findSqlAtCursor "  SELECT 1 ; SELECT 2" 4 = "SELECT 1"
  /\ findSqlAtCursor "SELECT 1 -- one; two" 40 = "SELECT 1 -- one; two"
  /\ findSqlAtCursor " ; " 1 = ";".
Proof.
  pose proof (findSqlAtCursor_result "  SELECT 1 ; SELECT 2" 4)
    as (_ & H1 & _ & _).
  pose proof (findSqlAtCursor_result "SELECT 1 -- one; two" 40)
    as (_ & _ & H2 & _).
  pose proof (findSqlAtCursor_result " ; " 1) as (_ & _ & _ & H3).
  split; [apply (H1 "  SELECT 1 " [" SELECT 2"]); [reflexivity|vm_compute; lia]|].
  split; [apply H2; reflexivity|].
  apply H3; reflexivity.
Defined.
Lemma get_append (a : string) (c : ascii) (b : string) :
  String.get (String.length a) (a ++ String c b) = Some c.
Proof. induction a as [|d a IH]; [reflexivity | exact IH]. Qed.

Lemma dropChars_append (a b : string) :
  dropChars (String.length a) (a ++ b) = b.
Proof. induction a as [|d a IH]; [now destruct b | exact IH]. Qed.

Lemma skipWhiteSpace_leadingWs (s : string) :
  forall n, skipWhiteSpace s n = (n + leadingWs s)%nat.
Proof.
  induction s as [|c r IH]; intros n; cbn [skipWhiteSpace leadingWs];
    [lia|].
  destruct (isWhiteSpace c); [rewrite IH|]; lia.
Qed.

Lemma splitSqlStatements_two (s1 s2 : string) :
  allChars isPlainChar s1 = true -> occurs ";" s1 = false ->
  hasText s1 = true ->
  allChars isPlainChar s2 = true -> occurs ";" s2 = false ->
  hasText s2 = true ->
  splitSqlStatements (s1 ++ ";" ++ s2) = [s1; s2].
Proof.
  intros Hp1 Hs1 Ht1 Hp2 Hs2 Ht2. unfold splitSqlStatements, splitInit.
  rewrite splitLoop_plain_text by assumption.
  cbn [append splitLoop inString inBlockComment inLineComment stringChar
         negb andb].
  change (Ascii.eqb ";" "-") with false.
  change (Ascii.eqb ";" "/") with false.
  change (isQuote ";") with false.
  change (Ascii.eqb ";" ";") with true. cbn [andb].
  unfold pushCurrent at 2.
  cbn [statements current inString stringChar inLineComment inBlockComment
         append].
  rewrite truthy_trim, Ht1. cbn [app].
  rewrite <- (append_nil_r s2) at 1.
  rewrite splitLoop_plain_text by assumption.
  cbn [splitLoop]. unfold pushCurrent.
  cbn [statements current append]. now rewrite truthy_trim, Ht2.
Qed.

(** X8.  In a text of two statements without quotes or comments, separated
    by one semicolon, the cursor selects the first statement up to the
    semicolon, and the second statement from its first character that is
    not whitespace to the end of the text; on the whitespace between the
    semicolon and the second statement it selects the whole text. *)
Theorem findSqlAtCursor_two_statements (s1 s2 : string) (offset : nat) :
  allChars isPlainChar s1 = true -> occurs ";" s1 = false ->
  hasText s1 = true ->
  allChars isPlainChar s2 = true -> occurs ";" s2 = false ->
  hasText s2 = true ->
  let text := s1 ++ ";" ++ s2 in
  let start2 := (String.length s1 + 1 + leadingWs s2)%nat in
  ((offset <= String.length s1)%nat ->
   findSqlAtCursor text offset = trim s1)
  /\ ((start2 <= offset <= String.length text)%nat ->
      findSqlAtCursor text offset = trim s2)
  /\ ((String.length s1 < offset < start2)%nat ->
      findSqlAtCursor text offset = trim text).
Proof.
  intros Hp1 Hs1 Ht1 Hp2 Hs2 Ht2 text start2.
  unfold findSqlAtCursor, text.
  rewrite splitSqlStatements_two by assumption.
  cbn [findLoop Nat.add].
  change (s1 ++ ";" ++ s2) with (s1 ++ String ";" s2).
  rewrite get_append. cbn [charIs]. rewrite Ascii.eqb_refl.
  replace (S (String.length s1)) with (String.length (s1 ++ ";"))
    by (rewrite length_append; cbn [String.length]; lia).
  replace (s1 ++ String ";" s2) with ((s1 ++ ";") ++ s2)
    by now rewrite append_assoc.
  rewrite dropChars_append, skipWhiteSpace_leadingWs.
  rewrite !length_append. cbn [String.length].
  fold start2.
  repeat split.
  - intros Ho.
    assert ((0 <=? offset)%nat && (offset <=? String.length s1)%nat = true)
      as ->; [|reflexivity].
    apply andb_true_iff. split; apply Nat.leb_le; lia.
  - intros [Hlo Hhi].
    assert ((0 <=? offset)%nat && (offset <=? String.length s1)%nat = false)
      as ->.
    { apply andb_false_iff. right. apply Nat.leb_gt. unfold start2 in Hlo. lia. }
    assert ((start2 <=? offset)%nat
            && (offset <=? start2 + String.length s2)%nat = true) as ->;
      [|reflexivity].
    apply andb_true_iff. split; apply Nat.leb_le; unfold start2 in *; lia.
  - intros [Hlo Hhi].
    assert ((0 <=? offset)%nat && (offset <=? String.length s1)%nat = false)
      as ->.
    { apply andb_false_iff. right. apply Nat.leb_gt. lia. }
    assert ((start2 <=? offset)%nat
            && (offset <=? start2 + String.length s2)%nat = false) as ->;
      [|reflexivity].
    apply andb_false_iff. left. apply Nat.leb_gt. lia.
Qed.

Lemma findSqlAtCursor_two_statements_witness :
  findSqlAtCursor "SELECT 1;  SELECT 2" 8 = "SELECT 1"
  /\ findSqlAtCursor "SELECT 1;  SELECT 2" 11 = "SELECT 2"
  /\ findSqlAtCursor "SELECT 1;  SELECT 2" 10 = "SELECT 1;  SELECT 2".
Proof.
  pose proof (fun o => findSqlAtCursor_two_statements "SELECT 1" "  SELECT 2"
                         o eq_refl eq_refl eq_refl eq_refl eq_refl eq_refl)
    as H.
  split; [apply (H 8%nat); vm_compute; lia|].
  split; [apply (H 11%nat); vm_compute; lia|].
  apply (H 10%nat); vm_compute; lia.
Defined.
(** *** The statement handed to the executor *)

Lemma hasText_trimEnd (s : string) : hasText (trimEnd s) = hasText s.
Proof.
  destruct (trimEnd_split s) as (tail & Hs & Ht).
  rewrite Hs at 2. rewrite hasText_append, Ht. now rewrite orb_false_r.
Qed.

Lemma hasText_trim (s : string) : hasText (trim s) = hasText s.
Proof. unfold trim. now rewrite hasText_trimEnd, hasText_trimStart. Qed.

Lemma hasText_truthy (s : string) : hasText s = true -> truthy s = true.
Proof. now destruct s. Qed.

Lemma hasText_addLimitClause (sql : string) (n : N) :
  hasText (addLimitClause sql n) = true.
Proof.
  unfold addLimitClause.
  rewrite hasText_append.
  change (" LIMIT " ++ showN n
          ++ (if endsWith (trim sql) ";" then ";" else ""))
    with (" L" ++ ("IMIT " ++ showN n
                   ++ (if endsWith (trim sql) ";" then ";" else ""))).
  rewrite (hasText_append " L"). cbn. apply orb_true_r.
Qed.

Lemma hasText_first (l : list string) :
  List.Forall (fun s => hasText s = true) l -> (1 < List.length l)%nat ->
  hasText (nth 0 l EmptyString) = true.
Proof. intros Hl Hn. destruct l; [simpl in Hn; lia|]. now inversion Hl. Qed.

(** X9.  What [executeQueryCommand] hands to the executor always holds
    text; a statement that is a modification query is handed over only
    once the user has confirmed it, and as it stands; a statement is
    capped only if it is a read without a recognised limit, and then no
    confirmation is asked for it. *)
Theorem prepareSql_result (editorText : string) (confirm : string -> bool)
    (p : Prepared) :
  prepareSql editorText confirm = Some p ->
  hasText (toExecute p) = true
  /\ (isModificationQuery (originalSql p) = true ->
      confirm (originalSql p) = true /\ toExecute p = originalSql p
      /\ isLimited p = false)
  /\ (isLimited p = true ->
      isSelectQuery (originalSql p) = true
      /\ hasLimitClause (originalSql p) = false
      /\ toExecute p = addLimitClause (originalSql p) 100)
  /\ (isLimited p = false -> toExecute p = originalSql p).
Proof.
  unfold prepareSql.
  set (sql0 := trim (stripSqlComments editorText)).
  destruct (truthy sql0) eqn:Etruthy; cbn [negb]; [|discriminate].
  set (multiple := (1 <? List.length (splitSqlStatements sql0))%nat).
  set (sql := if multiple then trim (nth 0 (splitSqlStatements sql0) "")
              else sql0).
  assert (hasText sql = true) as Htext.
  { unfold sql. destruct multiple eqn:Em.
    - rewrite hasText_trim. apply hasText_first.
      + apply splitSqlStatements_hasText.
      + now apply Nat.ltb_lt.
    - unfold sql0 in *. rewrite truthy_trim in Etruthy.
      now rewrite hasText_trim. }
  destruct (isModificationQuery sql && negb (confirm sql)) eqn:Econfirm;
    [discriminate|].
  pose proof (classification_exclusive_bool sql) as Hex.
  unfold capRows.
  destruct (isSelectQuery sql && negb (hasLimitClause sql)) eqn:Ecap;
    cbv beta iota; intros [= <-]; cbn [toExecute originalSql isLimited].
  - apply andb_prop in Ecap as [Hsel Hlim]. apply negb_true_iff in Hlim.
    rewrite Hsel in Hex. cbn [andb] in Hex.
    split; [apply hasText_addLimitClause|].
    split; [intros Hmod; congruence|].
    split; [intros _; auto | intros Hf; discriminate].
  - split; [exact Htext|].
    split.
    + intros Hmod. rewrite Hmod in Econfirm. cbn [andb] in Econfirm.
      apply negb_false_iff in Econfirm. auto.
    + split; [intros Hf; discriminate | reflexivity].
Qed.

Lemma prepareSql_result_witness :
  exists p,
    prepareSql ("-- all rows" ++ String LF "select * from t; select 2") (fun _ => false) = Some p
    /\ hasText (toExecute p) = true
    /\ toExecute p = "select * from t LIMIT 100"
    /\ isLimited p = true.
Proof.
  eexists. split; [reflexivity|].
  destruct (prepareSql_result ("-- all rows" ++ String LF "select * from t; select 2") (fun _ => false) _ eq_refl) as (H1 & _ & H3 & _).
  split; [exact H1|]. split; [apply H3|]; reflexivity.
Defined.
(** ** Primary key detection *)

Lemma find_first {A} (P : A -> bool) (before after : list A) (x : A) :
  P x = true -> List.Forall (fun y => P y = false) before ->
  List.find P (before ++ x :: after) = Some x.
Proof.
  intros Hx Hb. induction Hb as [|y before Hy _ IH]; cbn [app List.find].
  - now rewrite Hx.
  - now rewrite Hy.
Qed.

Lemma find_absent {A} (P : A -> bool) (l : list A) :
  List.find P l = None <-> List.Forall (fun y => P y = false) l.
Proof.
  induction l as [|y l IH]; cbn [List.find].
  - split; [constructor | reflexivity].
  - destruct (P y) eqn:E.
    + split; [discriminate|]. intros H. inversion H. congruence.
    + rewrite IH. split; [now constructor | now inversion 1].
Qed.

Lemma find_ext {A} (P Q : A -> bool) (l : list A) :
  List.Forall (fun y => P y = Q y) l -> List.find P l = List.find Q l.
Proof.
  induction 1 as [|y l Hy _ IH]; cbn [List.find]; [reflexivity|].
  now rewrite Hy, IH.
Qed.

Lemma isCandidate_named (k : string) (c : ColumnInfo) :
  idLike c = false -> isCandidate k c = named k c.
Proof.
  unfold idLike, isCandidate, named. intros E.
  apply orb_false_iff in E as [_ ->]. apply orb_false_r.
Qed.

(** Without a column named [id] or ending in [_id], the rounds look for
    the candidate names only. *)
Lemma detectLoop_named (columns : list ColumnInfo) (candidates : list string) :
  List.Forall (fun c => idLike c = false) columns ->
  detectLoop candidates columns
  = match candidates with
    | [] => []
    | k :: later =>
        match List.find (named k) columns with
        | Some found => [name found]
        | None => detectLoop later columns
        end
    end.
Proof.
  intros Hno. destruct candidates as [|k later]; [reflexivity|].
  cbn [detectLoop]. rewrite (find_ext (isCandidate k) (named k)).
  - reflexivity.
  - eapply List.Forall_impl; [|exact Hno]. intros c. apply isCandidate_named.
Qed.

(** X10.  [detectPrimaryKeyColumns] returns at most one name, the name of
    a column of the result.  A column named [id] or ending in [_id] is
    preferred to every column named [pk], [key] or [uuid], wherever it
    stands, and the first such column is taken; nothing is returned
    exactly when no column is named [id], [pk], [key] or [uuid] or ends in
    [_id]. *)
Theorem detectPrimaryKeyColumns_result (columns : list ColumnInfo)
    (tableName : option string) :
  (forall before c after,
      columns = (before ++ c :: after)%list -> idLike c = true ->
      List.Forall (fun b => idLike b = false) before ->
      detectPrimaryKeyColumns columns tableName = [name c])
  /\ (forall n, In n (detectPrimaryKeyColumns columns tableName) ->
        detectPrimaryKeyColumns columns tableName = [n]
        /\ exists c, In c columns /\ name c = n
                     /\ (idLike c || named "pk" c || named "key" c
                         || named "uuid" c) = true)
  /\ (detectPrimaryKeyColumns columns tableName = []
      <-> List.Forall (fun c => (idLike c || named "pk" c || named "key" c
                                 || named "uuid" c) = false) columns).
Proof.
  unfold detectPrimaryKeyColumns, pkCandidates.
  assert (forall c, isCandidate "id" c = idLike c) as Hid by reflexivity.
  split; [|split].
  - intros before c after -> Hc Hb. cbn [detectLoop].
    rewrite (find_first (isCandidate "id")); [reflexivity | now rewrite Hid |].
    eapply List.Forall_impl; [|exact Hb]. intros b. now rewrite Hid.
  - intros n. cbn [detectLoop].
    destruct (List.find (isCandidate "id") columns) as [c|] eqn:E1.
    { intros [<-|[]]. split; [reflexivity|].
      apply List.find_some in E1 as [Hin Hc]. rewrite Hid in Hc.
      exists c. now rewrite Hc. }
    apply find_absent in E1.
    assert (List.Forall (fun c => idLike c = false) columns) as Hno.
    { eapply List.Forall_impl; [|exact E1]. intros c. now rewrite Hid. }
    rewrite (find_ext (isCandidate "pk") (named "pk")),
      (find_ext (isCandidate "key") (named "key")),
      (find_ext (isCandidate "uuid") (named "uuid"))
      by (eapply List.Forall_impl; [|exact Hno];
          intros c; apply isCandidate_named).
    destruct (List.find (named "pk") columns) as [c|] eqn:E2.
    { intros [<-|[]]. split; [reflexivity|].
      apply List.find_some in E2 as [Hin Hc].
      exists c. rewrite Hc. now rewrite orb_true_r. }
    destruct (List.find (named "key") columns) as [c|] eqn:E3.
    { intros [<-|[]]. split; [reflexivity|].
      apply List.find_some in E3 as [Hin Hc].
      exists c. rewrite Hc. now rewrite orb_true_r. }
    destruct (List.find (named "uuid") columns) as [c|] eqn:E4.
    { intros [<-|[]]. split; [reflexivity|].
      apply List.find_some in E4 as [Hin Hc].
      exists c. rewrite Hc. now rewrite orb_true_r. }
    intros [].
  - cbn [detectLoop].
    destruct (List.find (isCandidate "id") columns) as [c|] eqn:E1.
    { split; [discriminate|]. intros Hall.
      apply List.find_some in E1 as [Hin Hc]. rewrite Hid in Hc.
      rewrite List.Forall_forall in Hall. specialize (Hall c Hin).
      rewrite Hc in Hall. discriminate. }
    apply find_absent in E1.
    assert (List.Forall (fun c => idLike c = false) columns) as Hno.
    { eapply List.Forall_impl; [|exact E1]. intros c. now rewrite Hid. }
    rewrite (find_ext (isCandidate "pk") (named "pk")),
      (find_ext (isCandidate "key") (named "key")),
      (find_ext (isCandidate "uuid") (named "uuid"))
      by (eapply List.Forall_impl; [|exact Hno];
          intros c; apply isCandidate_named).
    destruct (List.find (named "pk") columns) as [c|] eqn:E2.
    { split; [discriminate|]. intros Hall.
      apply List.find_some in E2 as [Hin Hc].
      rewrite List.Forall_forall in Hall. specialize (Hall c Hin).
      rewrite Hc, !orb_true_r in Hall. discriminate. }
    destruct (List.find (named "key") columns) as [c|] eqn:E3.
    { split; [discriminate|]. intros Hall.
      apply List.find_some in E3 as [Hin Hc].
      rewrite List.Forall_forall in Hall. specialize (Hall c Hin).
      rewrite Hc, !orb_true_r in Hall. discriminate. }
    destruct (List.find (named "uuid") columns) as [c|] eqn:E4.
    { split; [discriminate|]. intros Hall.
      apply List.find_some in E4 as [Hin Hc].
      rewrite List.Forall_forall in Hall. specialize (Hall c Hin).
      rewrite Hc, !orb_true_r in Hall. discriminate. }
    split; [intros _|reflexivity].
    apply find_absent in E2, E3, E4.
    rewrite List.Forall_forall in *. intros c Hin.
    now rewrite (Hno c Hin), (E2 c Hin), (E3 c Hin), (E4 c Hin).
Qed.

Lemma detectPrimaryKeyColumns_result_witness :
  detectPrimaryKeyColumns
    [ mkColumn "pk" "integer" 23; mkColumn "Owner_ID" "integer" 23;
      mkColumn "id" "integer" 23 ] None
  = ["Owner_ID"].
Proof.
  pose proof (detectPrimaryKeyColumns_result
                [ mkColumn "pk" "integer" 23; mkColumn "Owner_ID" "integer" 23;
                  mkColumn "id" "integer" 23 ] None) as (H & _ & _).
  apply (H [mkColumn "pk" "integer" 23] (mkColumn "Owner_ID" "integer" 23)
           [mkColumn "id" "integer" 23]);
    [reflexivity | reflexivity | repeat constructor].
Defined.
(** ** The statement builders *)

Section Builders.
Context `{Host}.

Lemma fold_setClause (columns : list ColumnInfo) (newData : Row)
    (cols : list string) :
  forall clauses params k,
    fold_left (setClause columns newData) cols (clauses, params, k)
    = ((clauses ++ List.map (showPieces placeholderText) (setPieces k cols))%list,
       (params ++ List.map (bound columns newData) cols)%list,
       (k + List.length cols)%nat).
Proof.
  induction cols as [|col r IH]; intros clauses params k.
  - cbn. now rewrite !app_nil_r, Nat.add_0_r.
  - cbn [fold_left setClause setPieces List.map List.length].
    rewrite IH. rewrite <- !List.app_assoc. cbn [app].
    f_equal; [f_equal|lia].
    f_equal. f_equal. unfold equalsParam, equalsPieces, placeholderText.
    cbn [showPieces]. now rewrite append_nil_r, !append_assoc.
Qed.

Lemma fold_whereClause (columns : list ColumnInfo) (originalData : Row)
    (cols : list string) :
  forall clauses params k,
    fold_left (whereClause columns originalData) cols (clauses, params, k)
    = ((clauses ++ List.map (showPieces placeholderText)
                     (wherePieces originalData k cols))%list,
       (params ++ List.map (bound columns originalData)
                    (keyed originalData cols))%list,
       (k + List.length (keyed originalData cols))%nat).
Proof.
  induction cols as [|col r IH]; intros clauses params k.
  - cbn. now rewrite !app_nil_r, Nat.add_0_r.
  - cbn [fold_left whereClause wherePieces]. unfold keyed.
    cbn [List.filter].
    destruct (isNullish (getField originalData col)) eqn:E; cbn [negb].
    + fold (keyed originalData r). rewrite IH.
      rewrite <- !List.app_assoc. cbn [app List.map showPieces].
      now rewrite append_nil_r.
    + fold (keyed originalData r). rewrite IH.
      rewrite <- !List.app_assoc. cbn [app List.map List.length].
      f_equal; [f_equal|lia].
      f_equal. f_equal. unfold equalsParam, equalsPieces, placeholderText.
      cbn [showPieces]. now rewrite append_nil_r, !append_assoc.
Qed.

Lemma fold_insertEntry (columns : list ColumnInfo) (newData : Row) :
  forall names placeholders params k,
    fold_left (insertEntry columns) newData (names, placeholders, params, k)
    = ((names ++ List.map (fun e => quoted (fst e)) (supplied newData))%list,
       (placeholders
        ++ List.map placeholderText
             (List.seq k (List.length (supplied newData))))%list,
       (params
        ++ List.map (fun e => convertValue (snd e) (findColumn columns (fst e)))
             (supplied newData))%list,
       (k + List.length (supplied newData))%nat).
Proof.
  induction newData as [|[key value] r IH]; intros names placeholders params k.
  - cbn. now rewrite !app_nil_r, Nat.add_0_r.
  - assert (forall acc : list string * list string * list Value * nat,
               fold_left (insertEntry columns) r
                 (let '(a, b, c, d) := acc in
                  ((a ++ [quoted key])%list,
                   (b ++ [placeholderText d])%list,
                   (c ++ [convertValue value (findColumn columns key)])%list,
                   S d))
               = let '(a, b, c, d) := acc in
                 ((a ++ List.map (fun e => quoted (fst e))
                          ((key, value) :: supplied r))%list,
                  (b ++ List.map placeholderText
                          (List.seq d (S (List.length (supplied r)))))%list,
                  (c ++ List.map
                          (fun e => convertValue (snd e)
                                      (findColumn columns (fst e)))
                          ((key, value) :: supplied r))%list,
                  (d + S (List.length (supplied r)))%nat)) as Hkeep.
    { intros [[[a b] c] d]. rewrite IH. rewrite <- !List.app_assoc.
      cbn [app List.map List.length List.seq fst snd]. f_equal. lia. }
    cbn [fold_left]. unfold supplied. cbn [List.filter snd].
    fold (supplied r).
    destruct value as [| |b|n|s|o]; cbn [insertEntry isEmptyString negb];
      try apply IH;
      try apply (Hkeep (names, placeholders, params, k)).
    destruct (s =? ""); cbn [negb];
      [apply IH | apply (Hkeep (names, placeholders, params, k))].
Qed.

(** X11.  The parameters that the builders bind: a delete binds the
    original values of the key columns that are neither null nor
    undefined; an update binds the new values of the modified columns and
    then as a delete does; an insert binds the values of the new row that
    are neither undefined nor the empty string.  Each value is bound as
    [convertValue] converts it for its column. *)
Theorem buildSql_parameters (tableName : string)
    (primaryKeyColumns : list string) (columns : list ColumnInfo)
    (i : Z) (originalData newData : Row) (modifiedColumns : list string) :
  snd (buildSql tableName primaryKeyColumns columns (Delete i originalData))
  = List.map (bound columns originalData) (keyed originalData primaryKeyColumns)
  /\ snd (buildSql tableName primaryKeyColumns columns
            (Update i originalData newData modifiedColumns))
     = (List.map (bound columns newData) modifiedColumns
        ++ List.map (bound columns originalData)
             (keyed originalData primaryKeyColumns))%list
  /\ snd (buildSql tableName primaryKeyColumns columns (Insert i newData))
     = List.map (fun e => convertValue (snd e) (findColumn columns (fst e)))
         (supplied newData).
Proof.
  cbn [buildSql]. unfold buildDeleteSql, buildUpdateSql, buildInsertSql.
  rewrite fold_setClause, !fold_whereClause, fold_insertEntry.
  repeat split.
Qed.

End Builders.
(** *** Statements cut at their placeholders *)

Lemma showPieces_app (f : nat -> string) (a b : list Piece) :
  showPieces f (a ++ b) = showPieces f a ++ showPieces f b.
Proof.
  induction a as [|[t|i] a IH]; cbn [app showPieces]; [reflexivity| |];
    now rewrite IH, append_assoc.
Qed.

Lemma join_showPieces (f : nat -> string) (sep : string)
    (l : list (list Piece)) :
  join sep (List.map (showPieces f) l) = showPieces f (joinPieces sep l).
Proof.
  induction l as [|x r IH]; [reflexivity|].
  destruct r as [|y r]; [reflexivity|].
  change (join sep (List.map (showPieces f) (x :: y :: r)))
    with (showPieces f x ++ sep ++ join sep (List.map (showPieces f) (y :: r))).
  change (joinPieces sep (x :: y :: r))
    with (x ++ Text sep :: joinPieces sep (y :: r))%list.
  rewrite IH, showPieces_app. reflexivity.
Qed.

Lemma templateOf_show (f : nat -> string) (l : list Piece) :
  fst (templateOf l) ++ slots f (snd (templateOf l)) = showPieces f l.
Proof.
  induction l as [|[t|i] l IH]; cbn [templateOf showPieces]; [reflexivity| |];
    destruct (templateOf l) as [h s]; cbn [fst snd slots] in *.
  - now rewrite append_assoc, IH.
  - now rewrite IH.
Qed.

Lemma separates_append (t h : string) :
  separates t = true -> separates (t ++ h) = true.
Proof.
  unfold separates. destruct t as [|c t]; [discriminate|]. auto.
Qed.

Lemma piecesOk_templateOk (n : nat) (l : list Piece) :
  piecesOk n l = true ->
  templateOk n (templateOf l) = true
  /\ (startsOk l = true ->
      (l = [] /\ templateOf l = (EmptyString, []))
      \/ separates (fst (templateOf l)) = true).
Proof.
  induction l as [|[t|i] l IH]; cbn [piecesOk templateOf].
  - intros _. split; [reflexivity | auto].
  - intros Hok. apply andb_prop in Hok as [Ht Hl].
    destruct (IH Hl) as [Htpl _]. destruct (templateOf l) as [h s].
    unfold templateOk in *. cbn [fst snd] in *.
    apply andb_prop in Htpl as [Hh Hs]. apply negb_true_iff in Ht, Hh.
    split.
    + now rewrite occurs_append, Ht, Hh, Hs.
    + cbn [startsOk]. intros Hsep. right. now apply separates_append.
  - intros Hok. apply andb_prop in Hok as [Hok Hl].
    apply andb_prop in Hok as [Hi Hnext].
    destruct (IH Hl) as [Htpl Hstart].
    assert (startsOk l = true) as Hsl by (now destruct l as [|[t|j] l]).
    specialize (Hstart Hsl).
    destruct (templateOf l) as [h s]. unfold templateOk in *.
    cbn [fst snd] in *. apply andb_prop in Htpl as [Hh Hs].
    split; [|discriminate].
    cbn [occurs negb andb slotsOk]. rewrite Hi, Hh, Hs. cbn [andb].
    destruct Hstart as [[_ [= -> ->]]|Hsep]; [reflexivity|].
    unfold separates in Hsep. apply andb_prop in Hsep as [-> ->].
    reflexivity.
Qed.

Lemma piecesOk_app (n : nat) (a b : list Piece) :
  piecesOk n a = true -> piecesOk n b = true -> startsOk b = true ->
  piecesOk n (a ++ b) = true.
Proof.
  intros Ha Hb Hsb. induction a as [|[t|i] a IH]; cbn [app piecesOk] in *.
  - exact Hb.
  - apply andb_prop in Ha as [-> Ha]. now rewrite IH.
  - apply andb_prop in Ha as [Ha Hr]. apply andb_prop in Ha as [-> Hnext].
    rewrite IH by exact Hr. rewrite andb_true_r. cbn [andb].
    destruct a as [|[t|j] a]; cbn [app]; [|exact Hnext|exact Hnext].
    unfold startsOk in Hsb. exact Hsb.
Qed.

Lemma joinPieces_ok (n : nat) (sep : string) (l : list (list Piece)) :
  separates sep = true -> occurs "$" sep = false ->
  List.Forall (fun x => piecesOk n x = true) l ->
  piecesOk n (joinPieces sep l) = true.
Proof.
  intros Hsep Hd Hl. induction Hl as [|x r Hx Hr IH]; [reflexivity|].
  destruct r as [|y r]; [exact Hx|].
  change (joinPieces sep (x :: y :: r))
    with (x ++ Text sep :: joinPieces sep (y :: r))%list.
  apply piecesOk_app; [exact Hx | | exact Hsep].
  cbn [piecesOk]. now rewrite Hd, IH.
Qed.

Lemma joinPieces_startsOk (sep : string) (l : list (list Piece)) :
  List.Forall (fun x => startsOk x = true /\ x <> []) l ->
  startsOk (joinPieces sep l) = true.
Proof.
  intros Hl. destruct Hl as [|x r [Hx Hne] Hr]; [reflexivity|].
  destruct r as [|y r]; [exact Hx|].
  change (joinPieces sep (x :: y :: r))
    with (x ++ Text sep :: joinPieces sep (y :: r))%list.
  destruct x as [|p x]; [congruence | exact Hx].
Qed.

Lemma occurs_quoted (x : ascii) (col : string) :
  Ascii.eqb x doubleQuote = false ->
  occurs x (quoted col) = occurs x col.
Proof.
  intros Hx. unfold quoted. cbn [occurs]. rewrite Hx, occurs_append.
  cbn [occurs orb]. rewrite Hx. cbn [orb]. apply orb_false_r.
Qed.

Lemma separates_quoted (col rest : string) :
  separates (quoted col ++ rest) = true.
Proof. reflexivity. Qed.

Lemma equalsPieces_ok (n k : nat) (col : string) :
  (1 <= k <= n)%nat -> occurs "$" col = false ->
  piecesOk n (equalsPieces col k) = true
  /\ startsOk (equalsPieces col k) = true /\ equalsPieces col k <> [].
Proof.
  intros [Hlo Hhi] Hcol. unfold equalsPieces. cbn [piecesOk startsOk].
  rewrite occurs_append, occurs_quoted, Hcol by reflexivity.
  apply Nat.leb_le in Hlo, Hhi. rewrite Hlo, Hhi.
  split; [reflexivity|]. split; [apply separates_quoted | discriminate].
Qed.

Lemma setPieces_ok (n : nat) (cols : list string) :
  forall k,
    (1 <= k)%nat -> (k + List.length cols <= S n)%nat ->
    List.Forall (fun col => occurs "$" col = false) cols ->
    List.Forall (fun x => piecesOk n x = true /\ startsOk x = true /\ x <> [])
      (setPieces k cols).
Proof.
  induction cols as [|col r IH]; intros k Hk Hn Hd; [constructor|].
  cbn [setPieces List.length] in *. inversion Hd; subst.
  constructor; [apply equalsPieces_ok; [lia | assumption]|].
  apply IH; [lia | lia | assumption].
Qed.

Section BuilderTexts.
Context `{Host}.

Lemma wherePieces_ok (n : nat) (originalData : Row) (cols : list string) :
  forall k,
    (1 <= k)%nat ->
    (k + List.length (keyed originalData cols) <= S n)%nat ->
    List.Forall (fun col => occurs "$" col = false) cols ->
    List.Forall (fun x => piecesOk n x = true /\ startsOk x = true /\ x <> [])
      (wherePieces originalData k cols).
Proof.
  induction cols as [|col r IH]; intros k Hk Hn Hd; [constructor|].
  cbn [wherePieces]. unfold keyed in Hn. cbn [List.filter] in Hn.
  inversion Hd; subst.
  destruct (isNullish (getField originalData col)); cbn [negb] in Hn.
  - constructor; [|now apply IH].
    cbn [piecesOk startsOk].
    rewrite occurs_append, occurs_quoted by reflexivity.
    repeat split; [|discriminate].
    match goal with Hc : occurs "$" col = false |- _ => now rewrite Hc end.
  - cbn [List.length] in Hn.
    constructor; [apply equalsPieces_ok; [lia | assumption]|].
    apply IH; [lia | unfold keyed; lia | assumption].
Qed.

Lemma Forall_proj1 {A} (P Q : A -> Prop) (l : list A) :
  List.Forall (fun x => P x /\ Q x) l -> List.Forall P l.
Proof. apply List.Forall_impl. now intros x [HP _]. Qed.

Lemma Forall_starts (l : list (list Piece)) (n : nat) :
  List.Forall (fun x => piecesOk n x = true /\ startsOk x = true /\ x <> []) l ->
  List.Forall (fun x => startsOk x = true /\ x <> []) l.
Proof. apply List.Forall_impl. now intros x [_ H']. Qed.

Lemma occurs_join (x : ascii) (sep : string) (l : list string) :
  occurs x sep = false -> List.Forall (fun s => occurs x s = false) l ->
  occurs x (join sep l) = false.
Proof.
  intros Hsep Hl. induction Hl as [|s r Hs Hr IH]; [reflexivity|].
  destruct r as [|s' r]; [exact Hs|].
  change (join sep (s :: s' :: r)) with (s ++ sep ++ join sep (s' :: r)).
  now rewrite !occurs_append, Hs, Hsep, IH.
Qed.

Lemma slotList_ok (n m : nat) :
  forall k, (1 <= k)%nat -> (k + m <= S n)%nat ->
  List.Forall (fun x => piecesOk n x = true)
    (List.map (fun k => [Slot k]) (List.seq k m)).
Proof.
  induction m as [|m IH]; intros k Hk Hn; [constructor|].
  cbn [List.seq List.map]. constructor; [|apply IH; lia].
  cbn [piecesOk]. assert ((1 <=? k)%nat = true) as -> by (apply Nat.leb_le; lia).
  assert ((k <=? n)%nat = true) as -> by (apply Nat.leb_le; lia).
  reflexivity.
Qed.

Lemma buildSql_pieces (tableName : string) (primaryKeyColumns : list string)
    (columns : list ColumnInfo) (change : RowChange) :
  fst (buildSql tableName primaryKeyColumns columns change)
  = showPieces placeholderText (piecesOf tableName primaryKeyColumns change).
Proof.
  destruct change as [i originalData newData modifiedColumns|i newData
                     |i originalData];
    cbn [buildSql piecesOf].
  - unfold buildUpdateSql. rewrite fold_setClause, fold_whereClause.
    cbn [fst app showPieces]. rewrite showPieces_app. cbn [showPieces].
    rewrite !join_showPieces. now rewrite !append_assoc.
  - unfold buildInsertSql. rewrite fold_insertEntry.
    cbn [fst app showPieces]. rewrite showPieces_app. cbn [showPieces].
    rewrite <- join_showPieces, List.map_map. cbn [showPieces].
    rewrite (List.map_ext (fun x => placeholderText x ++ "") placeholderText)
      by (intros k; apply append_nil_r).
    now rewrite !append_assoc, append_nil_r.
  - unfold buildDeleteSql. rewrite fold_whereClause.
    cbn [fst app showPieces]. rewrite join_showPieces.
    now rewrite !append_assoc.
Qed.

Lemma buildSql_length (tableName : string) (primaryKeyColumns : list string)
    (columns : list ColumnInfo) (change : RowChange) :
  List.length (snd (buildSql tableName primaryKeyColumns columns change))
  = match change with
    | Update _ originalData _ modifiedColumns =>
        (List.length modifiedColumns
         + List.length (keyed originalData primaryKeyColumns))%nat
    | Insert _ newData => List.length (supplied newData)
    | Delete _ originalData =>
        List.length (keyed originalData primaryKeyColumns)
    end.
Proof.
  destruct change; cbn [buildSql];
    unfold buildUpdateSql, buildInsertSql, buildDeleteSql;
    rewrite ?fold_setClause, ?fold_whereClause, ?fold_insertEntry;
    cbn [snd app]; rewrite ?List.length_app, ?List.length_map; reflexivity.
Qed.

Lemma buildSql_piecesOk (tableName : string) (primaryKeyColumns : list string)
    (columns : list ColumnInfo) (change : RowChange) :
  occurs "$" tableName = false ->
  List.Forall (fun col => occurs "$" col = false)
    (namesOf primaryKeyColumns change) ->
  piecesOk
    (List.length (snd (buildSql tableName primaryKeyColumns columns change)))
    (piecesOf tableName primaryKeyColumns change) = true.
Proof.
  intros Ht Hnames. rewrite buildSql_length.
  destruct change as [i originalData newData modifiedColumns|i newData
                     |i originalData];
    cbn [piecesOf namesOf] in *.
  - apply List.Forall_app in Hnames as [Hm Hp].
    set (n := (List.length modifiedColumns
               + List.length (keyed originalData primaryKeyColumns))%nat).
    pose proof (setPieces_ok n modifiedColumns 1 (le_n _)
                  ltac:(unfold n; lia) Hm) as Hset.
    pose proof (wherePieces_ok n originalData primaryKeyColumns
                  (1 + List.length modifiedColumns) ltac:(lia)
                  ltac:(unfold n; lia) Hp) as Hwhere.
    cbn [piecesOk]. rewrite !occurs_append, Ht. cbn [occurs orb negb andb].
    apply piecesOk_app.
    + apply joinPieces_ok; [reflexivity | reflexivity |].
      now apply Forall_proj1 in Hset.
    + cbn [piecesOk occurs orb negb andb].
      apply joinPieces_ok; [reflexivity | reflexivity |].
      now apply Forall_proj1 in Hwhere.
    + reflexivity.
  - cbn [piecesOk]. rewrite !occurs_append, Ht.
    rewrite occurs_join;
      [| reflexivity
       | rewrite List.Forall_map in Hnames |- *;
         eapply List.Forall_impl; [|exact Hnames];
         intros e He; now rewrite occurs_quoted ].
    cbn [occurs orb negb andb].
    apply piecesOk_app; [|reflexivity|reflexivity].
    apply joinPieces_ok; [reflexivity | reflexivity |].
    apply slotList_ok; lia.
  - pose proof (wherePieces_ok
                  (List.length (keyed originalData primaryKeyColumns))
                  originalData primaryKeyColumns 1 (le_n _) ltac:(lia) Hnames)
      as Hwhere.
    cbn [piecesOk]. rewrite !occurs_append, Ht. cbn [occurs orb negb andb].
    apply joinPieces_ok; [reflexivity | reflexivity |].
    now apply Forall_proj1 in Hwhere.
Qed.

(** X12.  When the table name, the column names and the display literals
    of the bound values hold no dollar sign, the audit text of a change
    is its statement with each placeholder [$i] replaced by the display
    literal of the [i]-th bound parameter, and no dollar sign is left. *)
Theorem buildSql_audit (tableName : string) (primaryKeyColumns : list string)
    (columns : list ColumnInfo) (change : RowChange) :
  let sql := fst (buildSql tableName primaryKeyColumns columns change) in
  let params := snd (buildSql tableName primaryKeyColumns columns change) in
  let pieces := piecesOf tableName primaryKeyColumns change in
  occurs "$" tableName = false ->
  List.Forall (fun col => occurs "$" col = false)
    (namesOf primaryKeyColumns change) ->
  List.Forall (fun v => occurs "$" (formatValueForSql v) = false) params ->
  sql = showPieces placeholderText pieces
  /\ formatSqlWithParams sql params = showPieces (literalOf params) pieces
  /\ occurs "$" (formatSqlWithParams sql params) = false.
Proof.
  intros sql params pieces Ht Hnames Hvalues.
  pose proof (buildSql_pieces tableName primaryKeyColumns columns change)
    as Hsql.
  pose proof (buildSql_piecesOk tableName primaryKeyColumns columns change
                Ht Hnames) as Hok.
  apply piecesOk_templateOk in Hok as [Hok _].
  destruct (formatSqlWithParams_fills params (templateOf pieces) Hok Hvalues)
    as [Hfill Hclean].
  unfold render, filled in Hfill, Hclean.
  rewrite (templateOf_show placeholderText) in Hfill, Hclean.
  rewrite (templateOf_show (literalOf params)) in Hfill.
  fold sql pieces in Hsql. rewrite <- Hsql in Hfill, Hclean.
  split; [exact Hsql|]. split; [exact Hfill | exact Hclean].
Qed.

End BuilderTexts.

Lemma buildSql_audit_witness :
  let change :=
    Update 0 [("id", num 7); ("name", str "x")]
      [("id", num 7); ("name", str "it's")] ["name"] in
  let sql := ("UPDATE t SET " ++ quoted "name" ++ " = $1 WHERE "
              ++ quoted "id" ++ " = $2")%string in
  sql = showPieces placeholderText (piecesOf "t" ["id"] change)
  /\ formatSqlWithParams sql [str "it's"; num 7]
     = ("UPDATE t SET " ++ quoted "name" ++ " = 'it''s' WHERE "
        ++ quoted "id" ++ " = 7")%string
  /\ occurs "$" (formatSqlWithParams sql [str "it's"; num 7]) = false.
Proof.
  apply (@buildSql_audit sampleHost "t" ["id"] sampleColumns
           (Update 0 [("id", num 7); ("name", str "x")]
              [("id", num 7); ("name", str "it's")] ["name"]));
    [reflexivity | repeat constructor | repeat constructor].
Defined.
(** *** The audit texts of a run *)

Section AuditTrail.
Context `{Server}.

Lemma applyChange_executedSql (connection : Connection) (tableName : string)
    (pks : list string) (columns : list ColumnInfo)
    (changes : list RowChange) :
  forall (res : ModificationResult) (w : World),
    executedSql
      (fst (fold_left (applyChange connection tableName pks columns) changes
              (res, w)))
    = (executedSql res
       ++ List.map (auditOf tableName pks columns) changes)%list.
Proof.
  induction changes as [|change later IH]; intros res w.
  - cbn. now rewrite app_nil_r.
  - cbn [fold_left List.map]. unfold applyChange at 2.
    destruct (buildSql tableName pks columns change) as [sql params] eqn:Eb.
    assert (auditOf tableName pks columns change
            = formatSqlWithParams sql params) as ->
      by (unfold auditOf; now rewrite Eb).
    destruct (query w connection sql params) as [w' [rowCount|message]];
      rewrite IH; cbn [executedSql]; now rewrite <- List.app_assoc.
Qed.

(** X13.  With a connection and a primary key, [executedSql] lists the
    audit text of every change in the order of execution, whatever the
    server answers: a statement that is rejected is listed like one that
    is accepted. *)
Theorem applyChanges_executedSql (manager : ConnectionManager)
    (changes : list RowChange) (columns : list ColumnInfo)
    (tableName : string) (pks : list string) (connectionId : option string)
    (w : World) (connection : Connection) :
  resolveConnection manager connectionId = Some connection ->
  pks <> [] ->
  executedSql (fst (applyChanges manager changes columns tableName pks
                      connectionId w))
  = List.map (auditOf tableName pks columns) (sortedChanges changes).
Proof.
  intros Hc Hpk. unfold applyChanges. rewrite Hc.
  destruct pks as [|pk pks]; [congruence|]. cbn [List.length Nat.eqb].
  now rewrite applyChange_executedSql.
Qed.

End AuditTrail.

Lemma applyChanges_executedSql_witness :
  executedSql
    (fst (applyChanges sampleManager sampleChanges sampleColumns "t" ["id"]
            (Some "c1")
            (sampleWorld [Rejected "deadlock"; Rejected "duplicate key";
                          Rejected "timeout"])))
  = [ ("DELETE FROM t WHERE " ++ quoted "id" ++ " = 6")%string;
      ("UPDATE t SET " ++ quoted "name" ++ " = 'B' WHERE " ++ quoted "id"
         ++ " = 1")%string;
      ("INSERT INTO t (" ++ quoted "name" ++ ") VALUES ('C')")%string ].
Proof.
  apply (@applyChanges_executedSql sampleHost scriptedServer sampleManager
           sampleChanges sampleColumns "t" ["id"] (Some "c1")
           (sampleWorld [Rejected "deadlock"; Rejected "duplicate key";
                         Rejected "timeout"]) sampleConnection);
    [reflexivity | discriminate].
Defined.
(** *** Conversion for the columns of a result *)

Section ResultColumns.
Context `{Host}.

(** X14.  For a column as [execute] describes it from its type oid, an
    edited text that is not empty is bound as a number (when it reads as
    one) for the oids 20, 21, 23, 700 and 701 only, as parsed JSON (when
    it parses) for 114 and 3802 only, as a boolean (when it spells true or
    false) for 16 only, and unchanged for every other oid: a column of
    type numeric, which [getDataTypeName] does not know, gets its values
    bound as text. *)
Theorem convertValue_by_oid (n : string) (oid : Z) (s : string) :
  let column := Some (mkColumn n (getDataTypeName oid) oid) in
  s <> "" ->
  (In oid [20; 21; 23; 700; 701]%Z ->
   convertValue (VString s) column
   = match numberOfString s with
     | Some x => VNumber x
     | None => VString s
     end)
  /\ (In oid [114; 3802]%Z ->
      convertValue (VString s) column
      = match jsonParse s with Some v => v | None => VString s end)
  /\ (oid = 16%Z ->
      convertValue (VString s) column
      = if toLowerCase s =? "true" then VBool true
        else if toLowerCase s =? "false" then VBool false
        else VString s)
  /\ (~ In oid [16; 20; 21; 23; 114; 700; 701; 3802]%Z ->
      convertValue (VString s) column = VString s).
Proof.
  intros column Hs. apply String.eqb_neq in Hs. unfold column.
  split; [|split; [|split]].
  - intros Hin. cbn [In] in Hin.
    destruct Hin as [<-|[<-|[<-|[<-|[<-|[]]]]]];
      unfold convertValue; rewrite Hs; reflexivity.
  - intros Hin. cbn [In] in Hin.
    destruct Hin as [<-|[<-|[]]];
      unfold convertValue; rewrite Hs; reflexivity.
  - intros ->. unfold convertValue. rewrite Hs.
    cbn [getDataTypeName hasType dataType].
    change (("boolean" =? "json") || ("boolean" =? "jsonb")) with false.
    change ("boolean" =? "boolean") with true. cbv beta iota.
    destruct (toLowerCase s =? "true"); [reflexivity|].
    destruct (toLowerCase s =? "false"); reflexivity.
  - intros Hnot. unfold getDataTypeName.
    repeat match goal with
           | |- context [(oid =? ?k)%Z] =>
               destruct (Z.eqb_spec oid k) as [->|_];
               [ try (exfalso; apply Hnot; cbn [In]; tauto) | ]
           end;
      unfold convertValue; rewrite Hs; reflexivity.
Qed.

End ResultColumns.

Lemma convertValue_by_oid_witness :
  convertValue (str "42") (Some (mkColumn "n" (getDataTypeName 23) 23))
  = num 42
  /\ convertValue (str "42") (Some (mkColumn "n" (getDataTypeName 1700) 1700))
     = str "42".
Proof.
  pose proof (@convertValue_by_oid sampleHost "n" 23 "42"
                ltac:(discriminate)) as (H1 & _).
  pose proof (@convertValue_by_oid sampleHost "n" 1700 "42"
                ltac:(discriminate)) as (_ & _ & _ & H4).
  split; [apply H1; cbn; tauto|].
  apply H4. cbn. intros Hin.
  repeat (destruct Hin as [Hin|Hin]; [discriminate|]). exact Hin.
Defined.
(** ** The query executor: every path of [execute] *)

Lemma removelast_firstn_length {A} (l : list A) :
  removelast l = firstn (Nat.pred (List.length l)) l.
Proof.
  induction l as [|x l IH]; [reflexivity|].
  destruct l as [|y l]; [reflexivity|].
  change (removelast (x :: y :: l)) with (x :: removelast (y :: l)).
  rewrite IH. reflexivity.
Qed.

Lemma pushed_firstn (item : QueryHistoryItem)
    (history : list QueryHistoryItem) :
  (List.length history <= maxHistoryItems)%nat ->
  pushed item history = firstn maxHistoryItems (item :: history).
Proof.
  intros Hlen. unfold pushed.
  destruct (Nat.ltb_spec maxHistoryItems (List.length (item :: history)))
    as [Hgt|Hle].
  - rewrite removelast_firstn_length. cbn [List.length] in *.
    f_equal. lia.
  - now rewrite firstn_all2.
Qed.

Lemma pushed_length (item : QueryHistoryItem)
    (history : list QueryHistoryItem) :
  (List.length history <= maxHistoryItems)%nat ->
  (List.length (pushed item history) <= maxHistoryItems)%nat.
Proof.
  intros Hlen. rewrite pushed_firstn by exact Hlen.
  rewrite List.length_firstn. lia.
Qed.

Section Paths.
Context `{Host}.

Lemma addToHistory_effect (e : Executor) (item : QueryHistoryItem) :
  queryHistory (addToHistory e item) = pushed item (queryHistory e)
  /\ fired (addToHistory e item) = (fired e ++ [item])%list
  /\ activeQuery (addToHistory e item) = activeQuery e
  /\ queryRunning (addToHistory e item) = queryRunning e
  /\ checkedOut (addToHistory e item) = checkedOut e
  /\ cancelSent (addToHistory e item) = cancelSent e.
Proof. repeat split. Qed.

(** The cancel requests sent while a statement runs. *)
Lemma cancelCurrentQuery_sent (manager : ConnectionManager) (e : Executor)
    (sent : bool) (aq : ActiveQuery) :
  activeQuery e = Some aq ->
  let e' := fst (cancelCurrentQuery manager e sent) in
  (exists aq', activeQuery e' = Some aq' /\ pid aq' = pid aq
               /\ cancelled aq' = true)
  /\ (cancelled aq = true -> cancelSent e' = cancelSent e)
  /\ (cancelSent e' = cancelSent e
      \/ (sent = true /\ cancelled aq = false
          /\ cancelSent e' = (cancelSent e ++ [pid aq])%list)).
Proof.
  intros Ha. unfold cancelCurrentQuery. rewrite Ha.
  destruct (cancelled aq) eqn:Ec; cbn [fst].
  - split; [exists aq; auto|]. auto.
  - destruct (getConnection manager (connectionId aq)); [destruct sent|];
      cbn [fst activeQuery cancelSent];
      (split; [eexists; split; [reflexivity|]; cbn [pid cancelled]; auto|]);
      (split; [discriminate|]); auto.
Qed.

Lemma whileRunning_cancelled (manager : ConnectionManager)
    (requests : list bool) :
  forall e aq,
    activeQuery e = Some aq -> cancelled aq = true ->
    cancelSent (whileRunning manager requests e) = cancelSent e.
Proof.
  induction requests as [|sent later IH]; intros e aq Ha Hc; [reflexivity|].
  change (whileRunning manager (sent :: later) e)
    with (whileRunning manager later (fst (cancelCurrentQuery manager e sent))).
  destruct (cancelCurrentQuery_sent manager e sent aq Ha)
    as ((aq' & Ha' & _ & Hc') & Hsame & _).
  rewrite (IH _ aq' Ha' Hc'). now apply Hsame.
Qed.

Lemma whileRunning_sent (manager : ConnectionManager) (requests : list bool)
    (e : Executor) (aq : ActiveQuery) :
  activeQuery e = Some aq ->
  cancelSent (whileRunning manager requests e) = cancelSent e
  \/ (exists later, requests = true :: later)
     /\ cancelSent (whileRunning manager requests e)
        = (cancelSent e ++ [pid aq])%list.
Proof.
  intros Ha. destruct requests as [|sent later]; [now left|].
  change (whileRunning manager (sent :: later) e)
    with (whileRunning manager later (fst (cancelCurrentQuery manager e sent))).
  destruct (cancelCurrentQuery_sent manager e sent aq Ha)
    as ((aq' & Ha' & _ & Hc') & _ & Hsent).
  rewrite (whileRunning_cancelled manager later _ aq' Ha' Hc').
  destruct Hsent as [->|(-> & _ & ->)]; [now left|].
  right. split; [now exists later | reflexivity].
Qed.

(** The state that [finish] leaves. *)
Lemma finish_effect (e : Executor) (c : option PoolClient) :
  queryHistory (finish e c) = queryHistory e
  /\ fired (finish e c) = fired e
  /\ activeQuery (finish e c) = None
  /\ queryRunning (finish e c) = false
  /\ cancelSent (finish e c) = cancelSent e
  /\ checkedOut (finish e c) = release e c.
Proof. repeat split. Qed.

Lemma inUse_released (e e3 : Executor) (connection : Connection)
    (c : PoolClient) :
  clientPool c = pool connection ->
  checkedOut e3
  = <[pool connection := S (inUse e (pool connection))]> (checkedOut e) ->
  forall p, default 0%nat (release e3 (Some c) !! p) = inUse e p.
Proof.
  intros Hp H3 p. unfold release, inUse. rewrite Hp, H3.
  rewrite lookup_insert_eq. cbn [default Nat.pred].
  destruct (decide (pool connection = p)) as [->|Hne].
  - now rewrite lookup_insert_eq.
  - now rewrite !lookup_insert_ne by exact Hne.
Qed.

(** The [catch] block: a rejection is turned into the cancellation result
    when the query was marked cancelled or the message reads as a
    cancellation, and is thrown again and recorded otherwise. *)
Lemma failed_outcome (e0 : Executor) (c : option PoolClient) (sql : string)
    (connection : Connection) (run : Run) (message : string) :
  let e' := fst (failed e0 c sql connection run message) in
  let out := snd (failed e0 c sql connection run message) in
  let elapsed := (endTime run - startTime run)%Z in
  if markedCancelled e0 || cancellationText message
  then out = Returned (mkQueryResult [] [] 0 elapsed
                         (Some "Query cancelled by user"))
       /\ queryHistory e' = queryHistory e0 /\ fired e' = fired e0
  else out = Threw message
       /\ queryHistory e'
          = pushed (mkHistoryItem (newId run) sql (id connection)
                      (endTime run) elapsed 0 (Some message))
              (queryHistory e0)
       /\ fired e'
          = (fired e0
             ++ [mkHistoryItem (newId run) sql (id connection) (endTime run)
                   elapsed 0 (Some message)])%list.
Proof.
  cbv zeta. unfold failed, wasCancelled, cancellationText.
  rewrite <- orb_assoc.
  destruct (markedCancelled e0
            || (includes message "canceling statement due to user request"
                || includes message "57014")); cbn [fst snd];
    repeat split.
Qed.

Lemma connect_keeps (e e1 : Executor) (connection : Connection)
    (answer : option string) (r : PoolClient + string) :
  connect e connection answer = (e1, r) ->
  activeQuery e1 = activeQuery e /\ queryHistory e1 = queryHistory e
  /\ fired e1 = fired e.
Proof.
  unfold connect.
  destruct (inUse e (pool connection) <? poolMax)%nat;
    [destruct answer|]; intros [= <- <-]; repeat split.
Qed.

(** What one call of [execute] leaves, path by path.  [grown] tells
    whether an item was recorded. *)
Lemma execute_paths (manager : ConnectionManager) (sql : string)
    (connectionId : option string) (run : Run) (e : Executor)
    (connection : Connection) :
  resolveConnection manager connectionId = Some connection ->
  let e' := fst (execute manager sql connectionId run e) in
  let out := snd (execute manager sql connectionId run e) in
  activeQuery e' = None /\ queryRunning e' = false
  /\ (forall p, inUse e' p = inUse e p)
  /\ (cancelSent e' = cancelSent e
      \/ exists p later,
           pidOutcome run = inl p /\ cancelRequests run = true :: later
           /\ cancelSent e' = (cancelSent e ++ [p])%list)
  /\ ((exists r item,
          out = Returned r /\ error r = None
          /\ queryHistory e' = pushed item (queryHistory e)
          /\ fired e' = (fired e ++ [item])%list
          /\ hSql item = sql /\ hConnectionId item = id connection
          /\ hError item = None /\ hRowCount item = rowCount r)
      \/ (out = Returned (mkQueryResult [] [] 0 (endTime run - startTime run)
                            (Some cancellationMessage))
          /\ queryHistory e' = queryHistory e /\ fired e' = fired e)
      \/ (exists message item,
            out = Threw message
            /\ queryHistory e' = pushed item (queryHistory e)
            /\ fired e' = (fired e ++ [item])%list
            /\ hSql item = sql /\ hConnectionId item = id connection
            /\ hError item = Some message /\ hRowCount item = 0%N)).
Proof.
  intros Hres. unfold execute. rewrite Hres.
  assert (forall e0 c message,
             queryHistory e0 = queryHistory e -> fired e0 = fired e ->
             let e' := fst (failed e0 c sql connection run message) in
             let out := snd (failed e0 c sql connection run message) in
             activeQuery e' = None /\ queryRunning e' = false
             /\ checkedOut e' = release e0 c
             /\ cancelSent e' = cancelSent e0
             /\ ((out = Returned (mkQueryResult [] [] 0
                                    (endTime run - startTime run)
                                    (Some cancellationMessage))
                  /\ queryHistory e' = queryHistory e /\ fired e' = fired e)
                 \/ (exists message item,
                       out = Threw message
                       /\ queryHistory e' = pushed item (queryHistory e)
                       /\ fired e' = (fired e ++ [item])%list
                       /\ hSql item = sql
                       /\ hConnectionId item = id connection
                       /\ hError item = Some message
                       /\ hRowCount item = 0%N))) as Hfailed.
  { intros e0 c message Hh Hf. unfold failed.
    destruct (wasCancelled e0 message); cbn [fst snd].
    - repeat split; auto.
    - repeat split; auto. right.
      eexists message, _. cbn [finish queryHistory fired addToHistory].
      rewrite Hh, Hf. repeat split. }
  destruct (connect e connection (connectOutcome run)) as [e1 [c|message]]
    eqn:Hcon.
  - pose proof (connect_inv _ _ _ _ _ Hcon) as (_ & Hp & C1 & C2 & C3).
    destruct (pidOutcome run) as [p|message] eqn:Hpid.
    + set (e3 := whileRunning manager (cancelRequests run)
                   (started e1 c p connection)).
      destruct (whileRunning_effect manager (cancelRequests run)
                  (started e1 c p connection)) as (W1 & W2 & W3 & _).
      fold e3 in W1, W2, W3. cbn [started queryHistory fired checkedOut]
        in W1, W2, W3.
      assert (cancelSent e3 = cancelSent e
              \/ exists p0 later,
                   @inl Z string p = inl p0
                   /\ cancelRequests run = true :: later
                   /\ cancelSent e3 = (cancelSent e ++ [p0])%list) as Hsent.
      { destruct (whileRunning_sent manager (cancelRequests run)
                    (started e1 c p connection) _ eq_refl)
          as [Hs|[[later Hl] Hs]]; fold e3 in Hs;
          cbn [started cancelSent pid] in Hs.
        - left. rewrite Hs. unfold connect in Hcon.
          destruct (inUse e (pool connection) <? poolMax)%nat;
            [destruct (connectOutcome run)|]; inversion Hcon; reflexivity.
        - right. exists p, later. rewrite Hs. unfold connect in Hcon.
          destruct (inUse e (pool connection) <? poolMax)%nat;
            [destruct (connectOutcome run)|]; inversion Hcon; auto. }
      assert (forall p0, default 0%nat (release e3 (Some c) !! p0)
                         = inUse e p0) as Hrel.
      { apply (inUse_released e e3 connection c Hp). now rewrite W3. }
      destruct (statementOutcome run) as [pgResult|message].
      * unfold succeeded. cbn [fst snd].
        cbn [finish activeQuery queryRunning cancelSent addToHistory
               queryHistory fired checkedOut].
        split; [reflexivity|]. split; [reflexivity|].
        split; [intros p0; unfold inUse at 1; cbn [checkedOut]; apply Hrel|].
        split; [exact Hsent|]. left.
        eexists _, _. split; [reflexivity|]. cbn [error].
        split; [reflexivity|]. rewrite W1, C1, W2, C2.
        split; [reflexivity|]. repeat split.
      * destruct (Hfailed e3 (Some c) message) as (F1 & F2 & F3 & F4 & F5);
          [congruence | congruence |].
        split; [exact F1|]. split; [exact F2|].
        split; [intros p0; unfold inUse at 1; rewrite F3; apply Hrel|].
        split; [rewrite F4; exact Hsent|]. right. exact F5.
    + destruct (Hfailed e1 (Some c) message) as (F1 & F2 & F3 & F4 & F5);
        [congruence | congruence |].
      split; [exact F1|]. split; [exact F2|].
      split.
      { intros p0. unfold inUse at 1. rewrite F3.
        apply (inUse_released e e1 connection c Hp C3). }
      split; [|right; exact F5]. left. rewrite F4. unfold connect in Hcon.
      destruct (inUse e (pool connection) <? poolMax)%nat;
        [destruct (connectOutcome run)|]; inversion Hcon; reflexivity.
  - assert (e1 = e) as ->.
    { unfold connect in Hcon.
      destruct (inUse e (pool connection) <? poolMax)%nat;
        [destruct (connectOutcome run)|]; inversion Hcon; reflexivity. }
    destruct (Hfailed e None message) as (F1 & F2 & F3 & F4 & F5); auto.
    split; [exact F1|]. split; [exact F2|].
    split; [intros p0; unfold inUse; now rewrite F3|].
    split; [left; exact F4 | right; exact F5].
Qed.

End Paths.
Section ExecutorProperties.
Context `{Host}.

(** X15.  The history never holds more than [maxHistoryItems] items: an
    item is put in front and, once the list is full, the oldest one is
    dropped; [execute] and [recordInHistory] keep the bound. *)
Theorem history_bounded (manager : ConnectionManager) (sql : string)
    (connectionId : option string) (run : Run) (e : Executor) :
  (List.length (queryHistory e) <= maxHistoryItems)%nat ->
  (forall item,
      getHistory (addToHistory e item)
      = firstn maxHistoryItems (item :: queryHistory e))
  /\ (forall i t text cid d n err,
        (List.length
           (getHistory (recordInHistory e i t text cid d n err))
         <= maxHistoryItems)%nat)
  /\ (List.length
        (getHistory (fst (execute manager sql connectionId run e)))
      <= maxHistoryItems)%nat.
Proof.
  intros Hlen. unfold getHistory, recordInHistory.
  split; [|split].
  - intros item. destruct (addToHistory_effect e item) as (-> & _).
    now apply pushed_firstn.
  - intros i t text cid d n err.
    destruct (addToHistory_effect e (mkHistoryItem i text cid t d n err))
      as (-> & _).
    now apply pushed_length.
  - destruct (resolveConnection manager connectionId) as [connection|] eqn:Hr.
    + destruct (execute_paths manager sql connectionId run e connection Hr)
        as (_ & _ & _ & _ & Hcase).
      destruct Hcase as [(r & item & _ & _ & -> & _)
                        |[(_ & -> & _)|(m & item & _ & -> & _)]];
        [now apply pushed_length | exact Hlen | now apply pushed_length].
    + unfold execute. rewrite Hr. exact Hlen.
Qed.

(** X16.  Once a connection is resolved, [execute] ends on every path,
    whether it returns or throws, with no active query, the running flag
    cleared and every pool holding as many checked-out clients as before
    the call; a cancel request that comes afterwards does nothing. *)
Theorem execute_releases (manager : ConnectionManager) (sql : string)
    (connectionId : option string) (run : Run) (e : Executor)
    (connection : Connection) :
  resolveConnection manager connectionId = Some connection ->
  let e' := fst (execute manager sql connectionId run e) in
  activeQuery e' = None
  /\ isQueryRunning e' = false
  /\ queryRunning e' = false
  /\ (forall p, inUse e' p = inUse e p)
  /\ (forall sent, cancelCurrentQuery manager e' sent = (e', false)).
Proof.
  intros Hr e'.
  destruct (execute_paths manager sql connectionId run e connection Hr)
    as (Ha & Hq & Hp & _). fold e' in Ha, Hq, Hp.
  unfold isQueryRunning, cancelCurrentQuery. rewrite Ha. auto.
Qed.

(** X17.  However many cancellation requests arrive during one call of
    [execute], at most one cancel request is sent to the server; it is for
    the backend process of this call, and it is sent only when the first
    request to arrive gets through. *)
Theorem execute_sends_one_cancel (manager : ConnectionManager) (sql : string)
    (connectionId : option string) (run : Run) (e : Executor)
    (connection : Connection) :
  resolveConnection manager connectionId = Some connection ->
  let e' := fst (execute manager sql connectionId run e) in
  cancelSent e' = cancelSent e
  \/ exists p later,
       pidOutcome run = inl p /\ cancelRequests run = true :: later
       /\ cancelSent e' = (cancelSent e ++ [p])%list.
Proof.
  intros Hr e'.
  now destruct (execute_paths manager sql connectionId run e connection Hr)
    as (_ & _ & _ & Hs & _).
Qed.

(** X18.  A call of [execute] on an executor without active query ends
    in one of four ways, and which one is decided by the run.  Without a
    connection it throws before anything is recorded.  When no call of
    the driver is rejected it returns a result without error, with the
    rows and the row count of the driver, and records the statement with
    that row count.  When a call of the driver is rejected and either a
    cancellation was requested while the statement ran or the message
    reads as a cancellation, it returns the empty result that carries the
    cancellation message and records nothing; in every other case it
    throws the very message of the driver and records the statement with
    that message and no rows. *)
Theorem execute_outcomes (manager : ConnectionManager) (sql : string)
    (connectionId : option string) (run : Run) (e : Executor) :
  activeQuery e = None ->
  let e' := fst (execute manager sql connectionId run e) in
  let out := snd (execute manager sql connectionId run e) in
  let elapsed := (endTime run - startTime run)%Z in
  let recorded := fun item =>
    queryHistory e' = pushed item (queryHistory e)
    /\ fired e' = (fired e ++ [item])%list in
  (resolveConnection manager connectionId = None ->
   e' = e /\ out = Threw "No active database connection")
  /\ (forall connection,
        resolveConnection manager connectionId = Some connection ->
        match rejection e connection run with
        | None =>
            exists pgResult r,
              statementOutcome run = inl pgResult
              /\ out = Returned r /\ error r = None
              /\ rowCount r = default 0%N (pgRowCount pgResult)
              /\ rows r = default [] (pgRows pgResult)
              /\ duration r = elapsed
              /\ recorded (mkHistoryItem (newId run) sql (id connection)
                             (endTime run) elapsed (rowCount r) None)
        | Some (message, requested) =>
            if requested || cancellationText message
            then out = Returned (mkQueryResult [] [] 0 elapsed
                                   (Some "Query cancelled by user"))
                 /\ queryHistory e' = queryHistory e /\ fired e' = fired e
            else out = Threw message
                 /\ recorded (mkHistoryItem (newId run) sql (id connection)
                                (endTime run) elapsed 0 (Some message))
        end).
Proof.
  intros Hidle e' out elapsed recorded. split.
  - intros Hr. unfold e', out, execute. rewrite Hr. auto.
  - intros connection Hr. unfold recorded, e', out, rejection, execute.
    rewrite Hr.
    destruct (connect e connection (connectOutcome run)) as [e1 r] eqn:Hcon.
    destruct (connect_keeps _ _ _ _ _ Hcon) as (Ka & Kh & Kf).
    assert (markedCancelled e1 = false) as Hm1
      by (unfold markedCancelled; now rewrite Ka, Hidle).
    destruct r as [c|message].
    + destruct (pidOutcome run) as [p|message].
      * set (e3 := whileRunning manager (cancelRequests run)
                     (started e1 c p connection)).
        destruct (whileRunning_effect manager (cancelRequests run)
                    (started e1 c p connection)) as (W1 & W2 & _).
        fold e3 in W1, W2. cbn [started queryHistory fired] in W1, W2.
        destruct (statementOutcome run) as [pgResult|message].
        -- exists pgResult. eexists. split; [reflexivity|].
           unfold succeeded. cbn [fst snd]. split; [reflexivity|].
           cbn [error rowCount rows duration finish addToHistory
                  queryHistory fired].
           rewrite W1, W2, Kh, Kf. unfold pushed. repeat split.
        -- assert (markedCancelled e3
                   = match cancelRequests run with
                     | [] => false
                     | _ => true
                     end) as Hm3.
           { unfold e3. destruct (cancelRequests run) as [|s l] eqn:Hq.
             - reflexivity.
             - rewrite <- Hq. apply request_marks_cancelled.
               rewrite Hq. discriminate. }
           pose proof (failed_outcome e3 (Some c) sql connection run message)
             as Hf. cbv zeta in Hf. rewrite Hm3, W1, W2, Kh, Kf in Hf.
           exact Hf.
      * pose proof (failed_outcome e1 (Some c) sql connection run message)
          as Hf. cbv zeta in Hf. rewrite Hm1, Kh, Kf in Hf. exact Hf.
    + pose proof (failed_outcome e1 None sql connection run message) as Hf.
      cbv zeta in Hf. rewrite Hm1, Kh, Kf in Hf. exact Hf.
Qed.

End ExecutorProperties.

Lemma history_bounded_witness :
  let item := mkHistoryItem "q" "SELECT 2" "c1" 100 1 1 None in
  List.length (getHistory fullExecutor) = maxHistoryItems
  /\ getHistory (addToHistory fullExecutor item)
     = item :: List.map numberedItem (seq 0 99)
  /\ (List.length
        (getHistory
           (recordInHistory fullExecutor "q" 100 "SELECT 2" "c1" 1 1 None))
      <= maxHistoryItems)%nat
  /\ (List.length
        (getHistory
           (fst (@execute sampleHost sampleManager "SELECT 1" (Some "c1")
                   plainRun fullExecutor))) <= maxHistoryItems)%nat.
Proof.
  pose proof (@history_bounded sampleHost sampleManager "SELECT 1" (Some "c1")
                plainRun fullExecutor ltac:(vm_compute; lia))
    as (H1 & H2 & H3).
  split; [reflexivity|].
  split; [exact (H1 (mkHistoryItem "q" "SELECT 2" "c1" 100 1 1 None))|].
  split; [apply H2 | exact H3].
Defined.

Lemma execute_releases_witness :
  let e' := fst (@execute sampleHost sampleManager "SELECT 1" (Some "c1") plainRun
                   idleExecutor) in
  activeQuery e' = None
  /\ isQueryRunning e' = false
  /\ queryRunning e' = false
  /\ (forall p, inUse e' p = inUse idleExecutor p)
  /\ (forall sent, cancelCurrentQuery sampleManager e' sent = (e', false)).
Proof.
  apply (@execute_releases sampleHost sampleManager "SELECT 1" (Some "c1")
           plainRun idleExecutor sampleConnection).
  reflexivity.
Defined.

Lemma execute_sends_one_cancel_witness :
  let e' := fst (@execute sampleHost sampleManager "SELECT 1" (Some "c1")
                   (mkRun 1000 None (inl 4242%Z) [true; true; true]
                      (inr "canceling statement due to user request")
                      1005 "query_1")
                   idleExecutor) in
  cancelSent e' = cancelSent idleExecutor
  \/ exists p later,
       @inl Z string 4242%Z = inl p /\ [true; true; true] = true :: later
       /\ cancelSent e' = (cancelSent idleExecutor ++ [p])%list.
Proof.
  apply (@execute_sends_one_cancel sampleHost sampleManager "SELECT 1"
           (Some "c1")
           (mkRun 1000 None (inl 4242%Z) [true; true; true]
              (inr "canceling statement due to user request") 1005 "query_1")
           idleExecutor sampleConnection).
  reflexivity.
Defined.

Lemma execute_outcomes_witness :
  snd (@execute sampleHost sampleManager "SELEC 1" (Some "nowhere") plainRun
         idleExecutor)
  = Threw "No active database connection"
  /\ (snd (@execute sampleHost sampleManager "SELEC 1" (Some "c1")
             rejectedRun idleExecutor)
      = Threw "syntax error at or near SELEC"
      /\ queryHistory (fst (@execute sampleHost sampleManager "SELEC 1"
                              (Some "c1") rejectedRun idleExecutor))
         = [mkHistoryItem "query_3" "SELEC 1" "c1" 3005 5 0
              (Some "syntax error at or near SELEC")])
  /\ (snd (@execute sampleHost sampleManager "SELEC 1" (Some "c1")
             cancelledRun idleExecutor)
      = Returned (mkQueryResult [] [] 0 5 (Some "Query cancelled by user"))
      /\ queryHistory (fst (@execute sampleHost sampleManager "SELEC 1"
                              (Some "c1") cancelledRun idleExecutor)) = [])
  /\ (exists r,
        snd (@execute sampleHost sampleManager "SELEC 1" (Some "c1") plainRun
               idleExecutor) = Returned r
        /\ error r = None /\ rowCount r = 1%N
        /\ queryHistory (fst (@execute sampleHost sampleManager "SELEC 1"
                                (Some "c1") plainRun idleExecutor))
           = [mkHistoryItem "query_2" "SELEC 1" "c1" 2005 5 1 None]).
Proof.
  pose proof (@execute_outcomes sampleHost sampleManager "SELEC 1"
                (Some "nowhere") plainRun idleExecutor eq_refl) as (H0 & _).
  pose proof (@execute_outcomes sampleHost sampleManager "SELEC 1"
                (Some "c1") rejectedRun idleExecutor eq_refl) as (_ & H1).
  pose proof (@execute_outcomes sampleHost sampleManager "SELEC 1"
                (Some "c1") cancelledRun idleExecutor eq_refl) as (_ & H2).
  pose proof (@execute_outcomes sampleHost sampleManager "SELEC 1"
                (Some "c1") plainRun idleExecutor eq_refl) as (_ & H3).
  specialize (H1 sampleConnection eq_refl).
  specialize (H2 sampleConnection eq_refl).
  specialize (H3 sampleConnection eq_refl).
  assert (rejection idleExecutor sampleConnection rejectedRun
          = Some ("syntax error at or near SELEC", false)) as R1
    by reflexivity.
  assert (rejection idleExecutor sampleConnection cancelledRun
          = Some ("canceling statement due to user request", true)) as R2
    by reflexivity.
  assert (rejection idleExecutor sampleConnection plainRun = None) as R3
    by reflexivity.
  assert (cancellationText "syntax error at or near SELEC" = false) as T1
    by reflexivity.
  rewrite R1 in H1. rewrite R2 in H2. rewrite R3 in H3.
  cbn [orb] in H1, H2. rewrite T1 in H1.
  split; [exact (proj2 (H0 eq_refl))|].
  split; [destruct H1 as (A & B & _); split; [exact A | exact B]|].
  split; [destruct H2 as (A & B & _); split; [exact A | exact B]|].
  destruct H3 as (pg & r & Hs & A & B & C & _ & _ & D & _).
  injection Hs as <-. change (rowCount r = 1%N) in C.
  exists r. split; [exact A|]. split; [exact B|].
  split; [exact C|]. rewrite C in D. exact D.
Defined.

(** ** The connection manager *)

Lemma wellFormed_insert (m : ConnectionManager) (c : Connection) :
  wellFormed m -> isConnected c = true ->
  wellFormed (mkManager (<[id c := c]> (connections m)) (activeConnection m)).
Proof.
  intros Hm Hc cid c'. cbn [connections].
  destruct (decide (id c = cid)) as [<-|Hne].
  - rewrite lookup_insert_eq. now intros [= <-].
  - rewrite lookup_insert_ne by exact Hne. apply Hm.
Qed.

Lemma wellFormed_delete (m : ConnectionManager) (cid : string) :
  wellFormed m ->
  wellFormed (mkManager (base.delete cid (connections m)) (activeConnection m)).
Proof.
  intros Hm cid' c'. cbn [connections].
  destruct (decide (cid = cid')) as [<-|Hne].
  - now rewrite lookup_delete_eq.
  - rewrite lookup_delete_ne by exact Hne. apply Hm.
Qed.

(** X19.  Starting from a map in which every connection is stored under
    its own id and is connected, [connect] keeps the map so.  A call that
    succeeds returns a connection with the id of the configuration, which
    [getConnection] then finds and [isConnected] reports; when the id is
    already connected the existing connection is returned and nothing
    changes, no second pool being opened; a call that fails leaves the
    map as it was; other ids are never touched. *)
Theorem manager_connect (s : Managed) (config : ConnectionConfig.t)
    (newPool : string) (ended tested : option string) :
  wellFormed (manager s) ->
  let s' := fst (Manager.connect s config newPool ended tested) in
  let r := snd (Manager.connect s config newPool ended tested) in
  let cid := ConnectionConfig.id config in
  wellFormed (manager s')
  /\ (forall c, r = inl c ->
        id c = cid /\ getConnection (manager s') cid = Some c
        /\ Manager.isConnected s' cid = true)
  /\ (forall existing,
        getConnection (manager s) cid = Some existing ->
        s' = s /\ r = inl existing)
  /\ (forall message, r = inr message -> s' = s)
  /\ (forall other, other <> cid ->
        getConnection (manager s') other = getConnection (manager s) other).
Proof.
  intros Hwf s' r cid. unfold s', r, Manager.connect. fold cid.
  assert (let o := Manager.open s config newPool tested in
          wellFormed (manager (fst o))
          /\ (forall c, snd o = inl c ->
                id c = cid /\ getConnection (manager (fst o)) cid = Some c
                /\ Manager.isConnected (fst o) cid = true)
          /\ (forall message, snd o = inr message -> fst o = s)
          /\ (forall other, other <> cid ->
                getConnection (manager (fst o)) other
                = getConnection (manager s) other)) as Hopen.
  { unfold Manager.open. fold cid. destruct tested as [message|]; cbn [fst snd].
    - split; [exact Hwf|]. split; [discriminate|]. auto.
    - split.
      + apply (wellFormed_insert (manager s)
                 (mkConnection cid (ConnectionConfig.name config) newPool true)
                 Hwf eq_refl).
      + split.
        * intros c [= <-]. unfold Manager.isConnected, getConnection.
          cbn [manager connections id]. rewrite lookup_insert_eq. auto.
        * split; [discriminate|]. intros other Hne.
          unfold getConnection. cbn [manager connections].
          now rewrite lookup_insert_ne by congruence. }
  destruct (getConnection (manager s) cid) as [existing|] eqn:Eg.
  - destruct (Hwf cid existing Eg) as [Hid Hflag].
    unfold Manager.flag. rewrite Hflag. cbn [fst snd].
    split; [exact Hwf|]. split.
    + intros c [= <-]. unfold Manager.isConnected, Manager.flag.
      now rewrite Eg.
    + split; [intros e [= <-]; auto|]. split; [discriminate | auto].
  - destruct Hopen as (H1 & H2 & H3 & H4).
    split; [exact H1|]. split; [exact H2|].
    split; [discriminate|]. split; [exact H3 | exact H4].
Qed.

(** X20.  [disconnect] keeps the map well formed.  When the pool ends,
    the connection is gone: [getConnection] finds nothing under the id and
    [isConnected] reports false; when the pool refuses to end, or the id
    is unknown, nothing changes; other ids are never touched.  In a well
    formed map [isConnected] holds exactly of the ids that
    [getConnection] finds. *)
Theorem manager_disconnect (s : Managed) (cid : string)
    (ended : option string) :
  wellFormed (manager s) ->
  let s' := fst (Manager.disconnect s cid ended) in
  let r := snd (Manager.disconnect s cid ended) in
  wellFormed (manager s')
  /\ (r = None ->
      getConnection (manager s') cid = None
      /\ Manager.isConnected s' cid = false)
  /\ (forall message, r = Some message -> s' = s)
  /\ (getConnection (manager s) cid = None -> s' = s /\ r = None)
  /\ (forall other, other <> cid ->
        getConnection (manager s') other = getConnection (manager s) other)
  /\ (forall k, Manager.isConnected s k = true
                <-> getConnection (manager s) k <> None).
Proof.
  intros Hwf s' r. unfold s', r, Manager.disconnect.
  assert (forall k, Manager.isConnected s k = true
                    <-> getConnection (manager s) k <> None) as Hiff.
  { intros k. unfold Manager.isConnected, Manager.flag.
    destruct (getConnection (manager s) k) as [c|] eqn:Ek.
    - destruct (Hwf k c Ek) as [_ ->]. split; [discriminate | reflexivity].
    - split; [discriminate | congruence]. }
  destruct (getConnection (manager s) cid) as [connection|] eqn:Eg.
  - destruct ended as [message|]; cbn [fst snd].
    + split; [exact Hwf|]. split; [discriminate|].
      split; [auto|]. split; [discriminate|]. auto.
    + split; [now apply wellFormed_delete|].
      split.
      * intros _. unfold Manager.isConnected, getConnection.
        cbn [manager connections]. now rewrite lookup_delete_eq.
      * split; [discriminate|]. split; [discriminate|].
        split; [|exact Hiff]. intros other Hne.
        unfold getConnection. cbn [manager connections].
        now rewrite lookup_delete_ne by congruence.
  - cbn [fst snd]. split; [exact Hwf|].
    split.
    + intros _. unfold Manager.isConnected. now rewrite Eg.
    + split; [discriminate|]. split; [auto|]. auto.
Qed.

Lemma manager_connect_witness :
  let s := mkManaged (mkManager ∅ None) [] in
  let config :=
    ConnectionConfig.make "c1" "local" "localhost" 5432 "postgres" "postgres"
      None None in
  let s' := fst (Manager.connect s config "pool-1" None None) in
  getConnection (manager s') "c1"
  = Some (mkConnection "c1" "local" "pool-1" true)
  /\ Manager.isConnected s' "c1" = true.
Proof.
  pose proof (manager_connect (mkManaged (mkManager ∅ None) [])
                (ConnectionConfig.make "c1" "local" "localhost" 5432
                   "postgres" "postgres" None None)
                "pool-1" None None) as H.
  destruct H as (_ & H & _).
  - intros cid c. cbn [manager connections]. now rewrite lookup_empty.
  - apply (H (mkConnection "c1" "local" "pool-1" true)). reflexivity.
Defined.

Lemma manager_disconnect_witness :
  let s := mkManaged sampleManager [] in
  let s' := fst (Manager.disconnect s "c1" None) in
  getConnection (manager s') "c1" = None
  /\ Manager.isConnected s' "c1" = false.
Proof.
  pose proof (manager_disconnect (mkManaged sampleManager []) "c1" None) as H.
  destruct H as (_ & H & _).
  - intros cid c. cbn [manager sampleManager connections].
    intros Hl. apply lookup_singleton_Some in Hl as [<- <-]. auto.
  - apply H. reflexivity.
Defined.

(** ** The connection of a document *)

(** X21.  A connection id set for a SQL document is the one the tracker
    returns for it, and the effective connection of the document is
    whatever the manager holds under that id; other documents are not
    affected, and a document that is not SQL is never given a connection.
    When the manager no longer holds the connection, the document keeps
    its connection id but has no effective connection, and the status bar
    shows it as disconnected; clearing removes the id. *)
Theorem tracker_connection (m : ConnectionManager) (t : Tracker)
    (document : Document) (cid : string) :
  let t' := setDocumentConnection t document cid in
  (isSqlDocument document = false -> t' = t)
  /\ (isSqlDocument document = true -> truthy cid = true ->
      getDocumentConnectionId t' document = Some cid
      /\ getEffectiveConnection m t' document = getConnection m cid
      /\ (forall other, uri other <> uri document ->
            getDocumentConnectionId t' other = getDocumentConnectionId t other)
      /\ (getConnection m cid = None ->
          hasDocumentConnection t' document = true
          /\ statusText m t' (Some document) = Some "$(warning) Disconnected")
      /\ getDocumentConnectionId (clearDocumentConnection t' document) document
         = None
      /\ statusText m (clearDocumentConnection t' document) (Some document)
         = Some "$(plug) No Connection").
Proof.
  intros t'. unfold t', setDocumentConnection. split.
  - intros ->. reflexivity.
  - intros Hsql Hcid. rewrite Hsql. cbn [negb].
    set (t1 := mkTracker (<[uri document:=cid]> (documentConnections t))
                 (changed t ++ [(document, Some cid)])%list).
    assert (documentConnections t1 !! uri document = Some cid) as Hl
      by apply lookup_insert_eq.
    assert (hasDocumentConnection t1 document = true) as Hhas
      by (unfold hasDocumentConnection; now rewrite Hl).
    assert (getDocumentConnection m t1 document = getConnection m cid) as Hget
      by (unfold getDocumentConnection, getDocumentConnectionId;
          now rewrite Hl, Hcid).
    assert (documentConnections (clearDocumentConnection t1 document)
              !! uri document = None) as Hcl.
    { unfold clearDocumentConnection. rewrite Hhas.
      cbn [documentConnections]. apply lookup_delete_eq. }
    split; [exact Hl|]. split; [exact Hget|].
    split.
    { intros other Hne. unfold getDocumentConnectionId, t1.
      cbn [documentConnections]. now rewrite lookup_insert_ne by congruence. }
    split.
    { intros Hnone. split; [exact Hhas|]. unfold statusText.
      now rewrite Hsql, Hget, Hnone, Hhas. }
    split; [exact Hcl|].
    unfold statusText, getDocumentConnection, getDocumentConnectionId,
      hasDocumentConnection.
    now rewrite Hsql, Hcl.
Qed.

Lemma tracker_connection_witness :
  let document := mkDocument "file:///q.sql" "sql" in
  let t' := setDocumentConnection (mkTracker ∅ []) document "c1" in
  getDocumentConnectionId t' document = Some "c1"
  /\ getEffectiveConnection sampleManager t' document = Some sampleConnection
  /\ statusText (mkManager ∅ None) t' (Some document)
     = Some "$(warning) Disconnected".
Proof.
  pose proof (tracker_connection sampleManager (mkTracker ∅ [])
                (mkDocument "file:///q.sql" "sql") "c1") as (_ & H1).
  pose proof (tracker_connection (mkManager ∅ None) (mkTracker ∅ [])
                (mkDocument "file:///q.sql" "sql") "c1") as (_ & H2).
  destruct (H1 eq_refl eq_refl) as (A & B & _).
  destruct (H2 eq_refl eq_refl) as (_ & _ & _ & C & _).
  split; [exact A|]. split; [exact B|]. now apply C.
Defined.

(** ** The views *)

Lemma allChars_append (p : ascii -> bool) (a b : string) :
  allChars p (a ++ b) = allChars p a && allChars p b.
Proof.
  induction a as [|c a IH]; [reflexivity|]. cbn [append allChars].
  now rewrite IH, andb_assoc.
Qed.

Lemma allChars_trimStart (p : ascii -> bool) (s : string) :
  allChars p s = true -> allChars p (trimStart s) = true.
Proof.
  induction s as [|c r IH]; [auto|]. cbn [allChars trimStart]. intros E.
  apply andb_prop in E as [Hc Hr].
  destruct (isWhiteSpace c); [auto|]. cbn [allChars]. now rewrite Hc, Hr.
Qed.

Lemma allChars_trimEnd (p : ascii -> bool) (s : string) :
  allChars p s = true -> allChars p (trimEnd s) = true.
Proof.
  intros E. destruct (trimEnd_split s) as (tail & Hs & _).
  rewrite Hs, allChars_append in E. now apply andb_prop in E as [E _].
Qed.

Lemma allChars_substring (p : ascii -> bool) (s : string) :
  allChars p s = true -> forall n m, allChars p (substring n m s) = true.
Proof.
  induction s as [|c r IH]; intros E n m.
  - now destruct n, m.
  - cbn [allChars] in E. apply andb_prop in E as [Hc Hr].
    destruct n as [|n]; destruct m as [|m]; cbn [substring allChars]; auto.
    now rewrite Hc, IH.
Qed.

Lemma length_substring_le (s : string) :
  forall n m, (String.length (substring n m s) <= m)%nat.
Proof.
  induction s as [|c r IH]; intros n m.
  - destruct n, m; cbn; lia.
  - destruct n as [|n].
    + destruct m as [|m]; cbn [substring String.length]; [lia|].
      specialize (IH 0%nat m). lia.
    + cbn [substring]. apply IH.
Qed.

Lemma collapse_label (s : string) :
  forall b, allChars isLabelChar (collapse b s) = true.
Proof.
  induction s as [|c r IH]; intros b; [reflexivity|]. cbn [collapse].
  destruct (isWhiteSpace c) eqn:E.
  - destruct b; [apply IH|]. cbn [allChars]. now rewrite IH.
  - cbn [allChars]. unfold isLabelChar at 1. rewrite E. cbn. apply IH.
Qed.

(** X22.  The label of a history item is one line of at most 53
    characters: it holds no whitespace other than spaces; a statement
    whose normalised text is at most 50 characters long is shown in full,
    a longer one is cut after 50 characters and followed by three dots. *)
Theorem truncateSql_label (sql : string) :
  let normalized := trim (replaceAll false ws1 " " sql) in
  allChars isLabelChar (truncateSql sql) = true
  /\ (String.length (truncateSql sql) <= 53)%nat
  /\ ((String.length normalized <= 50)%nat -> truncateSql sql = normalized)
  /\ ((50 < String.length normalized)%nat ->
      truncateSql sql = substring 0 50 normalized ++ "...").
Proof.
  intros normalized. unfold truncateSql. fold normalized.
  assert (allChars isLabelChar normalized = true) as Hn.
  { unfold normalized. rewrite replaceAll_ws1.
    apply allChars_trimEnd, allChars_trimStart, collapse_label. }
  destruct (Nat.ltb_spec 50 (String.length normalized)) as [Hlong|Hshort].
  - split; [|split; [|split]].
    + rewrite allChars_append, allChars_substring by exact Hn. reflexivity.
    + rewrite length_append. pose proof (length_substring_le normalized 0 50).
      cbn [String.length]. lia.
    + lia.
    + reflexivity.
  - split; [exact Hn|]. split; [lia|]. split; [reflexivity | lia].
Qed.

Lemma truncateSql_label_witness :
  truncateSql ("  select *" ++ String LF "  from t  ") = "select * from t".
Proof.
  pose proof (truncateSql_label ("  select *" ++ String LF "  from t  "))
    as (_ & _ & H & _).
  apply H. vm_compute. lia.
Defined.

(** *** Escaping for HTML *)

Lemma substChar_append (x : ascii) (repl a b : string) :
  substChar x repl (a ++ b) = substChar x repl a ++ substChar x repl b.
Proof.
  induction a as [|c a IH]; [reflexivity|]. cbn [append substChar].
  now rewrite IH, append_assoc.
Qed.

Lemma escapeHtml_substChar (s : string) :
  escapeHtml s
  = substChar "'" "&#039;"
      (substChar doubleQuote "&quot;"
         (substChar ">" "&gt;"
            (substChar "<" "&lt;" (substChar "&" "&amp;" s)))).
Proof. unfold escapeHtml. now rewrite !replaceAll_lit. Qed.

Lemma escapeAttr_substChar (s : string) :
  escapeAttr s
  = substChar LF "&#10;" (substChar doubleQuote "&quot;" s).
Proof. unfold escapeAttr. now rewrite !replaceAll_lit. Qed.

Lemma escapeHtml_append (a b : string) :
  escapeHtml (a ++ b) = escapeHtml a ++ escapeHtml b.
Proof. rewrite !escapeHtml_substChar. now rewrite !substChar_append. Qed.

Lemma escapeHtml_char (c : ascii) : escapeHtml (String c "") = escapeChar c.
Proof.
  rewrite escapeHtml_substChar. unfold escapeChar.
  rewrite (Ascii.eqb_sym c "&"), (Ascii.eqb_sym c "<"), (Ascii.eqb_sym c ">"),
    (Ascii.eqb_sym c doubleQuote), (Ascii.eqb_sym c "'").
  cbn [substChar].
  destruct (Ascii.eqb "&" c) eqn:E1; [reflexivity|].
  cbn [append substChar].
  destruct (Ascii.eqb "<" c) eqn:E2; [reflexivity|].
  cbn [append substChar].
  destruct (Ascii.eqb ">" c) eqn:E3; [reflexivity|].
  cbn [append substChar].
  destruct (Ascii.eqb doubleQuote c) eqn:E4; [reflexivity|].
  cbn [append substChar].
  destruct (Ascii.eqb "'" c) eqn:E5; reflexivity.
Qed.

Lemma escapeHtml_escapeAll (s : string) : escapeHtml s = escapeAll s.
Proof.
  induction s as [|c r IH]; [reflexivity|].
  change (String c r) with (String c "" ++ r).
  now rewrite escapeHtml_append, escapeHtml_char, IH.
Qed.

(** The five characters that are rewritten, and what is written for the
    others. *)
Lemma escapeChar_cases (c : ascii) :
  (c = "&"%char /\ escapeChar c = "&amp;")
  \/ (c = "<"%char /\ escapeChar c = "&lt;")
  \/ (c = ">"%char /\ escapeChar c = "&gt;")
  \/ (c = doubleQuote /\ escapeChar c = "&quot;")
  \/ (c = "'"%char /\ escapeChar c = "&#039;")
  \/ (escapeChar c = String c ""
      /\ c <> "&"%char /\ c <> "<"%char /\ c <> ">"%char
      /\ c <> doubleQuote /\ c <> "'"%char).
Proof.
  unfold escapeChar.
  destruct (Ascii.eqb_spec c "&"); [auto|].
  destruct (Ascii.eqb_spec c "<"); [auto|].
  destruct (Ascii.eqb_spec c ">"); [auto 6|].
  destruct (Ascii.eqb_spec c doubleQuote); [auto 8|].
  destruct (Ascii.eqb_spec c "'"); [auto 10|].
  do 5 right. auto 10.
Qed.

Lemma occurs_escapeChar (x c : ascii) :
  In x ["<"; ">"; doubleQuote; "'"]%char -> occurs x (escapeChar c) = false.
Proof.
  intros Hx.
  destruct (escapeChar_cases c)
    as [[-> ->]|[[-> ->]|[[-> ->]|[[-> ->]|[[-> ->]|(-> & Hc)]]]]];
    cbn [In] in Hx;
    try (destruct Hx as [<-|[<-|[<-|[<-|[]]]]]; reflexivity).
  destruct Hc as (_ & H2 & H3 & H4 & H5). cbn [occurs].
  rewrite orb_false_r. apply Ascii.eqb_neq.
  destruct Hx as [<-|[<-|[<-|[<-|[]]]]]; congruence.
Qed.

Lemma occurs_escapeAll (x : ascii) (s : string) :
  In x ["<"; ">"; doubleQuote; "'"]%char -> occurs x (escapeAll s) = false.
Proof.
  intros Hx. induction s as [|c r IH]; [reflexivity|]. cbn [escapeAll].
  now rewrite occurs_append, occurs_escapeChar, IH.
Qed.

Lemma occurs_substChar (x : ascii) (repl s : string) :
  occurs x repl = false -> occurs x (substChar x repl s) = false.
Proof.
  intros Hr. induction s as [|c r IH]; [reflexivity|]. cbn [substChar].
  rewrite occurs_append, IH, orb_false_r.
  destruct (Ascii.eqb x c) eqn:E; [exact Hr|].
  cbn [occurs]. now rewrite E.
Qed.

Lemma occurs_substChar_other (x y : ascii) (repl s : string) :
  occurs x repl = false -> occurs x s = false ->
  occurs x (substChar y repl s) = false.
Proof.
  intros Hr. induction s as [|c r IH]; [reflexivity|].
  cbn [occurs substChar]. intros E. apply orb_false_iff in E as [Hc Hs].
  rewrite occurs_append, IH, orb_false_r by exact Hs.
  destruct (Ascii.eqb y c); [exact Hr|]. cbn [occurs]. now rewrite Hc.
Qed.

(** X23.  [escapeHtml] writes each character on its own: the ampersand,
    the two angle brackets and the two quotes as their entities, every
    other character as it is; no entity is escaped a second time.  Its
    result therefore holds no angle bracket and no quote, and escaping the
    parts of a text and joining them gives the same as escaping the whole.
    The result of [escapeAttr] holds no double quote and no line feed. *)
Theorem escapeHtml_safe (s a b : string) :
  escapeHtml s = escapeAll s
  /\ occurs "<" (escapeHtml s) = false
  /\ occurs ">" (escapeHtml s) = false
  /\ occurs doubleQuote (escapeHtml s) = false
  /\ occurs "'" (escapeHtml s) = false
  /\ escapeHtml (a ++ b) = escapeHtml a ++ escapeHtml b
  /\ occurs doubleQuote (escapeAttr s) = false
  /\ occurs LF (escapeAttr s) = false.
Proof.
  split; [apply escapeHtml_escapeAll|].
  rewrite escapeHtml_escapeAll.
  split; [apply occurs_escapeAll; cbn; tauto|].
  split; [apply occurs_escapeAll; cbn; tauto|].
  split; [apply occurs_escapeAll; cbn; tauto|].
  split; [apply occurs_escapeAll; cbn; tauto|].
  split; [apply escapeHtml_append|].
  rewrite escapeAttr_substChar. split.
  - apply occurs_substChar_other; [reflexivity|].
    now apply occurs_substChar.
  - now apply occurs_substChar.
Qed.

Ltac strip_heads :=
  repeat match goal with
         | E : String ?x _ = String ?x _ |- _ => injection E as E
         | E : String ?x _ = String ?y _ |- _ =>
             let Eh := fresh "Eh" in
             injection E as Eh E; try discriminate Eh
         end.

Lemma escapeAll_injective (a : string) :
  forall b, escapeAll a = escapeAll b -> a = b.
Proof.
  induction a as [|c a IH]; intros [|d b] E; [reflexivity| | |].
  - cbn [escapeAll] in E.
    destruct (escapeChar_cases d)
      as [[_ Hd]|[[_ Hd]|[[_ Hd]|[[_ Hd]|[[_ Hd]|(Hd & _)]]]]];
      rewrite Hd in E; discriminate.
  - cbn [escapeAll] in E.
    destruct (escapeChar_cases c)
      as [[_ Hc]|[[_ Hc]|[[_ Hc]|[[_ Hc]|[[_ Hc]|(Hc & _)]]]]];
      rewrite Hc in E; discriminate.
  - cbn [escapeAll] in E.
    destruct (escapeChar_cases c)
      as [[-> Hc]|[[-> Hc]|[[-> Hc]|[[-> Hc]|[[-> Hc]|(Hc & C1 & C2)]]]]];
      destruct (escapeChar_cases d)
        as [[-> Hd]|[[-> Hd]|[[-> Hd]|[[-> Hd]|[[-> Hd]|(Hd & D1 & D2)]]]]];
      rewrite ?Hc, ?Hd in E; cbn [append] in E; strip_heads;
      try congruence;
      (f_equal; first [congruence | now apply IH]).
Qed.

(** X24.  [escapeHtml] loses nothing: two different texts are never
    rendered as the same markup. *)
Theorem escapeHtml_injective (a b : string) :
  escapeHtml a = escapeHtml b -> a = b.
Proof.
  rewrite !escapeHtml_escapeAll. apply escapeAll_injective.
Qed.

Lemma escapeHtml_injective_witness : "a < b & c" = "a < b & c".
Proof. apply escapeHtml_injective. reflexivity. Defined.

(** ** The export service *)

Lemma includes_char (x : ascii) (s : string) :
  includes s (String x "") = occurs x s.
Proof.
  induction s as [|c r IH]; [reflexivity|].
  cbn [includes occurs]. rewrite IH. f_equal.
  cbn [prefix]. destruct (ascii_dec x c) as [->|Hne].
  - rewrite Ascii.eqb_refl. now destruct r.
  - symmetry. now apply Ascii.eqb_neq.
Qed.

Lemma append_inj_r (a b t : string) : a ++ t = b ++ t -> a = b.
Proof.
  revert b. induction a as [|c a IH]; intros [|d b] E; [reflexivity| | |].
  - exfalso. apply (f_equal String.length) in E.
    cbn [append String.length] in E. rewrite ?length_append in E. lia.
  - exfalso. apply (f_equal String.length) in E.
    cbn [append String.length] in E. rewrite ?length_append in E. lia.
  - cbn [append] in E. injection E as -> E. f_equal. now apply IH.
Qed.

Lemma doubled_injective (x : ascii) (a : string) :
  forall b,
    substChar x (String x (String x "")) a
    = substChar x (String x (String x "")) b ->
    a = b.
Proof.
  induction a as [|c a IH]; intros [|d b] E; [reflexivity| | |];
    cbn [substChar] in E.
  - destruct (Ascii.eqb x d); discriminate.
  - destruct (Ascii.eqb x c); discriminate.
  - destruct (Ascii.eqb_spec x c) as [<-|Hc];
      destruct (Ascii.eqb_spec x d) as [<-|Hd]; cbn [append] in E.
    + injection E as E. f_equal. now apply IH.
    + injection E as <- _. congruence.
    + injection E as -> _. congruence.
    + injection E as -> E. f_equal. now apply IH.
Qed.

(** X25.  [escapeCsvField] leaves a value as it is when the value holds no
    comma, double quote or line feed, and otherwise puts it between double
    quotes with every double quote of the value doubled; two different
    values are never written as the same field. *)
Theorem escapeCsvField_injective (a b : string) :
  (occurs "," a = false -> occurs doubleQuote a = false ->
   occurs LF a = false -> escapeCsvField a = a)
  /\ (occurs "," a || occurs doubleQuote a || occurs LF a = true ->
      escapeCsvField a
      = String doubleQuote
          (substChar doubleQuote (String doubleQuote (String doubleQuote "")) a
           ++ String doubleQuote ""))
  /\ (escapeCsvField a = escapeCsvField b -> a = b).
Proof.
  assert (forall v,
             escapeCsvField v
             = if occurs "," v || occurs doubleQuote v || occurs LF v
               then String doubleQuote
                      (substChar doubleQuote
                         (String doubleQuote (String doubleQuote "")) v
                       ++ String doubleQuote "")
               else v) as Hform.
  { intros v. unfold escapeCsvField.
    rewrite (includes_char "," v), !includes_char.
    now rewrite replaceAll_lit. }
  split; [|split].
  - intros H1 H2 H3. now rewrite Hform, H1, H2, H3.
  - intros Hq. now rewrite Hform, Hq.
  - rewrite !Hform.
    destruct (occurs "," a || occurs doubleQuote a || occurs LF a) eqn:Ea;
      destruct (occurs "," b || occurs doubleQuote b || occurs LF b) eqn:Eb.
    + intros E. injection E as E. apply append_inj_r in E.
      now apply doubled_injective in E.
    + intros <-. cbn [occurs] in Eb.
      now rewrite Ascii.eqb_refl, orb_true_r in Eb.
    + intros ->. cbn [occurs] in Ea.
      now rewrite Ascii.eqb_refl, orb_true_r in Ea.
    + auto.
Qed.

Lemma escapeCsvField_injective_witness :
  escapeCsvField "plain" = "plain"
  /\ escapeCsvField "a,b"
     = String doubleQuote ("a,b" ++ String doubleQuote "").
Proof.
  pose proof (escapeCsvField_injective "plain" "plain") as (H1 & _ & _).
  pose proof (escapeCsvField_injective "a,b" "a,b") as (_ & H2 & _).
  split; [apply H1; reflexivity | apply H2; reflexivity].
Defined.

(** X26.  The SQL literal that the export writes for a value is the
    display literal that the audit text of the data modification service
    shows for it: the two services quote every value in the same way. *)
Theorem formatSqlValue_agrees `{Host} (value : Value) :
  formatSqlValue value = formatValueForSql value.
Proof. destruct value as [| |b|n|s|o]; reflexivity. Qed.
(** *** Saving edits and the history *)

Section SaveChangesFacts.
Context `{Server}.

(** X27.  Saving edits for a context that names a table, a primary key
    and an open connection sends what [applyChanges] sends and, when
    there is at least one change, records exactly one history item: its
    SQL is the audit text of every change in execution order joined by a
    semicolon and a line feed, its row count the number of affected rows
    and its duration the time the save took; it carries an error exactly
    when a statement was rejected, and then the save is reported as
    failed, not as saved. *)
Theorem saveChanges_recorded (manager : ConnectionManager)
    (result : QueryResult) (context : ResultsContext) (view : bool)
    (answer : option string * option (list string)) (clock : SaveClock)
    (changes : list RowChange) (w : World) (e : Executor)
    (table : string) (pks : list string) (cid : string)
    (connection : Connection) :
  tableName context = Some table -> truthy table = true ->
  primaryKeyColumns context = Some pks -> pks <> [] ->
  contextConnectionId context = Some cid -> truthy cid = true ->
  getConnection manager cid = Some connection ->
  changes <> [] ->
  let applied :=
    applyChanges manager changes (columns result) table pks (Some cid) w in
  let '(w', executor', context', notices) :=
    saveChanges manager true (Some result) (Some context) view answer clock
      changes w (Some e) in
  w' = snd applied
  /\ context' = Some context
  /\ exists item e',
       executor' = Some e'
       /\ getHistory e' = pushed item (getHistory e)
       /\ fired e' = (fired e ++ [item])%list
       /\ hSql item
          = join (";" ++ String LF EmptyString)
              (List.map (auditOf table pks (columns result))
                 (sortedChanges changes))
       /\ hConnectionId item = cid
       /\ hDuration item = (saveEnd clock - saveStart clock)%Z
       /\ hRowCount item = affectedRows (fst applied)
       /\ (hError item = None <-> success (fst applied) = true)
       /\ (In DataModified notices <-> success (fst applied) = true).
Proof.
  intros Ht Htt Hp Hpk Hc Hct Hconn Hch applied.
  assert (executedSql (fst applied)
          = List.map (auditOf table pks (columns result))
              (sortedChanges changes)) as Hsql.
  { subst applied. unfold applyChanges, resolveConnection.
    rewrite Hct, Hconn. destruct pks as [|pk pks]; [congruence|].
    cbn [List.length Nat.eqb]. now rewrite applyChange_executedSql. }
  assert ((0 <? List.length (executedSql (fst applied)))%nat = true) as Hlen.
  { rewrite Hsql, length_map.
    rewrite (Permutation_length (sortedChanges_Permutation changes)).
    destruct changes; [congruence | reflexivity]. }
  unfold saveChanges. unfold given. rewrite Ht, Htt. cbn [negb].
  rewrite Ht, Htt, Hp. cbn [negb].
  destruct pks as [|pk pks]; [congruence|].
  rewrite ?Ht, ?Hc. cbn [default]. unfold Datatypes.id.
  fold applied. destruct applied as [r w1]. cbn [fst snd] in *.
  rewrite ?Hc, ?Hct, ?Hlen. cbn [andb app].
  split; [reflexivity|]. split; [reflexivity|].
  eexists _, _. split; [reflexivity|].
  unfold recordInHistory, getHistory.
  repeat (split; [reflexivity|]).
  split; [now rewrite <- Hsql|].
  repeat (split; [reflexivity|]).
  cbn [hError]. destruct (success r); split.
  - now split.
  - split; [reflexivity|]. intros _. right. now left.
  - split; [discriminate | discriminate].
  - split; [|discriminate]. intros [Hin|[]]. discriminate.
Qed.

End SaveChangesFacts.

Lemma saveChanges_recorded_witness :
  let w := sampleWorld [Resolved (Some 1%N); Rejected "duplicate key"; Resolved (Some 1%N)] in
  let applied :=
    applyChanges sampleManager sampleChanges (columns sampleResult) "t"
      ["id"] (Some "c1") w in
  let '(w', executor', context', notices) :=
    saveChanges sampleManager true (Some sampleResult) (Some sampleContext)
      true (None, None) sampleClock sampleChanges w (Some idleExecutor) in
  w' = snd applied
  /\ context' = Some sampleContext
  /\ exists item e',
       executor' = Some e'
       /\ getHistory e' = pushed item (getHistory idleExecutor)
       /\ fired e' = (fired idleExecutor ++ [item])%list
       /\ hSql item
          = join (";" ++ String LF EmptyString)
              (List.map (auditOf "t" ["id"] (columns sampleResult))
                 (sortedChanges sampleChanges))
       /\ hConnectionId item = "c1"
       /\ hDuration item = (saveEnd sampleClock - saveStart sampleClock)%Z
       /\ hRowCount item = affectedRows (fst applied)
       /\ (hError item = None <-> success (fst applied) = true)
       /\ (In DataModified notices <-> success (fst applied) = true).
Proof.
  apply (@saveChanges_recorded sampleHost scriptedServer sampleManager
           sampleResult sampleContext true (None, None) sampleClock
           sampleChanges
           (sampleWorld [Resolved (Some 1%N); Rejected "duplicate key"; Resolved (Some 1%N)])
           idleExecutor "t" ["id"] "c1" sampleConnection);
    try reflexivity; discriminate.
Defined.
(** *** The primary key picked by the result view *)



